(** * The task-scheduler dialog engine of [src/app/page.tsx]

    The page component keeps nine React state cells (message log, input box,
    task list, intent, step counter, draft, selection, pending field, button
    set) and drives them from one entry point, [handleSend].  This file embeds
    the component as explicit state passing and proves the properties the
    specification states about it.

    Conventions of the embedding.

    - A JavaScript string is a sequence of UTF-16 code units.  The development
      covers the code units below 256 (Latin-1), carried by [ascii]; on this
      range [trim] and [toLowerCase] are exactly the ECMAScript functions.
      The few literals of the source that contain characters outside Latin-1
      (a typographic apostrophe, a dash, a bullet) appear in their UTF-8
      encoding; they are only ever appended to the log, never inspected.
    - A handler runs inside one render: it READS the state cells captured by
      that render and QUEUES writes ([setX v], or [setX (prev => ...)]) that
      React applies, in order, before the next render.  A handler is therefore
      a function of the render snapshot that returns a transformer of the
      queued state.
    - A JavaScript Number is carried by an integer.  The numbers of the
      program are array lengths, array indices and the value of a typed
      numeral; [Number.parseInt] is the integer the digits denote, which is
      the double it returns below 2^53, and differs from it above in a way
      the program cannot observe ([Js.toDouble], [rounding_unobserved]).
    - [crypto.randomUUID()] and [new Date().toISOString()] are oracles
      indexed by the number of draws made so far.
    - [JSON.stringify], [JSON.parse] and [localStorage] belong to the
      platform; they are parameters of the persistence section, instantiated
      further down by a codec that follows ECMA-262 on arrays of tasks. *)

From Stdlib Require Import ZArith List String Ascii Bool Arith Lia DecimalNat DecimalString.
Import ListNotations.
Local Open Scope string_scope.
Local Open Scope Z_scope.

(** ** JavaScript string primitives on Latin-1 code units *)

Module Js.

(** Code of a unit, as [Z]. *)
Definition code (c : ascii) : Z := Z.of_nat (nat_of_ascii c).

(** ECMAScript WhiteSpace and LineTerminator below 256: TAB, LF, VT, FF, CR,
    SP and NBSP. *)
Definition isWhiteSpace (c : ascii) : bool :=
  let n := code c in
  ((9 <=? n) && (n <=? 13)) || (n =? 32) || (n =? 160).

(** [\d] of a regular expression without the unicode flag. *)
Definition isDigit (c : ascii) : bool :=
  let n := code c in (48 <=? n) && (n <=? 57).

(** Simple lower-case mapping of one unit: A-Z, and U+00C0..U+00DE except the
    multiplication sign U+00D7. *)
Definition lowerChar (c : ascii) : ascii :=
  let n := code c in
  if ((65 <=? n) && (n <=? 90))
     || ((192 <=? n) && (n <=? 222) && negb (n =? 215))
  then ascii_of_nat (nat_of_ascii c + 32)
  else c.

(** [String.prototype.toLowerCase]. *)
Fixpoint toLowerCase (s : string) : string :=
  match s with
  | EmptyString => EmptyString
  | String c r => String (lowerChar c) (toLowerCase r)
  end.

Fixpoint trimStart (s : string) : string :=
  match s with
  | EmptyString => EmptyString
  | String c r => if isWhiteSpace c then trimStart r else s
  end.

Fixpoint trimEnd (s : string) : string :=
  match s with
  | EmptyString => EmptyString
  | String c r =>
      match trimEnd r with
      | EmptyString => if isWhiteSpace c then EmptyString else String c EmptyString
      | r' => String c r'
      end
  end.

(** [String.prototype.trim]. *)
Definition trim (s : string) : string := trimEnd (trimStart s).

(** [s.startsWith(p)]. *)
Definition startsWith (s p : string) : bool := String.prefix p s.

(** [s.includes(k)]: [k] occurs at some position of [s]. *)
Fixpoint includes (s k : string) : bool :=
  String.prefix k s ||
  match s with
  | EmptyString => false
  | String _ r => includes r k
  end.

(** [xs.join(sep)]. *)
Fixpoint join (sep : string) (xs : list string) : string :=
  match xs with
  | [] => ""
  | [x] => x
  | x :: r => x ++ sep ++ join sep r
  end.

(** The longest prefix of digits: what [(\d+)] captures, being greedy. *)
Fixpoint takeDigits (s : string) : string :=
  match s with
  | String c r => if isDigit c then String c (takeDigits r) else EmptyString
  | EmptyString => EmptyString
  end.

(** Value of a digit string read most significant digit first, with an
    accumulator. *)
Fixpoint digitsValue (acc : Z) (s : string) : Z :=
  match s with
  | EmptyString => acc
  | String c r => digitsValue (10 * acc + (code c - 48)) r
  end.

(** [Number.parseInt(s, 10)] on the strings the program passes to it.  [None]
    is NaN: no leading digit.  The result is the integer the digits denote.
    The Number that [Number.parseInt] returns is the double nearest to it
    ([toDouble] below): the integer itself below 2^53, where every statement
    about the returned value is made; above, the two differ, in a way that no
    bounds test against an array length (below 2^32) can observe
    ([rounding_unobserved]). *)
Definition parseInt (s : string) : option Z :=
  match takeDigits s with
  | EmptyString => None
  | ds => Some (digitsValue 0 ds)
  end.

(** The Number nearest to a non-negative integer: the integer itself below
    2^53; above, its 53 leading bits rounded to nearest, ties to the even
    significand.  [None] is [Infinity]. *)
Definition toDouble (n : Z) : option Z :=
  if n <? 2 ^ 53 then Some n
  else
    let e := Z.log2 n - 52 in
    let q := n / 2 ^ e in
    let r := n mod 2 ^ e in
    let half := 2 ^ (e - 1) in
    let q' := if (half <? r) || ((r =? half) && Z.odd q) then q + 1 else q in
    if 2 ^ 1024 <=? q' * 2 ^ e then None else Some (q' * 2 ^ e).

(** [s.match(/^(?:#)?(\d+)/)], giving capture group 1.  When a leading [#] is
    not followed by a digit, backtracking over the optional group fails as
    well, since [#] is no digit. *)
Definition matchIndex (s : string) : option string :=
  let body := match s with
              | String "#"%char r => r
              | _ => s
              end in
  match takeDigits body with
  | EmptyString => None
  | ds => Some ds
  end.

(** JavaScript truthiness of a string: the empty string is falsy. *)
Definition truthy (s : string) : bool :=
  match s with EmptyString => false | _ => true end.

End Js.

(** [parseIndex] (page.tsx 58-63). *)
Definition parseIndex (value : string) : option Z :=
  match Js.matchIndex (Js.trim value) with
  | None => None
  | Some m1 =>
      match Js.parseInt m1 with
      | None => None
      | Some idx => Some (idx - 1)
      end
  end.

(** [idx - 1] (62) computed on Numbers, for the integer [v] the digits
    denote. *)
Definition doubleIndex (v : Z) : option Z :=
  match Js.toDouble v with
  | Some idx => Js.toDouble (idx - 1)
  | None => None
  end.

(** ** Data model (page.tsx 5-36) *)

Inductive Role := assistant | user.

Module Message.
Record t := mk { id : string; role : Role; content : string; timestamp : string }.
End Message.

(** [Priority] is a union of three string literals; at run time a priority is
    a string, and rehydrated data may hold any string there. *)
Definition priorityOptions : list string := ["High"; "Medium"; "Low"].

Module Task.
Record t := mk {
    id : string;
    title : string;
    due : string;
    priority : string;
    reminder : option string   (* [None] is [null] *)
  }.
End Task.

(** [Partial<Task>]: each key present or not; a present [reminder] may be
    [null]. *)
Module PartialTask.
Record t := mk {
    id : option string;
    title : option string;
    due : option string;
    priority : option string;
    reminder : option (option string)
  }.
  (** [{}] *)
Definition empty : t := mk None None None None None.
  (** [{ ...prev, title: v }] and its siblings. *)
Definition withTitle (p : t) (v : string) : t :=
    mk (id p) (Some v) (due p) (priority p) (reminder p).
Definition withDue (p : t) (v : string) : t :=
    mk (id p) (title p) (Some v) (priority p) (reminder p).
Definition withPriority (p : t) (v : string) : t :=
    mk (id p) (title p) (due p) (Some v) (reminder p).
Definition withReminder (p : t) (v : option string) : t :=
    mk (id p) (title p) (due p) (priority p) (Some v).
End PartialTask.

(** [{ ...task, ...partial }]: a key present in [partial] wins. *)
Definition spread (task : Task.t) (p : PartialTask.t) : Task.t :=
  Task.mk
    (match PartialTask.id p with Some v => v | None => Task.id task end)
    (match PartialTask.title p with Some v => v | None => Task.title task end)
    (match PartialTask.due p with Some v => v | None => Task.due task end)
    (match PartialTask.priority p with Some v => v | None => Task.priority task end)
    (match PartialTask.reminder p with Some v => v | None => Task.reminder task end).

Module QuickAction.
Record t := mk { label : string; value : string }.
End QuickAction.

Inductive Action := idle | add | update | delete | view.

(** [keyof Task]. *)
Inductive Key := k_id | k_title | k_due | k_priority | k_reminder.

Definition idleActions : list QuickAction.t :=
  [ QuickAction.mk "Add Task" "Add Task";
    QuickAction.mk "Update Task" "Update Task";
    QuickAction.mk "Delete Task" "Delete Task";
    QuickAction.mk "View Tasks" "View Tasks" ].

(** ** Component state (page.tsx 66-74)

    [draws] is not a React cell: it counts the values drawn so far from the
    UUID generator and the clock. *)
Record State := mkState {
  messages : list Message.t;
  input : string;
  tasks : list Task.t;
  action : Action;
  flowStep : Z;
  pendingTask : PartialTask.t;
  selectedTaskId : option string;
  pendingField : option Key;
  buttons : list QuickAction.t;
  draws : nat
}.

(** A queued write. *)
Definition Update := State -> State.

Definition skip : Update := fun q => q.
Definition andThen (f g : Update) : Update := fun q => g (f q).
Infix ";;" := andThen (at level 61, left associativity).

Definition setMessagesWith (f : list Message.t -> list Message.t) : Update := fun q =>
  mkState (f (messages q)) (input q) (tasks q) (action q) (flowStep q) (pendingTask q)
          (selectedTaskId q) (pendingField q) (buttons q) (draws q).
Definition setInput (v : string) : Update := fun q =>
  mkState (messages q) v (tasks q) (action q) (flowStep q) (pendingTask q)
          (selectedTaskId q) (pendingField q) (buttons q) (draws q).
Definition setTasksWith (f : list Task.t -> list Task.t) : Update := fun q =>
  mkState (messages q) (input q) (f (tasks q)) (action q) (flowStep q) (pendingTask q)
          (selectedTaskId q) (pendingField q) (buttons q) (draws q).
Definition setTasks (v : list Task.t) : Update := setTasksWith (fun _ => v).
Definition setAction (v : Action) : Update := fun q =>
  mkState (messages q) (input q) (tasks q) v (flowStep q) (pendingTask q)
          (selectedTaskId q) (pendingField q) (buttons q) (draws q).
Definition setFlowStep (v : Z) : Update := fun q =>
  mkState (messages q) (input q) (tasks q) (action q) v (pendingTask q)
          (selectedTaskId q) (pendingField q) (buttons q) (draws q).
Definition setPendingTaskWith (f : PartialTask.t -> PartialTask.t) : Update := fun q =>
  mkState (messages q) (input q) (tasks q) (action q) (flowStep q) (f (pendingTask q))
          (selectedTaskId q) (pendingField q) (buttons q) (draws q).
Definition setPendingTask (v : PartialTask.t) : Update := setPendingTaskWith (fun _ => v).
Definition setSelectedTaskId (v : option string) : Update := fun q =>
  mkState (messages q) (input q) (tasks q) (action q) (flowStep q) (pendingTask q)
          v (pendingField q) (buttons q) (draws q).
Definition setPendingField (v : option Key) : Update := fun q =>
  mkState (messages q) (input q) (tasks q) (action q) (flowStep q) (pendingTask q)
          (selectedTaskId q) v (buttons q) (draws q).
Definition setButtons (v : list QuickAction.t) : Update := fun q =>
  mkState (messages q) (input q) (tasks q) (action q) (flowStep q) (pendingTask q)
          (selectedTaskId q) (pendingField q) v (draws q).
Definition tick : Update := fun q =>
  mkState (messages q) (input q) (tasks q) (action q) (flowStep q) (pendingTask q)
          (selectedTaskId q) (pendingField q) (buttons q) (S (draws q)).

(** ** Text fragments shared by the handlers *)

Definition NL : string := String "010"%char "".
Definition DQ : string := String "034"%char "".

(** [String(n)] for a non-negative integer. *)
Definition numberToString (n : nat) : string :=
  NilZero.string_of_uint (Nat.to_uint n).

(** [xs.map((x, index) => f x index)]. *)
Fixpoint mapi_from {A B} (i : nat) (f : A -> nat -> B) (xs : list A) : list B :=
  match xs with
  | [] => []
  | x :: r => f x i :: mapi_from (S i) f r
  end.
Definition mapi {A B} (f : A -> nat -> B) (xs : list A) : list B := mapi_from 0 f xs.

(** [reminder ?? 'None'] *)
Definition reminderOrNone (r : option string) : string :=
  match r with Some v => v | None => "None" end.

(** The four lines of a task summary (page.tsx 210-215, 327-332, 357-362). *)
Definition summaryParts (task : Task.t) : list string :=
  [ "Task: " ++ Task.title task;
    "Due: " ++ Task.due task;
    "Priority: " ++ Task.priority task;
    "Reminder: " ++ reminderOrNone (Task.reminder task) ].

(** The numbered listing of the Update and Delete flows (page.tsx 232-234,
    405-407). *)
Definition numberedList (ts : list Task.t) : string :=
  Js.join NL
    (mapi (fun task index =>
             "#" ++ numberToString (index + 1) ++ " " ++ Task.title task
             ++ " — Due: " ++ Task.due task
             ++ " — Priority: " ++ Task.priority task) ts).

Definition priorityButtons : list QuickAction.t :=
  map (fun priority => QuickAction.mk priority priority) priorityOptions.

Definition saveButtons : list QuickAction.t :=
  [ QuickAction.mk "Yes, save" "yes"; QuickAction.mk "No, cancel" "no" ].

(** [priorityOptions.find(p => p.toLowerCase() === userInput.trim().toLowerCase())] *)
Definition findPriority (userInput : string) : option string :=
  find (fun p => String.eqb (Js.toLowerCase p) (Js.toLowerCase (Js.trim userInput)))
       priorityOptions.

(** [userInput.trim().toLowerCase().startsWith(p)] *)
Definition answerStartsWith (userInput p : string) : bool :=
  Js.startsWith (Js.toLowerCase (Js.trim userInput)) p.

(** [!selectedTaskId]: [null] and the empty string are falsy. *)
Definition noSelection (sel : option string) : bool :=
  match sel with
  | None => true
  | Some sid => negb (Js.truthy sid)
  end.

(** [field as keyof Task] for the four names step 2 of the Update flow lets
    through. *)
Definition keyOfField (field : string) : option Key :=
  if String.eqb field "title" then Some k_title
  else if String.eqb field "due" then Some k_due
  else if String.eqb field "priority" then Some k_priority
  else if String.eqb field "reminder" then Some k_reminder
  else None.

(** ** The dialog engine (page.tsx 99-518) *)

Section Engine.

(** The [n]-th value returned by [crypto.randomUUID()] and by
    [new Date().toISOString()]. *)
Variable randomUUID : nat -> string.
Variable now : nat -> string.

(** [pushMessage] (99-109): the new message is built inside the queued
    updater. *)
Definition pushMessage (role : Role) (content : string) : Update := fun q =>
  tick (setMessagesWith
          (fun prev => (prev ++ [Message.mk (randomUUID (draws q)) role content (now (draws q))])%list)
          q).

(** A call of [crypto.randomUUID()] in a handler body. *)
Definition withUUID (k : string -> Update) : Update := fun q =>
  k (randomUUID (draws q)) (tick q).

(** [{ priority: 'Medium' }] *)
Definition defaultDraft : PartialTask.t :=
  PartialTask.mk None None None (Some "Medium") None.

(** [resetConversation] (111-118). *)
Definition resetConversation : Update :=
  setAction idle ;; setFlowStep 0 ;; setPendingTask defaultDraft ;;
  setSelectedTaskId None ;; setPendingField None ;; setButtons idleActions.

(** [showIdleOptions] (120-123). *)
Definition showIdleOptions : Update :=
  pushMessage assistant "Anything else I can help with? Add, update, delete, or view tasks." ;;
  resetConversation.

(** The task built at the save step (201-207). *)
Definition materialize (uuid : string) (p : PartialTask.t) : Task.t :=
  Task.mk
    uuid
    (match PartialTask.title p with Some v => Js.trim v | None => "Untitled task" end)
    (match PartialTask.due p with Some v => Js.trim v | None => "No due date" end)
    (match PartialTask.priority p with Some v => v | None => "Medium" end)
    (match PartialTask.reminder p with Some (Some v) => Some v | _ => None end).

(** [handleAddFlow] (125-223).  [r] is the render snapshot. *)
Definition handleAddFlow (r : State) (userInput : string) : Update :=
  if flowStep r =? 0 then
    setPendingTask defaultDraft ;;
    pushMessage assistant "Great! What is the task?" ;;
    setFlowStep 1 ;;
    setButtons []
  else if flowStep r =? 1 then
    setPendingTaskWith (fun prev => PartialTask.withTitle prev (Js.trim userInput)) ;;
    pushMessage assistant ("Got it. When is it due? (e.g. " ++ DQ ++ "24 Apr 5pm" ++ DQ ++ ")") ;;
    setFlowStep 2
  else if flowStep r =? 2 then
    setPendingTaskWith (fun prev => PartialTask.withDue prev (Js.trim userInput)) ;;
    pushMessage assistant "Any priority? High, Medium, or Low?" ;;
    setButtons priorityButtons ;;
    setFlowStep 3
  else if flowStep r =? 3 then
    match findPriority userInput with
    | None => pushMessage assistant "Please choose between High, Medium, or Low."
    | Some priority =>
        setPendingTaskWith (fun prev => PartialTask.withPriority prev priority) ;;
        setButtons [ QuickAction.mk "Yes, add reminder" "yes";
                     QuickAction.mk "No reminder" "no" ] ;;
        pushMessage assistant "Do you want to add a reminder?" ;;
        setFlowStep 4
    end
  else if flowStep r =? 4 then
    if answerStartsWith userInput "y" then
      pushMessage assistant "Sure, when should I remind you?" ;;
      setFlowStep 5 ;;
      setButtons []
    else if answerStartsWith userInput "n" then
      setPendingTaskWith (fun prev => PartialTask.withReminder prev None) ;;
      pushMessage assistant "Here is what I captured. Save it? (yes/no)" ;;
      setFlowStep 6 ;;
      setButtons saveButtons
    else
      pushMessage assistant "Please say yes or no for the reminder."
  else if flowStep r =? 5 then
    setPendingTaskWith (fun prev => PartialTask.withReminder prev (Some (Js.trim userInput))) ;;
    pushMessage assistant "Thanks! Shall I save it? (yes/no)" ;;
    setFlowStep 6 ;;
    setButtons saveButtons
  else if flowStep r =? 6 then
    if answerStartsWith userInput "y" then
      withUUID (fun uuid =>
        let task := materialize uuid (pendingTask r) in
        let updated := (tasks r ++ [task])%list in
        setTasks updated ;;
        pushMessage assistant ("All set!" ++ NL ++ Js.join NL (summaryParts task)) ;;
        showIdleOptions)
    else
      pushMessage assistant "No worries, I will discard that task." ;;
      showIdleOptions
  else skip.

(** Second half of steps 3 and 4 of the Update flow (323-340, 356-370): show
    the merged task, keep the delta as the draft, ask whether to save. *)
Definition previewDraft (intro : string) (currentTask : Task.t)
    (updateDraft : PartialTask.t) : Update :=
  let preview := spread currentTask updateDraft in
  setPendingTask updateDraft ;;
  pushMessage assistant
    (intro ++ NL ++ Js.join NL (summaryParts preview) ++ NL ++ "Save it? (yes/no)") ;;
  setButtons saveButtons ;;
  setFlowStep 5.

(** [handleUpdateFlow] (225-396). *)
Definition handleUpdateFlow (r : State) (userInput : string) : Update :=
  if flowStep r =? 0 then
    if (List.length (tasks r) =? 0)%nat then
      pushMessage assistant "You have no tasks yet. Let’s add one." ;;
      resetConversation
    else
      pushMessage assistant
        ("Which task do you want to update?" ++ NL ++ numberedList (tasks r)) ;;
      setFlowStep 1
  else if flowStep r =? 1 then
    match parseIndex userInput with
    | None => pushMessage assistant "Please pick a valid task number."
    | Some index =>
        if (index <? 0) || (index >=? Z.of_nat (List.length (tasks r))) then
          pushMessage assistant "Please pick a valid task number."
        else
          match nth_error (tasks r) (Z.to_nat index) with
          | None => skip   (* not reached: [index] is within bounds *)
          | Some task =>
              setSelectedTaskId (Some (Task.id task)) ;;
              pushMessage assistant "What do you want to change?" ;;
              setButtons [ QuickAction.mk "Task name" "title";
                           QuickAction.mk "Due date & time" "due";
                           QuickAction.mk "Priority" "priority";
                           QuickAction.mk "Reminder" "reminder" ] ;;
              setFlowStep 2
          end
    end
  else if flowStep r =? 2 then
    let field := Js.toLowerCase (Js.trim userInput) in
    if negb (existsb (String.eqb field) ["title"; "due"; "priority"; "reminder"]) then
      pushMessage assistant "Please choose title, due, priority, or reminder."
    else
      setPendingField (keyOfField field) ;;
      (if String.eqb field "priority" then
         setButtons priorityButtons ;;
         pushMessage assistant "New priority? (High/Medium/Low)"
       else if String.eqb field "reminder" then
         setButtons [ QuickAction.mk "Update reminder" "update";
                      QuickAction.mk "Remove reminder" "remove" ] ;;
         pushMessage assistant "Want to update the reminder or remove it?"
       else
         setButtons [] ;;
         pushMessage assistant
           ("Alright, what is the new "
            ++ (if String.eqb field "title" then "task name" else "due date & time")
            ++ "?")) ;;
      setFlowStep 3
  else if flowStep r =? 3 then
    match selectedTaskId r with
    | None => pushMessage assistant "Let’s start over." ;; resetConversation
    | Some sid =>
      if negb (Js.truthy sid) then
        pushMessage assistant "Let’s start over." ;; resetConversation
      else
        match find (fun task => String.eqb (Task.id task) sid) (tasks r) with
        | None =>
            pushMessage assistant "I could not find that task. Let’s try again." ;;
            resetConversation
        | Some currentTask =>
            let finish := previewDraft "Here is the updated version:" currentTask in
            match pendingField r with
            | Some k_priority =>
                match findPriority userInput with
                | None => pushMessage assistant "Priority should be High, Medium, or Low."
                | Some priority =>
                    finish (PartialTask.withPriority PartialTask.empty priority)
                end
            | Some k_reminder =>
                let option := Js.toLowerCase (Js.trim userInput) in
                if String.eqb option "remove" then
                  finish (PartialTask.withReminder PartialTask.empty None)
                else if String.eqb option "update" then
                  pushMessage assistant "What is the new reminder time?" ;;
                  setFlowStep 4 ;;
                  setButtons []
                else
                  finish (PartialTask.withReminder PartialTask.empty (Some (Js.trim userInput)))
            | Some k_title =>
                finish (PartialTask.withTitle PartialTask.empty (Js.trim userInput))
            | Some k_due =>
                finish (PartialTask.withDue PartialTask.empty (Js.trim userInput))
            | _ => finish PartialTask.empty
            end
        end
    end
  else if flowStep r =? 4 then
    match selectedTaskId r with
    | None => pushMessage assistant "Let’s start over." ;; resetConversation
    | Some sid =>
      if negb (Js.truthy sid) then
        pushMessage assistant "Let’s start over." ;; resetConversation
      else
        match find (fun task => String.eqb (Task.id task) sid) (tasks r) with
        | None => pushMessage assistant "Task not found, sorry." ;; resetConversation
        | Some currentTask =>
            previewDraft "Updated reminder ready:" currentTask
              (PartialTask.withReminder PartialTask.empty (Some (Js.trim userInput)))
        end
    end
  else if flowStep r =? 5 then
    match selectedTaskId r with
    | None => pushMessage assistant "Looks like that task vanished." ;; resetConversation
    | Some sid =>
      if negb (Js.truthy sid) then
        pushMessage assistant "Looks like that task vanished." ;; resetConversation
      else
        (if answerStartsWith userInput "y" then
           setTasksWith (fun prev =>
             map (fun task =>
                    if String.eqb (Task.id task) sid
                    then spread task (pendingTask r)
                    else task) prev) ;;
           pushMessage assistant "Updated! Anything else?"
         else
           pushMessage assistant "No changes saved.") ;;
        showIdleOptions
    end
  else skip.

(** [handleDeleteFlow] (398-447). *)
Definition handleDeleteFlow (r : State) (userInput : string) : Update :=
  if flowStep r =? 0 then
    if (List.length (tasks r) =? 0)%nat then
      pushMessage assistant "No tasks to delete right now. Want to add one instead?" ;;
      resetConversation
    else
      pushMessage assistant
        ("Got it. Which task should I delete?" ++ NL ++ numberedList (tasks r)) ;;
      setFlowStep 1
  else if flowStep r =? 1 then
    match parseIndex userInput with
    | None => pushMessage assistant "Please choose a valid task number."
    | Some index =>
        if (index <? 0) || (index >=? Z.of_nat (List.length (tasks r))) then
          pushMessage assistant "Please choose a valid task number."
        else
          match nth_error (tasks r) (Z.to_nat index) with
          | None => skip   (* not reached: [index] is within bounds *)
          | Some task =>
              setSelectedTaskId (Some (Task.id task)) ;;
              pushMessage assistant
                ("Just to confirm, delete " ++ DQ ++ Task.title task ++ DQ
                 ++ " due " ++ Task.due task ++ "? (yes/no)") ;;
              setButtons [ QuickAction.mk "Yes, delete" "yes";
                           QuickAction.mk "No, keep it" "no" ] ;;
              setFlowStep 2
          end
    end
  else if flowStep r =? 2 then
    match selectedTaskId r with
    | None => pushMessage assistant "Task already gone." ;; resetConversation
    | Some sid =>
      if negb (Js.truthy sid) then
        pushMessage assistant "Task already gone." ;; resetConversation
      else
        (if answerStartsWith userInput "y" then
           setTasksWith (fun prev =>
             filter (fun task => negb (String.eqb (Task.id task) sid)) prev) ;;
           pushMessage assistant "Done! Task removed."
         else
           pushMessage assistant "Okay, nothing deleted.") ;;
        showIdleOptions
    end
  else skip.

(** One block of the View listing (456-459). *)
Definition viewBlock (task : Task.t) : string :=
  "• " ++ Task.title task ++ NL
  ++ "  Due: " ++ Task.due task ++ NL
  ++ "  Priority: " ++ Task.priority task ++ NL
  ++ "  Reminder: " ++ reminderOrNone (Task.reminder task).

(** [handleViewFlow] (449-463). *)
Definition handleViewFlow (r : State) : Update :=
  if (List.length (tasks r) =? 0)%nat then
    pushMessage assistant "You do not have any tasks yet. Ready to add one?" ;;
    resetConversation
  else
    pushMessage assistant
      ("Here is what is on your list:" ++ NL ++ Js.join (NL ++ NL) (map viewBlock (tasks r))) ;;
    showIdleOptions.

(** [routeInput] (465-510).  The flow called right after [setAction] still
    reads the snapshot [r]: the writes queued before the call are not visible
    to it. *)
Definition routeInput (r : State) (userInput : string) : Update :=
  match action r with
  | idle =>
      let intent := Js.toLowerCase (Js.trim userInput) in
      if Js.includes intent "add" then
        setAction add ;; setFlowStep 0 ;; setButtons [] ;; handleAddFlow r ""
      else if Js.includes intent "update" then
        setAction update ;; setFlowStep 0 ;; setButtons [] ;; handleUpdateFlow r ""
      else if Js.includes intent "delete" || Js.includes intent "remove" then
        setAction delete ;; setFlowStep 0 ;; setButtons [] ;; handleDeleteFlow r ""
      else if Js.includes intent "view" || Js.includes intent "show"
              || Js.includes intent "list" then
        setAction view ;; setFlowStep 0 ;; setButtons [] ;; handleViewFlow r
      else
        pushMessage assistant
          "I can add, update, delete, or show tasks. Which one do you need?" ;;
        setButtons idleActions
  | add => handleAddFlow r userInput
  | update => handleUpdateFlow r userInput
  | delete => handleDeleteFlow r userInput
  | view => handleViewFlow r
  end.

(** [handleSend] (512-518): one turn.  [value] is the argument ([None] when
    the function is called without one); the queued writes start from the
    snapshot itself. *)
Definition handleSend (value : option string) (r : State) : State :=
  let messageText := match value with
                     | Some v => v
                     | None => Js.trim (input r)
                     end in
  if negb (Js.truthy messageText) then r
  else (pushMessage user messageText ;; setInput "" ;; routeInput r messageText) r.

End Engine.

(** ** Initial render and a sample environment *)

(** The cells at the first render (38-51, 66-74): the two greetings consume
    the first two draws. *)
Definition initialState (randomUUID now : nat -> string) : State :=
  mkState
    [ Message.mk (randomUUID 0%nat) assistant
        "Hey! I'm your WhatsApp Task Scheduler. Need to add, update, delete, or check tasks?"
        (now 0%nat);
      Message.mk (randomUUID 1%nat) assistant
        "Just tap an option or tell me what you need."
        (now 1%nat) ]
    "" [] idle 0 defaultDraft None None idleActions 2.

(** An environment to run the engine on: distinct identifiers, a clock. *)
Definition sampleUUID (n : nat) : string := "uuid-" ++ numberToString n.
Definition sampleNow (n : nat) : string := "T+" ++ numberToString n.

(** Typing [text] in the box and pressing Enter. *)
Definition say (randomUUID now : nat -> string) (text : string) (s : State) : State :=
  handleSend randomUUID now None (setInput text s).

(** A run of typed lines. *)
Definition converse (randomUUID now : nat -> string) (lines : list string) (s : State) : State :=
  fold_left (fun s text => say randomUUID now text s) lines s.

(** ** User events (page.tsx 558-587)

    The presentation layer forwards three things: a change of the input box,
    a submission of the box (Enter or the Send button, [handleSend()]), and a
    tap on one of the buttons currently shown ([handleSend(button.value)]). *)

Inductive Event :=
| Typing (text : string)
| Submit
| Tap (b : QuickAction.t).

Definition react (randomUUID now : nat -> string) (e : Event) (s : State) : State :=
  match e with
  | Typing text => setInput text s
  | Submit => handleSend randomUUID now None s
  | Tap b => handleSend randomUUID now (Some (QuickAction.value b)) s
  end.

(** Only a button on screen can be tapped. *)
Definition enabled (e : Event) (s : State) : Prop :=
  match e with
  | Tap b => In b (buttons s)
  | _ => True
  end.

(** The text an event submits, when it submits one. *)
Definition submitted (e : Event) (s : State) : option string :=
  match e with
  | Typing _ => None
  | Submit => Some (input s)
  | Tap b => Some (QuickAction.value b)
  end.

(** States of a session: the first render, possibly with a rehydrated task
    list, followed by events. *)
Inductive Reachable (randomUUID now : nat -> string) : State -> Prop :=
| reach_init : Reachable randomUUID now (initialState randomUUID now)
| reach_rehydrated ts :
    Reachable randomUUID now (setTasks ts (initialState randomUUID now))
| reach_event e s :
    Reachable randomUUID now s -> enabled e s ->
    Reachable randomUUID now (react randomUUID now e s).

(** ** What the page shows (page.tsx 520-587) *)

(** [assistantStatus] (520-526): the line under the title. *)
Definition assistantStatus (s : State) : string :=
  match action s with
  | add => "Adding a task"
  | update => "Updating a task"
  | delete => "Deleting a task"
  | view => "Viewing tasks"
  | idle => "Here for you"
  end.

(** [disabled={!input.trim()}] of the Send button (584). *)
Definition sendDisabled (s : State) : bool := negb (Js.truthy (Js.trim (input s))).

(** [content.split('\n')] (541): the pieces between line feeds, at least
    one. *)
Fixpoint splitLines (s : string) : list string :=
  match s with
  | EmptyString => [""]
  | String c r =>
      if Ascii.eqb c "010"%char then "" :: splitLines r
      else match splitLines r with
           | line :: more => String c line :: more
           | [] => [String c ""]
           end
  end.

(** What a message bubble holds (545-550): each line, followed by a break
    when [index < lines.length - 1]. *)
Inductive Piece :=
| Text (line : string)
| Break.

Fixpoint piecesFrom (index total : nat) (lines : list string) : list Piece :=
  match lines with
  | [] => []
  | line :: more =>
      (Text line :: (if (index <? total - 1)%nat then [Break] else [])
       ++ piecesFrom (S index) total more)%list
  end.

Definition bubble (content : string) : list Piece :=
  let lines := splitLines content in
  piecesFrom 0 (List.length lines) lines.

(** ** Persistence (page.tsx 77-93) *)

(** What [JSON.parse] followed by [Array.isArray] makes of the stored text. *)
Inductive Parsed :=
| Throws                       (* [JSON.parse] raises a SyntaxError *)
| NonArray                     (* a value that is not an array *)
| Tasks (ts : list Task.t)     (* an array of task objects *)
| Unmodelled.                  (* any other array: the cast on line 81 lets it
                                  through; the typed model does not follow it *)

(** What the load effect does: nothing, [setTasks(parsed)], or something the
    typed model does not follow. *)
Inductive LoadResult :=
| NothingQueued
| TasksQueued (parsed : list Task.t)
| OutsideModel.

Section Persistence.

Variable randomUUID : nat -> string.
Variable now : nat -> string.
(** [JSON.stringify] on a task array and [JSON.parse] on a stored text. *)
Variable JSON_stringify : list Task.t -> string.
Variable JSON_parse : string -> Parsed.

(** What the load effect (77-89) queues, given what [getItem] returned. *)
Definition loadEffect (stored : option string) : LoadResult :=
  match stored with
  | None => NothingQueued
  | Some text =>
      if Js.truthy text then
        match JSON_parse text with
        | Throws => NothingQueued          (* caught, logged *)
        | NonArray => NothingQueued
        | Tasks parsed => TasksQueued parsed
        | Unmodelled => OutsideModel
        end
      else NothingQueued
  end.

(** The persist effect (91-93): the text [setItem] stores. *)
Definition persistEffect (r : State) : option string :=
  Some (JSON_stringify (tasks r)).

(** Start of the process with [stored] in the slot: the state and the slot
    once the effects have settled.  The first commit runs the load effect,
    then the persist effect on the empty list; when the load effect has
    queued [setTasks], the render that follows runs the persist effect
    again, on the new list. *)
Definition mount (stored : option string) : option (State * option string) :=
  let r0 := initialState randomUUID now in
  match loadEffect stored with
  | OutsideModel => None
  | NothingQueued => Some (r0, persistEffect r0)
  | TasksQueued parsed =>
      let r1 := setTasks parsed r0 in
      Some (r1, persistEffect r1)
  end.

End Persistence.

(** ** A reference codec for task arrays

    [JSON.stringify] on an array of task objects, after ECMA-262
    (SerializeJSONArray, SerializeJSONObject, QuoteJSONString): no white
    space, keys in creation order, strings quoted and escaped. *)

Module Json.

Definition hexDigit (n : nat) : ascii :=
  if (n <? 10)%nat then ascii_of_nat (48 + n) else ascii_of_nat (87 + n).

(** QuoteJSONString on one code unit. *)
Definition escapeChar (c : ascii) : string :=
  let n := nat_of_ascii c in
  if (n =? 8)%nat then "\b"
  else if (n =? 9)%nat then "\t"
  else if (n =? 10)%nat then "\n"
  else if (n =? 12)%nat then "\f"
  else if (n =? 13)%nat then "\r"
  else if (n =? 34)%nat then String "\"%char DQ
  else if (n =? 92)%nat then "\\"
  else if (n <? 32)%nat then
    "\u00" ++ String (hexDigit (n / 16)) (String (hexDigit (n mod 16)) "")
  else String c "".

Fixpoint escape (s : string) : string :=
  match s with
  | EmptyString => EmptyString
  | String c r => escapeChar c ++ escape r
  end.

Definition quote (s : string) : string := DQ ++ escape s ++ DQ.

Definition member (key : string) (v : string) : string := DQ ++ key ++ DQ ++ ":" ++ v.

Definition stringifyTask (task : Task.t) : string :=
  "{" ++ member "id" (quote (Task.id task))
  ++ "," ++ member "title" (quote (Task.title task))
  ++ "," ++ member "due" (quote (Task.due task))
  ++ "," ++ member "priority" (quote (Task.priority task))
  ++ "," ++ member "reminder"
              (match Task.reminder task with Some v => quote v | None => "null" end)
  ++ "}".

Definition stringify (ts : list Task.t) : string :=
  "[" ++ Js.join "," (map stringifyTask ts) ++ "]".

(** Reading back.  [expect lit s] strips [lit] from the front of [s]. *)
Fixpoint expect (lit s : string) : option string :=
  match lit with
  | EmptyString => Some s
  | String a lit' =>
      match s with
      | String b s' => if Ascii.eqb a b then expect lit' s' else None
      | EmptyString => None
      end
  end.

Definition hexValue (c : ascii) : option nat :=
  let n := nat_of_ascii c in
  if ((48 <=? n) && (n <=? 57))%nat then Some (n - 48)%nat
  else if ((97 <=? n) && (n <=? 102))%nat then Some (n - 87)%nat
  else if ((65 <=? n) && (n <=? 70))%nat then Some (n - 55)%nat
  else None.

(** The character a two-character escape stands for. *)
Definition unescape (e : ascii) : option ascii :=
  let n := nat_of_ascii e in
  if (n =? 34)%nat then Some "034"%char
  else if (n =? 92)%nat then Some "\"%char
  else if (n =? 47)%nat then Some "/"%char
  else if (n =? 98)%nat then Some "008"%char
  else if (n =? 102)%nat then Some "012"%char
  else if (n =? 110)%nat then Some "010"%char
  else if (n =? 114)%nat then Some "013"%char
  else if (n =? 116)%nat then Some "009"%char
  else None.

Definition consTo (c : ascii) (r : option (string * string)) : option (string * string) :=
  match r with
  | Some (v, rest) => Some (String c v, rest)
  | None => None
  end.

(** The body of a string literal up to its closing quote, and what follows.
    A code unit above 255 written as [\uXXXX] is outside the model. *)
Fixpoint readStringBody (s : string) : option (string * string) :=
  match s with
  | EmptyString => None
  | String c r =>
      if Ascii.eqb c "034"%char then Some (EmptyString, r)
      else if Ascii.eqb c "\"%char then
        match r with
        | String e r1 =>
            if Ascii.eqb e "u"%char then
              match r1 with
              | String h1 (String h2 (String h3 (String h4 r2))) =>
                  match hexValue h1, hexValue h2, hexValue h3, hexValue h4 with
                  | Some a, Some b, Some c3, Some d =>
                      let n := (((a * 16 + b) * 16 + c3) * 16 + d)%nat in
                      if (n <? 256)%nat then consTo (ascii_of_nat n) (readStringBody r2)
                      else None
                  | _, _, _, _ => None
                  end
              | _ => None
              end
            else
              match unescape e with
              | Some ch => consTo ch (readStringBody r1)
              | None => None
              end
        | EmptyString => None
        end
      else if (nat_of_ascii c <? 32)%nat then None
      else consTo c (readStringBody r)
  end.

(** A string literal. *)
Definition readString (s : string) : option (string * string) :=
  match expect DQ s with
  | Some r => readStringBody r
  | None => None
  end.

(** [null] or a string literal. *)
Definition readNullable (s : string) : option (option string * string) :=
  match expect "null" s with
  | Some r => Some (None, r)
  | None =>
      match readString s with
      | Some (v, r) => Some (Some v, r)
      | None => None
      end
  end.

(** A task object with its five keys in creation order. *)
Definition readTask (s : string) : option (Task.t * string) :=
  match expect ("{" ++ DQ ++ "id" ++ DQ ++ ":") s with
  | None => None
  | Some s1 =>
  match readString s1 with
  | None => None
  | Some (vid, s2) =>
  match expect ("," ++ DQ ++ "title" ++ DQ ++ ":") s2 with
  | None => None
  | Some s3 =>
  match readString s3 with
  | None => None
  | Some (vtitle, s4) =>
  match expect ("," ++ DQ ++ "due" ++ DQ ++ ":") s4 with
  | None => None
  | Some s5 =>
  match readString s5 with
  | None => None
  | Some (vdue, s6) =>
  match expect ("," ++ DQ ++ "priority" ++ DQ ++ ":") s6 with
  | None => None
  | Some s7 =>
  match readString s7 with
  | None => None
  | Some (vpriority, s8) =>
  match expect ("," ++ DQ ++ "reminder" ++ DQ ++ ":") s8 with
  | None => None
  | Some s9 =>
  match readNullable s9 with
  | None => None
  | Some (vreminder, s10) =>
  match expect "}" s10 with
  | None => None
  | Some s11 => Some (Task.mk vid vtitle vdue vpriority vreminder, s11)
  end end end end end end end end end end end.

(** The tasks after the first one, up to the closing bracket; [fuel] bounds
    their number. *)
Fixpoint readMore (fuel : nat) (s : string) : option (list Task.t) :=
  match fuel with
  | O => None
  | S fuel' =>
      match s with
      | String c r =>
          if Ascii.eqb c "]"%char then
            match r with EmptyString => Some [] | _ => None end
          else if Ascii.eqb c ","%char then
            match readTask r with
            | Some (task, r') =>
                match readMore fuel' r' with
                | Some ts => Some (task :: ts)
                | None => None
                end
            | None => None
            end
          else None
      | EmptyString => None
      end
  end.

(** A whole stored text. *)
Definition readTasks (s : string) : option (list Task.t) :=
  match s with
  | String c r =>
      if Ascii.eqb c "["%char then
        match r with
        | String d EmptyString => if Ascii.eqb d "]"%char then Some [] else None
        | _ =>
            match readTask r with
            | Some (task, r') =>
                match readMore (S (String.length r')) r' with
                | Some ts => Some (task :: ts)
                | None => None
                end
            | None => None
            end
        end
      else None
  | EmptyString => None
  end.

(** [JSON.parse] restricted to the texts [stringify] writes: a text of any
    other shape is reported as outside the model. *)
Definition parse (s : string) : Parsed :=
  match readTasks s with
  | Some ts => Tasks ts
  | None => Unmodelled
  end.

End Json.

(** ** Vocabulary of the specification *)

(** *** Texts *)

(** A text that is empty or consists only of white space. *)
Fixpoint onlyWhiteSpace (s : string) : bool :=
  match s with
  | EmptyString => true
  | String c r => Js.isWhiteSpace c && onlyWhiteSpace r
  end.

(** The last character of [s], if any, is no white space. *)
Definition lastNonWhite (s : string) : Prop :=
  forall pre c, s = pre ++ String c "" -> Js.isWhiteSpace c = false.

(** A string of decimal digits. *)
Fixpoint allDigits (s : string) : bool :=
  match s with
  | EmptyString => true
  | String c r => Js.isDigit c && allDigits r
  end.

(** A numeral: the input [k] of the specification. *)
Definition numeral (ds : string) : bool := Js.truthy ds && allDigits ds.

(** The number a numeral denotes: what the decimal reader of the Standard
    Library makes of it, not the program's reader. *)
Definition numeralValue (ds : string) : Z :=
  match NilEmpty.uint_of_string ds with
  | Some u => Z.of_nat (Nat.of_uint u)
  | None => 0
  end.

(** The text does not go on with a digit. *)
Definition noDigitAhead (rest : string) : bool :=
  match rest with
  | EmptyString => true
  | String c _ => negb (Js.isDigit c)
  end.

(** The bounds test of the index-selection step (242, 415). *)
Definition outOfRange (index length : Z) : bool := (index <? 0) || (index >=? length).

(** An input that, white space aside, starts neither with a digit nor with
    [#] and a digit. *)
Definition nonNumeric (userInput : string) : bool :=
  match Js.trim userInput with
  | EmptyString => true
  | String c r =>
      negb (Js.isDigit c)
      && negb (Ascii.eqb c "#"%char
               && match r with String d _ => Js.isDigit d | EmptyString => false end)
  end.

(** Keywords are written with the letters a-z. *)
Fixpoint lowerLetters (s : string) : bool :=
  match s with
  | EmptyString => true
  | String k r => (97 <=? Js.code k) && (Js.code k <=? 122) && lowerLetters r
  end.

(** Letter [c] of an input against letter [k] of a lower-case keyword: the
    same letter, or its capital. *)
Definition sameLetter (c k : ascii) : bool :=
  Ascii.eqb c k
  || ((65 <=? Js.code c) && (Js.code c <=? 90) && (Js.code k =? Js.code c + 32)).

(** [s] starts with [keyword], letter case aside. *)
Fixpoint spells (keyword s : string) : bool :=
  match keyword, s with
  | EmptyString, _ => true
  | String k keyword', String c s' => sameLetter c k && spells keyword' s'
  | String _ _, EmptyString => false
  end.

(** Case-insensitive substring: [keyword] is spelled somewhere in [s]. *)
Fixpoint mentions (s keyword : string) : bool :=
  spells keyword s
  || match s with
     | EmptyString => false
     | String _ r => mentions r keyword
     end.

(** *** Sessions and turns *)

(** Idle: no intent, step counter at 0 (spec 4.6). *)
Definition Idle (s : State) : Prop := action s = idle /\ flowStep s = 0.

(** The session as [resetConversation] leaves it, cell by cell. *)
Definition FullyReset (s : State) : Prop :=
  action s = idle /\ flowStep s = 0
  /\ pendingTask s = defaultDraft
  /\ selectedTaskId s = None /\ pendingField s = None
  /\ buttons s = idleActions.

(** The bookkeeping every accepted submission starts with (515-516). *)
Definition logUser (randomUUID now : nat -> string) (text : string) : Update :=
  pushMessage randomUUID now user text ;; setInput "".

(** The messages appended by a turn are [added]. *)
Definition appended (s s' : State) (added : list (Role * string)) : Prop :=
  map (fun m => (Message.role m, Message.content m)) (messages s')
  = (map (fun m => (Message.role m, Message.content m)) (messages s) ++ added)%list.

(** A turn that ends a flow without touching the store. *)
Definition Dismissed (s s' : State) : Prop :=
  tasks s' = tasks s /\ Idle s' /\ FullyReset s'.

(** A handler leaves the intent alone or resets the session. *)
Definition KeepsOrResets (q q' : State) : Prop :=
  action q' = action q \/ FullyReset q'.

(** Whenever the intent is Idle, the session is fully reset. *)
Definition IdleIsReset (s : State) : Prop := action s = idle -> FullyReset s.

(** No button on screen carries a blank value. *)
Definition ButtonsSpeak (s : State) : Prop :=
  Forall (fun b => onlyWhiteSpace (QuickAction.value b) = false) (buttons s).

(** *** Choosing a task by its number (C1) *)

(** The index-selection step of the Update and Delete flows. *)
Definition atIndexSelection (s : State) : bool :=
  match action s with
  | update | delete => flowStep s =? 1
  | _ => false
  end.

(** A turn that only logs the submission and a prompt. *)
Definition Reprompted (text : string) (s s' : State) : Prop :=
  selectedTaskId s' = selectedTaskId s /\ flowStep s' = flowStep s
  /\ action s' = action s /\ tasks s' = tasks s
  /\ pendingTask s' = pendingTask s /\ pendingField s' = pendingField s
  /\ buttons s' = buttons s
  /\ exists prompt, appended s s' [(user, text); (assistant, prompt)].

(** A turn that selects the [k]-th task of the listing, counting from 1. *)
Definition Selected (k : Z) (s s' : State) : Prop :=
  exists task, nth_error (tasks s) (Z.to_nat (k - 1)) = Some task
    /\ selectedTaskId s' = Some (Task.id task) /\ flowStep s' = 2
    /\ action s' = action s /\ tasks s' = tasks s.

(** An input that starts with the numeral [ds]: white space or none, [#]
    or none, the numeral, then anything that does not go on with a digit. *)
Definition startsWithNumber (text ds : string) : Prop :=
  exists ws hash rest,
    onlyWhiteSpace ws = true /\ (hash = "" \/ hash = "#")
    /\ numeral ds = true /\ noDigitAhead rest = true
    /\ text = ws ++ hash ++ ds ++ rest.

(** What the index-selection step does with an input: one that starts with
    a numeral [k] selects the [k]-th task or, when [k] is out of range,
    re-prompts; one that does not start with a numeral re-prompts; there is
    no third kind of input. *)
Definition IndexSelection (randomUUID now : nat -> string) (s : State) : Prop :=
  (forall text ds,
      startsWithNumber text ds ->
      let k := numeralValue ds in
      let s' := handleSend randomUUID now (Some text) s in
      (1 <= k <= Z.of_nat (List.length (tasks s)) -> Selected k s s')
      /\ (~ (1 <= k <= Z.of_nat (List.length (tasks s))) -> Reprompted text s s'))
  /\ (forall text,
        Js.truthy text = true -> nonNumeric text = true ->
        Reprompted text s (handleSend randomUUID now (Some text) s))
  /\ (forall text, nonNumeric text = true \/ exists ds, startsWithNumber text ds).

(** C1 as the specification words it: every input other than [k] and [#k]
    with [k] between 1 and the number of tasks re-prompts. *)
Definition RepromptsEveryOtherInput (randomUUID now : nat -> string) (s : State) : Prop :=
  forall text,
    Js.truthy text = true ->
    (forall ds, numeral ds = true ->
                1 <= numeralValue ds <= Z.of_nat (List.length (tasks s)) ->
                text <> ds /\ text <> "#" ++ ds) ->
    Reprompted text s (handleSend randomUUID now (Some text) s).

(** *** Scenarios A and D (C2, C6) *)

(** Scenario A of the specification. *)
Definition scenarioA : list string :=
  ["add a task"; "Buy milk"; "tomorrow 9am"; "High"; "no"; "yes"].

(** The store has gained exactly [task], with some identifier. *)
Definition GainedOne (s s' : State) (title due priority : string)
    (reminder : option string) : Prop :=
  exists newId,
    tasks s' = (tasks s ++ [Task.mk newId title due priority reminder])%list.

(** Scenario D of the specification, from Idle. *)
Definition scenarioD : list string :=
  ["update"; "#1"; "priority"; "Medium"; "yes"].

(** The task with one field replaced. *)
Definition withPriority (task : Task.t) (p : string) : Task.t :=
  Task.mk (Task.id task) (Task.title task) (Task.due task) p (Task.reminder task).

(** C6 as the specification words it: on any store whose first task has
    priority Low. *)
Definition ScenarioDOnAnyStore (randomUUID now : nat -> string) : Prop :=
  forall s task rest,
    Idle s -> tasks s = task :: rest -> Task.priority task = "Low" ->
    tasks (converse randomUUID now scenarioD s) = withPriority task "Medium" :: rest.

(** *** A lost selection (C3) *)

(** The step of a flow that follows the choice of a task. *)
Definition afterSelection (s : State) : bool :=
  match action s with
  | update => (2 <=? flowStep s) && (flowStep s <=? 5)
  | delete => flowStep s =? 2
  | _ => false
  end.

(** No task of the store carries the selected identifier. *)
Definition selectionAbsent (s : State) : bool :=
  match selectedTaskId s with
  | None => true
  | Some sid => negb (existsb (fun task => String.eqb (Task.id task) sid) (tasks s))
  end.

(** The messages with which a flow gives up on a lost selection. *)
Definition recoveryMessages : list string :=
  [ "Let’s start over.";
    "I could not find that task. Let’s try again.";
    "Task not found, sorry.";
    "Looks like that task vanished.";
    "Task already gone." ].

(** A turn that gives up on the flow: one recovery message, the session
    reset, the store untouched. *)
Definition Aborted (text : string) (s s' : State) : Prop :=
  FullyReset s' /\ tasks s' = tasks s
  /\ exists apology, In apology recoveryMessages
                     /\ appended s s' [(user, text); (assistant, apology)].

(** The steps that test the selection for [null] (285, 344, 374, 434), and
    those that also look the task up in the store (290-295, 349-354). *)
Definition checksReference (s : State) : bool :=
  match action s with
  | update => (3 <=? flowStep s) && (flowStep s <=? 5)
  | delete => flowStep s =? 2
  | _ => false
  end.
Definition checksPresence (s : State) : bool :=
  match action s with
  | update => (flowStep s =? 3) || (flowStep s =? 4)
  | _ => false
  end.

(** C3 as the specification words it: at every step after the choice of a
    task, a lost selection aborts the flow. *)
Definition AbortsWheneverLost (randomUUID now : nat -> string) : Prop :=
  forall s text,
    afterSelection s = true -> selectionAbsent s = true -> Js.truthy text = true ->
    Aborted text s (handleSend randomUUID now (Some text) s).

(** What the code does about a lost selection. *)
Definition LostSelectionHandling (randomUUID now : nat -> string)
    (s : State) (text : string) : Prop :=
  let s' := handleSend randomUUID now (Some text) s in
  (checksReference s = true -> noSelection (selectedTaskId s) = true -> Aborted text s s')
  /\ (checksPresence s = true -> selectionAbsent s = true -> Aborted text s s')
  /\ (afterSelection s = true -> selectionAbsent s = true -> tasks s' = tasks s).

(** *** Final confirmations (C4) *)

(** The final confirmation step of a flow. *)
Definition atConfirmation (s : State) : bool :=
  match action s with
  | add => flowStep s =? 6
  | update => flowStep s =? 5
  | delete => flowStep s =? 2
  | _ => false
  end.

(** *** The router (C5) *)

(** The keyword groups of the router in their order of precedence
    (spec 4.1). *)
Definition intentOf (text : string) : option Action :=
  if mentions text "add" then Some add
  else if mentions text "update" then Some update
  else if mentions text "delete" || mentions text "remove" then Some delete
  else if mentions text "view" || mentions text "show" || mentions text "list" then Some view
  else None.

(** A flow started afresh: the session as a new render would see it once the
    intent is set, the step counter reset and the buttons cleared, running
    the flow's handler on the empty seed. *)
Definition startFlow (randomUUID now : nat -> string) (a : Action) (q : State) : State :=
  let r := (setAction a ;; setFlowStep 0 ;; setButtons []) q in
  match a with
  | idle => r
  | add => handleAddFlow randomUUID now r "" r
  | update => handleUpdateFlow randomUUID now r "" r
  | delete => handleDeleteFlow randomUUID now r "" r
  | view => handleViewFlow randomUUID now r r
  end.

(** The router's answer when no keyword is found (496). *)
Definition clarification : string :=
  "I can add, update, delete, or show tasks. Which one do you need?".

(** What the router does at Idle with the input [raw], logged as [logged]:
    the flow of the first keyword group found, started afresh in the same
    turn; or a clarification and the four top-level buttons. *)
Definition RoutedAs (randomUUID now : nat -> string) (s : State)
    (raw logged : string) (s' : State) : Prop :=
  match intentOf raw with
  | Some a => s' = startFlow randomUUID now a (logUser randomUUID now logged s)
  | None =>
      action s' = action s /\ flowStep s' = flowStep s /\ tasks s' = tasks s
      /\ buttons s' = idleActions
      /\ appended s s' [(user, logged); (assistant, clarification)]
  end.

(** Where a flow started afresh leaves the session. *)
Definition FlowOpened (a : Action) (q s' : State) : Prop :=
  tasks s' = tasks q
  /\ match a with
     | idle => True
     | add => action s' = add /\ flowStep s' = 1 /\ buttons s' = []
     | update | delete =>
         match tasks q with
         | [] => FullyReset s'
         | _ :: _ => action s' = a /\ flowStep s' = 1 /\ buttons s' = []
         end
     | view => FullyReset s'
     end.

(** *** The store invariant (C7) *)

(** The store invariant of the data model (spec 3). *)
Definition UniqueIds (ts : list Task.t) : Prop := NoDup (map Task.id ts).
Definition ValidPriorities (ts : list Task.t) : Prop :=
  Forall (fun task => In (Task.priority task) priorityOptions) ts.

(** The generator never repeats itself, and none of the identifiers it has
    yet to return is in the store. *)
Definition Injective (randomUUID : nat -> string) : Prop :=
  forall m n, randomUUID m = randomUUID n -> m = n.
Definition Fresh (randomUUID : nat -> string) (s : State) : Prop :=
  forall n, (draws s <= n)%nat -> ~ In (randomUUID n) (map Task.id (tasks s)).

(** A draft that cannot break the store: it sets no identifier, and its
    priority, if any, is one of the three. *)
Definition DraftValid (p : PartialTask.t) : Prop :=
  PartialTask.id p = None
  /\ match PartialTask.priority p with
     | Some v => In v priorityOptions
     | None => True
     end.

(** What a handler run on snapshot [r] can have queued for the store:
    nothing, one appended task built from the snapshot's draft, the draft
    merged into the tasks of one identifier, or the tasks of one identifier
    removed. *)
Inductive StoreEffect (randomUUID : nat -> string) (r q q' : State) : Prop :=
| store_kept :
    tasks q' = tasks q -> StoreEffect randomUUID r q q'
| store_added n :
    (draws q <= n < draws q')%nat ->
    tasks q' = (tasks r ++ [materialize (randomUUID n) (pendingTask r)])%list ->
    StoreEffect randomUUID r q q'
| store_merged sid :
    tasks q' = map (fun task => if String.eqb (Task.id task) sid
                                then spread task (pendingTask r) else task) (tasks q) ->
    StoreEffect randomUUID r q q'
| store_filtered sid :
    tasks q' = filter (fun task => negb (String.eqb (Task.id task) sid)) (tasks q) ->
    StoreEffect randomUUID r q q'.

(** The reach of a handler: the draw counter never goes back, the buttons
    stay non-blank, the draft stays valid, the store changes in one of the
    four ways above. *)
Definition Footprint (randomUUID : nat -> string) (r q q' : State) : Prop :=
  (draws q <= draws q')%nat
  /\ (ButtonsSpeak q -> ButtonsSpeak q')
  /\ (DraftValid (pendingTask q) -> DraftValid (pendingTask q'))
  /\ StoreEffect randomUUID r q q'.

(** The store invariant together with what keeps it: a generator that is
    still ahead of the store, and a valid draft. *)
Definition StoreInvariant (randomUUID : nat -> string) (s : State) : Prop :=
  UniqueIds (tasks s) /\ ValidPriorities (tasks s)
  /\ Fresh randomUUID s /\ DraftValid (pendingTask s).

(** C7 as the code has it: the invariant holds at the first render, every
    event keeps it, and rehydration installs the stored task array as it
    is -- with the invariant, when that array has distinct identifiers and
    valid priorities and the generator is ahead of it. *)
Definition StoreInvariantKept (randomUUID now : nat -> string) : Prop :=
  StoreInvariant randomUUID (initialState randomUUID now)
  /\ (forall e s, StoreInvariant randomUUID s ->
                  StoreInvariant randomUUID (react randomUUID now e s))
  /\ (forall JSON_stringify JSON_parse stored ts,
        Js.truthy stored = true -> JSON_parse stored = Tasks ts ->
        exists s' slot,
          mount randomUUID now JSON_stringify JSON_parse (Some stored) = Some (s', slot)
          /\ tasks s' = ts
          /\ (UniqueIds ts -> ValidPriorities ts ->
              (forall n, (2 <= n)%nat -> ~ In (randomUUID n) (map Task.id ts)) ->
              StoreInvariant randomUUID s')).

(** C7 as the specification words it, for the startup: whatever the slot
    holds, the rehydrated store has distinct identifiers and valid
    priorities. *)
Definition InvariantAfterRehydration (randomUUID now : nat -> string)
    (JSON_stringify : list Task.t -> string) (JSON_parse : string -> Parsed) : Prop :=
  forall stored s' slot,
    mount randomUUID now JSON_stringify JSON_parse stored = Some (s', slot) ->
    UniqueIds (tasks s') /\ ValidPriorities (tasks s').

(** *** Defaults at the save step (C8) *)

(** The field a blank draft should be given according to the
    specification: the placeholder when the draft is absent, empty or white
    space only, the draft value otherwise. *)
Definition fieldOrPlaceholder (draft : option string) (placeholder : string) : string :=
  match draft with
  | Some v => if onlyWhiteSpace v then placeholder else v
  | None => placeholder
  end.

(** The save step of the Add flow, answered by a yes. *)
Definition savingYes (s : State) (text : string) : bool :=
  match action s with
  | add => (flowStep s =? 6) && Js.truthy text && answerStartsWith text "y"
  | _ => false
  end.

(** C8 as the specification words it. *)
Definition PlaceholderWheneverBlank (randomUUID now : nat -> string) : Prop :=
  forall s text, savingYes s text = true ->
    exists task,
      tasks (handleSend randomUUID now (Some text) s) = (tasks s ++ [task])%list
      /\ Task.title task
         = fieldOrPlaceholder (PartialTask.title (pendingTask s)) "Untitled task"
      /\ Task.due task
         = fieldOrPlaceholder (PartialTask.due (pendingTask s)) "No due date".

(** What the save step makes of a draft field: the placeholder when the key
    is absent, the trimmed value when it is present. *)
Definition fieldOrDefault (draft : option string) (placeholder : string) : string :=
  match draft with
  | Some v => Js.trim v
  | None => placeholder
  end.

Definition MaterializedFields (randomUUID now : nat -> string)
    (s : State) (text : string) : Prop :=
  exists task,
    tasks (handleSend randomUUID now (Some text) s) = (tasks s ++ [task])%list
    /\ Task.title task = fieldOrDefault (PartialTask.title (pendingTask s)) "Untitled task"
    /\ Task.due task = fieldOrDefault (PartialTask.due (pendingTask s)) "No due date"
    /\ (forall entered, PartialTask.title (pendingTask s) = Some (Js.trim entered) ->
        Task.title task = Js.trim entered)
    /\ (forall entered, PartialTask.due (pendingTask s) = Some (Js.trim entered) ->
        Task.due task = Js.trim entered).

(** *** Blank submissions (C10) *)

(** What [handleSend] does with a blank text: the events of the page that
    submit one change nothing, nor does the empty string passed as the
    value; no button on screen carries a blank value; a value that is white
    space only, but not empty, is not trimmed (513): it is logged as the
    user's message and goes on to the router. *)
Definition BlankSubmission (randomUUID now : nat -> string) (s : State) : Prop :=
  (forall e text,
      enabled e s -> submitted e s = Some text -> onlyWhiteSpace text = true ->
      react randomUUID now e s = s)
  /\ handleSend randomUUID now (Some "") s = s
  /\ (forall b, In b (buttons s) -> onlyWhiteSpace (QuickAction.value b) = false)
  /\ (forall v,
        onlyWhiteSpace v = true -> v <> "" ->
        exists m answers,
          messages (handleSend randomUUID now (Some v) s)
          = (messages s ++ m :: answers)%list
          /\ Message.role m = user /\ Message.content m = v).

(** C10 as the specification words it: any blank value handed to the entry
    point is a no-op. *)
Definition BlankValueIsNoOp (randomUUID now : nat -> string) : Prop :=
  forall s v,
    Reachable randomUUID now s -> onlyWhiteSpace v = true ->
    handleSend randomUUID now (Some v) s = s.

(** *** Restart (C9) *)

(** What the persistence code needs of the platform codec: a written task
    array reads back as itself, and the written text is not empty. *)
Definition CodecLaw (JSON_stringify : list Task.t -> string)
    (JSON_parse : string -> Parsed) : Prop :=
  forall ts, JSON_parse (JSON_stringify ts) = Tasks ts /\ JSON_stringify ts <> "".

(** The tasks after the first, as [join] writes them. *)
Fixpoint writeMore (ts : list Task.t) : string :=
  match ts with
  | [] => ""
  | task :: r => "," ++ Json.stringifyTask task ++ writeMore r
  end.

(** C9: the stored text of a session, read by the next process, gives back
    the same task list, and the slot holds the same text again. *)
Definition RestartKeepsStore (randomUUID now : nat -> string)
    (JSON_stringify : list Task.t -> string) (JSON_parse : string -> Parsed)
    (s : State) : Prop :=
  let stored := persistEffect JSON_stringify s in
  exists s', mount randomUUID now JSON_stringify JSON_parse stored = Some (s', stored)
             /\ tasks s' = tasks s.

(** ** Vocabulary of the session properties *)

(** *** Reading a number, reading an answer *)

(** One line of the numbered listing (233, 406): the function [numberedList]
    maps over the tasks. *)
Definition listingLine (task : Task.t) (index : nat) : string :=
  "#" ++ numberToString (index + 1) ++ " " ++ Task.title task
  ++ " — Due: " ++ Task.due task
  ++ " — Priority: " ++ Task.priority task.

(** The label of the line at position [k] of a listing, counting from 0. *)
Definition labelOf (k : nat) : string := "#" ++ numberToString (k + 1).

(** The first character of the input that is no white space is the letter
    [k], small or capital. *)
Definition firstLetterIs (k : ascii) (text : string) : bool :=
  match Js.trimStart text with
  | EmptyString => false
  | String c _ => sameLetter c k
  end.

(** A small letter, a to z. *)
Definition lowerLetter (k : ascii) : bool := (97 <=? Js.code k) && (Js.code k <=? 122).

(** *** What a turn does *)

(** The text a call of [handleSend] works on (513). *)
Definition messageTextOf (value : option string) (s : State) : string :=
  match value with
  | Some v => v
  | None => Js.trim (input s)
  end.

(** The three ways a turn changes the store. *)
Definition StoreChange (s s' : State) : Prop :=
  match action s with
  | add => exists task, tasks s' = (tasks s ++ [task])%list
  | update =>
      exists sid, selectedTaskId s = Some sid
        /\ tasks s' = map (fun task => if String.eqb (Task.id task) sid
                                       then spread task (pendingTask s) else task)
                          (tasks s)
  | delete =>
      exists sid, selectedTaskId s = Some sid
        /\ tasks s' = filter (fun task => negb (String.eqb (Task.id task) sid)) (tasks s)
  | _ => False
  end.

(** The store after a final confirmation answered by a yes: the Add flow has
    appended the task made of the draft; the Update flow has merged the draft
    into the tasks that carry the selected identifier, the Delete flow has
    removed them, unless the selection is [null] or the empty string. *)
Definition StoreAfterYes (s s' : State) : Prop :=
  match action s, selectedTaskId s with
  | add, _ => exists uuid, tasks s' = (tasks s ++ [materialize uuid (pendingTask s)])%list
  | update, Some sid =>
      tasks s' = if Js.truthy sid
                 then map (fun task => if String.eqb (Task.id task) sid
                                       then spread task (pendingTask s) else task)
                          (tasks s)
                 else tasks s
  | delete, Some sid =>
      tasks s' = if Js.truthy sid
                 then filter (fun task => negb (String.eqb (Task.id task) sid)) (tasks s)
                 else tasks s
  | _, _ => tasks s' = tasks s
  end.

(** What the View flow answers (449-462). *)
Definition viewAnswer (ts : list Task.t) : list (Role * string) :=
  match ts with
  | [] => [(assistant, "You do not have any tasks yet. Ready to add one?")]
  | _ :: _ =>
      [(assistant, "Here is what is on your list:" ++ NL
                   ++ Js.join (NL ++ NL) (map viewBlock ts));
       (assistant, "Anything else I can help with? Add, update, delete, or view tasks.")]
  end.

(** The log of [x] is [base] followed by answers of the assistant. *)
Definition Answers (base : list Message.t) (x : State) : Prop :=
  exists added, messages x = (base ++ added)%list
                /\ Forall (fun m => Message.role m = assistant) added.

(** A turn leaves the state alone or logs the submitted text, then answers
    of the assistant, after the log as it was. *)
Definition LogExtended (text : string) (s s' : State) : Prop :=
  s' = s
  \/ exists m answers,
       messages s' = (messages s ++ m :: answers)%list
       /\ Message.role m = user /\ Message.content m = text
       /\ Forall (fun a => Message.role a = assistant) answers.

(** Every message of the log carries an identifier of its own, drawn from
    the generator before the current draw. *)
Definition LogIds (randomUUID : nat -> string) (x : State) : Prop :=
  NoDup (map Message.id (messages x))
  /\ forall m, In m (messages x) ->
               exists n, (n < draws x)%nat /\ Message.id m = randomUUID n.

(** The answers a step turns down, with the prompt it repeats: a priority
    that is none of the three (153-158, 298-303), a reminder answer that
    starts neither with y nor with n (169-186), a field name that is none of
    the four (260-265). *)
Definition turnedDown (s : State) (text : string) : option string :=
  match action s with
  | add =>
      if flowStep s =? 3 then
        match findPriority text with
        | None => Some "Please choose between High, Medium, or Low."
        | Some _ => None
        end
      else if flowStep s =? 4 then
        if answerStartsWith text "y" || answerStartsWith text "n" then None
        else Some "Please say yes or no for the reminder."
      else None
  | update =>
      if flowStep s =? 2 then
        if existsb (String.eqb (Js.toLowerCase (Js.trim text)))
             ["title"; "due"; "priority"; "reminder"]
        then None
        else Some "Please choose title, due, priority, or reminder."
      else if flowStep s =? 3 then
        match pendingField s, findPriority text with
        | Some k_priority, None =>
            if noSelection (selectedTaskId s) || selectionAbsent s then None
            else Some "Priority should be High, Medium, or Low."
        | _, _ => None
        end
      else None
  | _ => None
  end.

(** What a bubble reads as: its pieces in a row, a break read as a line
    feed. *)
Fixpoint shown (pieces : list Piece) : string :=
  match pieces with
  | [] => ""
  | Text line :: more => line ++ shown more
  | Break :: more => NL ++ shown more
  end.

(** *** The shape of a session *)

(** The button sets of the flows (160-163, 248-253, 271-274, 425-428). *)
Definition reminderAskButtons : list QuickAction.t :=
  [ QuickAction.mk "Yes, add reminder" "yes"; QuickAction.mk "No reminder" "no" ].
Definition fieldButtons : list QuickAction.t :=
  [ QuickAction.mk "Task name" "title"; QuickAction.mk "Due date & time" "due";
    QuickAction.mk "Priority" "priority"; QuickAction.mk "Reminder" "reminder" ].
Definition reminderEditButtons : list QuickAction.t :=
  [ QuickAction.mk "Update reminder" "update"; QuickAction.mk "Remove reminder" "remove" ].
Definition deleteButtons : list QuickAction.t :=
  [ QuickAction.mk "Yes, delete" "yes"; QuickAction.mk "No, keep it" "no" ].

(** The buttons each step of each flow shows; [None] where a session never
    is. *)
Definition expectedButtons (s : State) : option (list QuickAction.t) :=
  let step := flowStep s in
  match action s with
  | idle => if step =? 0 then Some idleActions else None
  | add =>
      if (step =? 1) || (step =? 2) || (step =? 5) then Some []
      else if step =? 3 then Some priorityButtons
      else if step =? 4 then Some reminderAskButtons
      else if step =? 6 then Some saveButtons
      else None
  | update =>
      if (step =? 1) then Some []
      else if step =? 2 then Some fieldButtons
      else if step =? 3 then
        match pendingField s with
        | Some k_priority => Some priorityButtons
        | Some k_reminder => Some reminderEditButtons
        | Some k_title | Some k_due => Some []
        | _ => None
        end
      else if step =? 4 then
        match pendingField s with
        | Some k_reminder => Some []
        | _ => None
        end
      else if step =? 5 then
        match pendingField s with
        | Some k_id | None => None
        | _ => Some saveButtons
        end
      else None
  | delete =>
      if step =? 1 then Some []
      else if step =? 2 then Some deleteButtons
      else None
  | view => None
  end.

(** A text as [handleSend] passes it on from the input box or from a button
    of a session: trimmed, not empty. *)
Definition plainText (text : string) : bool :=
  Js.truthy text && String.eqb (Js.trim text) text.

(** A draft field that has been entered: present, not empty, trimmed. *)
Definition entered (v : option string) : bool :=
  match v with
  | Some text => plainText text
  | None => false
  end.

(** From step 2 of the Add flow on the draft has a title, from step 3 on a
    due date. *)
Definition draftReady (s : State) : bool :=
  match action s with
  | add =>
      (if 2 <=? flowStep s then entered (PartialTask.title (pendingTask s)) else true)
      && (if 3 <=? flowStep s then entered (PartialTask.due (pendingTask s)) else true)
  | _ => true
  end.

(** After the choice of a task, the store holds a task with the selected
    identifier. *)
Definition selectionHeld (s : State) : bool :=
  if afterSelection s then negb (selectionAbsent s) else true.

(** The shape of a session state. *)
Definition SessionShape (s : State) : Prop :=
  expectedButtons s = Some (buttons s)
  /\ draftReady s = true
  /\ selectionHeld s = true.

(** *** Whole flows *)

(** A line that survives trimming. *)
Definition spoken (line : string) : bool := Js.truthy (Js.trim line).

(** The lines that answer the reminder question of the Add flow: a refusal,
    or an acceptance followed by the reminder time. *)
Definition reminderLines (reminder : option string) : list string :=
  match reminder with
  | None => ["no"]
  | Some time => ["yes"; time]
  end.

(** A whole Add conversation. *)
Definition addLines (opening title due priorityWord : string)
    (reminder : option string) : list string :=
  ([opening; title; due; priorityWord] ++ reminderLines reminder ++ ["yes"])%list.

(** The list without its [k]-th element, and with [f] applied to it. *)
Definition removeAt {A} (k : nat) (l : list A) : list A :=
  (firstn k l ++ skipn (S k) l)%list.
Definition changeAt {A} (k : nat) (f : A -> A) (l : list A) : list A :=
  match nth_error l k with
  | Some x => (firstn k l ++ f x :: skipn (S k) l)%list
  | None => l
  end.

(** An edit a user can ask the Update flow for. *)
Inductive Edit :=
| EditTitle (v : string)
| EditDue (v : string)
| EditPriority (p : string)
| EditReminder (time : option string).

(** The lines that ask for it: the field, then the value. *)
Definition editLines (e : Edit) : list string :=
  match e with
  | EditTitle v => ["title"; v]
  | EditDue v => ["due"; v]
  | EditPriority p => ["priority"; p]
  | EditReminder None => ["reminder"; "remove"]
  | EditReminder (Some time) => ["reminder"; "update"; time]
  end.

(** Values that are not blank; a priority among the three. *)
Definition editValid (e : Edit) : bool :=
  match e with
  | EditTitle v | EditDue v => spoken v
  | EditPriority p => existsb (String.eqb p) priorityOptions
  | EditReminder None => true
  | EditReminder (Some time) => spoken time
  end.

(** The task it asks for. *)
Definition applyEdit (e : Edit) (task : Task.t) : Task.t :=
  match e with
  | EditTitle v =>
      Task.mk (Task.id task) (Js.trim v) (Task.due task) (Task.priority task)
        (Task.reminder task)
  | EditDue v =>
      Task.mk (Task.id task) (Task.title task) (Js.trim v) (Task.priority task)
        (Task.reminder task)
  | EditPriority p =>
      Task.mk (Task.id task) (Task.title task) (Task.due task) p (Task.reminder task)
  | EditReminder time =>
      Task.mk (Task.id task) (Task.title task) (Task.due task) (Task.priority task)
        (option_map Js.trim time)
  end.

(** The first two lines of an edit: the field, and the answer to the first
    question about it. *)
Definition editOpening (e : Edit) : list string := firstn 2 (editLines e).

(** The draft the Update flow holds for it at the save step. *)
Definition draftOf (e : Edit) : PartialTask.t :=
  match e with
  | EditTitle v => PartialTask.withTitle PartialTask.empty (Js.trim v)
  | EditDue v => PartialTask.withDue PartialTask.empty (Js.trim v)
  | EditPriority p => PartialTask.withPriority PartialTask.empty p
  | EditReminder time => PartialTask.withReminder PartialTask.empty (option_map Js.trim time)
  end.

(** *** Startup *)

(** A slot the load effect makes nothing of: absent, empty, or holding a
    text that does not parse or is no array. *)
Definition unreadable (JSON_parse : string -> Parsed) (stored : option string) : Prop :=
  match stored with
  | None => True
  | Some text =>
      Js.truthy text = false \/ JSON_parse text = Throws \/ JSON_parse text = NonArray
  end.

(** ** Sample sessions *)

Definition sampleStart : State := initialState sampleUUID sampleNow.

(** One task in the store, back at Idle. *)
Definition sampleOneTask : State :=
  converse sampleUUID sampleNow
    ["add a task"; "Buy milk"; "tomorrow 9am"; "Low"; "no"; "yes"] sampleStart.

(** Two tasks in the store. *)
Definition sampleTwoTasks : State :=
  converse sampleUUID sampleNow
    ["Add Task"; "Call Ana"; "Friday"; "high"; "yes"; "Thursday 6pm"; "y"] sampleOneTask.

(** At the save step of the Add flow. *)
Definition sampleAtSave : State :=
  converse sampleUUID sampleNow
    ["add a task"; "Buy milk"; "tomorrow 9am"; "High"; "no"] sampleStart.

(** At the index-selection step of the Update flow, two tasks listed. *)
Definition sampleChoosing : State :=
  converse sampleUUID sampleNow ["update"] sampleTwoTasks.

(** The Update flow at its field-choice step, its preview step and its save
    step, with the selection gone. *)
Definition sampleLostAtField : State :=
  setSelectedTaskId None (converse sampleUUID sampleNow ["update"; "1"] sampleOneTask).
Definition sampleLostAtValue : State :=
  setSelectedTaskId (Some "gone")
    (converse sampleUUID sampleNow ["update"; "1"; "title"] sampleOneTask).
Definition sampleLostAtSave : State :=
  setSelectedTaskId (Some "gone")
    (converse sampleUUID sampleNow ["update"; "1"; "title"; "Buy oat milk"] sampleOneTask).

(** The store of scenario D: one task with priority Low, at Idle. *)
Definition sampleLowTask : State := sampleOneTask.

(** The save step with a draft whose title is the empty string. *)
Definition sampleBlankDraft : State :=
  setPendingTask (PartialTask.mk None (Some "") (Some "tomorrow 9am") (Some "High") (Some None))
    sampleAtSave.

(** A store as a stored text can install it: one task, priority Low, whose
    identifier is the empty string. *)
Definition sampleUnnamedTask : State :=
  setTasks [Task.mk "" "Buy milk" "tomorrow 9am" "Low" None] sampleStart.

(** The Add flow waiting for the title. *)
Definition sampleAtTitle : State := converse sampleUUID sampleNow ["add"] sampleStart.

(** A stored array with a repeated identifier and an unknown priority. *)
Definition sampleClashingTasks : list Task.t :=
  [ Task.mk "a" "Buy milk" "tomorrow 9am" "Urgent" None;
    Task.mk "a" "Call Ana" "Friday" "High" (Some "Thursday 6pm") ].

(** ** Proof tools *)

(** The 256 values of a code unit. *)
Ltac each_char c :=
  destruct c as [[|] [|] [|] [|] [|] [|] [|] [|]].

(** The cells of a state, by name. *)
Ltac open_state s :=
  destruct s as [ms inp ts act stp draft sel fld btns dr]; simpl in *.

(** Every branch of a handler. *)
Ltac flow_cases :=
  repeat match goal with
         | |- context [if ?c then _ else _] => destruct c eqn:?
         | |- context [match ?x with _ => _ end] => destruct x eqn:?
         end.

(** One branch of a handler against [Footprint]; [valid] is the fact that
    [findPriority] answers with one of the three priorities. *)
Ltac footprint_case_by valid :=
  split; [cbn; lia|];
  split; [unfold ButtonsSpeak; cbn; intros; first [assumption | repeat constructor]|];
  split; [unfold DraftValid; cbn; intros [? ?]; split;
          first [assumption | reflexivity | exact I
                | eapply valid; eassumption | cbn; tauto]|];
  first [ apply store_kept; reflexivity
        | eapply store_added; [|reflexivity]; cbn; lia
        | eapply store_merged; reflexivity
        | eapply store_filtered; reflexivity ].

(** A turn that ends in [Aborted]; [logged] is the fact that the turn logged
    the submission and one answer. *)
Ltac aborted_by logged :=
  split; [vm_compute; repeat split
         | split; [vm_compute; reflexivity
                  | eexists; split;
                    [| eapply logged; [exact skip | vm_compute; reflexivity]];
                    simpl; tauto]].

(** One branch of a handler against [KeepsOrResets]. *)
Ltac keeps_or_resets := first [left; reflexivity | right; repeat split].

(** The values of the step counter a hypothesis tests for. *)
Ltac step_values H :=
  repeat match type of H with
         | context [?z =? ?n] =>
             let E := fresh "E" in
             destruct (z =? n) eqn:E;
             [apply Z.eqb_eq in E; subst z | ]
         end.

(** Every outcome of the string comparisons of the goal. *)
Ltac eqb_cases :=
  repeat match goal with
         | |- context [String.eqb ?a ?b] =>
             let x := fresh "x" in
             set (x := String.eqb a b) in *; clearbody x; destruct x
         end.

(** [SessionShape], cell by cell. *)
Ltac shape_out :=
  unfold SessionShape, expectedButtons, draftReady, selectionHeld, afterSelection,
    selectionAbsent.

(** The length of the log after the queued writes. *)
Ltac count_log := simpl; rewrite ?length_app; simpl; lia.

(** The branch the bounds test of the index-selection step rules out. *)
Ltac within_bounds :=
  exfalso;
  match goal with
  | Hn : nth_error _ _ = None, Hb : (_ <? 0) || (_ >=? _) = false |- _ =>
      apply nth_error_None in Hn; apply orb_false_elim in Hb as [? Hb];
      rewrite Z.geb_leb in Hb; apply Z.leb_gt in Hb; lia
  end.

(** * Properties *)

(** ** Sample evaluations *)

Example parseIndex_hash : parseIndex "#12" = Some 11.
Proof. reflexivity. Qed.
Example parseIndex_padded : parseIndex "  3 please " = Some 2.
Proof. reflexivity. Qed.
Example parseIndex_word : parseIndex "first" = None.
Proof. reflexivity. Qed.
Example parseIndex_minus : parseIndex "-1" = None.
Proof. reflexivity. Qed.
Example trim_both : Js.trim "  a b  " = "a b".
Proof. reflexivity. Qed.

(** ** Facts about the string primitives *)

Lemma digit_not_white c : Js.isDigit c = true -> Js.isWhiteSpace c = false.
Proof. each_char c; vm_compute; congruence. Qed.

Lemma trimStart_white s : onlyWhiteSpace s = true -> Js.trimStart s = "".
Proof.
  induction s as [|c r IH]; simpl; [reflexivity|].
  intros H. apply andb_prop in H as [Hc Hr]. rewrite Hc. auto.
Qed.

Lemma trim_white s : onlyWhiteSpace s = true -> Js.trim s = "".
Proof. intros H. unfold Js.trim. now rewrite trimStart_white. Qed.

Lemma trimStart_head s :
  match Js.trimStart s with
  | EmptyString => onlyWhiteSpace s = true
  | String c _ => Js.isWhiteSpace c = false
  end.
Proof.
  induction s as [|c r IH]; simpl; [reflexivity|].
  destruct (Js.isWhiteSpace c) eqn:Hc; simpl; [exact IH | exact Hc].
Qed.

Lemma trimEnd_empty s : Js.trimEnd s = "" -> onlyWhiteSpace s = true.
Proof.
  induction s as [|c r IH]; simpl; [reflexivity|].
  destruct (Js.trimEnd r) eqn:Hr.
  - destruct (Js.isWhiteSpace c); [intros _; simpl; auto | discriminate].
  - discriminate.
Qed.

(** A text is blank exactly when trimming leaves nothing. *)
Lemma trim_empty_iff s : Js.trim s = "" <-> onlyWhiteSpace s = true.
Proof.
  split; [|apply trim_white].
  unfold Js.trim. intros H.
  pose proof (trimStart_head s) as Hh.
  destruct (Js.trimStart s) as [|c r] eqn:Hs; [exact Hh|].
  apply trimEnd_empty in H. simpl in H. rewrite Hh in H. discriminate.
Qed.

Lemma trimEnd_keep s :
  s <> "" -> lastNonWhite s -> Js.trimEnd s = s.
Proof.
  induction s as [|c r IH]; [congruence|].
  intros _ Hlast. simpl.
  destruct r as [|d r'].
  - simpl. rewrite (Hlast "" c eq_refl). reflexivity.
  - rewrite IH.
    + reflexivity.
    + discriminate.
    + intros pre x Hx. apply (Hlast (String c pre) x). simpl. now rewrite Hx.
Qed.

Lemma allDigits_last ds : allDigits ds = true -> lastNonWhite ds.
Proof.
  induction ds as [|c r IH]; intros Hd pre x Hx.
  - destruct pre; discriminate.
  - simpl in Hd. apply andb_prop in Hd as [Hc Hr].
    destruct pre as [|p pre']; simpl in Hx.
    + injection Hx as -> _. now apply digit_not_white.
    + injection Hx as _ Hx. exact (IH Hr pre' x Hx).
Qed.

Lemma trim_numeral ds : numeral ds = true -> Js.trim ds = ds.
Proof.
  unfold numeral. intros H. apply andb_prop in H as [Hne Hd].
  destruct ds as [|c r]; [discriminate|].
  unfold Js.trim.
  assert (Hc : Js.isWhiteSpace c = false).
  { simpl in Hd. apply andb_prop in Hd as [Hc _]. now apply digit_not_white. }
  simpl Js.trimStart. rewrite Hc.
  apply trimEnd_keep; [discriminate | now apply allDigits_last].
Qed.

Lemma trim_hash_numeral ds :
  numeral ds = true -> Js.trim (String "#"%char ds) = String "#"%char ds.
Proof.
  unfold numeral. intros H. apply andb_prop in H as [Hne Hd].
  unfold Js.trim. simpl Js.trimStart.
  apply trimEnd_keep; [discriminate|].
  intros pre x Hx. destruct pre as [|p pre']; simpl in Hx.
  - injection Hx as _ Hx. subst ds. discriminate.
  - injection Hx as _ Hx. exact (allDigits_last ds Hd pre' x Hx).
Qed.

Lemma takeDigits_all ds : allDigits ds = true -> Js.takeDigits ds = ds.
Proof.
  induction ds as [|c r IH]; simpl; [reflexivity|].
  intros H. apply andb_prop in H as [Hc Hr]. rewrite Hc, IH by assumption. reflexivity.
Qed.

Lemma digitsValue_uint d : forall acc : nat,
  Js.digitsValue (Z.of_nat acc) (NilEmpty.string_of_uint d)
  = Z.of_nat (Nat.of_uint_acc d acc).
Proof.
  induction d; intros acc;
    cbn [NilEmpty.string_of_uint Js.digitsValue Nat.of_uint_acc]; [reflexivity|..];
    rewrite <- IHd; f_equal; rewrite Nat.tail_mul_spec;
    match goal with
    | |- context [Js.code ?c] =>
        let v := eval vm_compute in (Js.code c) in change (Js.code c) with v
    end; lia.
Qed.

Lemma allDigits_uint d : allDigits (NilEmpty.string_of_uint d) = true.
Proof. induction d; simpl; auto. Qed.

(** The program's reader and the Standard Library's agree on digit
    strings. *)
Lemma digits_read ds :
  allDigits ds = true -> exists u, NilEmpty.uint_of_string ds = Some u.
Proof.
  induction ds as [|c r IH]; simpl; [eauto|].
  intros H. apply andb_prop in H as [Hc Hr]. destruct (IH Hr) as (u & ->).
  each_char c; try discriminate Hc; simpl; eauto.
Qed.

Lemma digitsValue_numeral ds :
  allDigits ds = true -> Js.digitsValue 0 ds = numeralValue ds.
Proof.
  intros H. unfold numeralValue. destruct (digits_read ds H) as (u & E). rewrite E.
  apply NilEmpty.sus in E. rewrite <- E.
  exact (digitsValue_uint u 0%nat).
Qed.

(** [Number.parseInt] returns a double.  Below 2^53 it is the integer the
    digits denote; from 2^53 on it stays above every array length, and so
    does the index computed from it. *)
Lemma toDouble_exact n : n < 2 ^ 53 -> Js.toDouble n = Some n.
Proof. intros H. unfold Js.toDouble. apply Z.ltb_lt in H. now rewrite H. Qed.

Lemma toDouble_large n :
  2 ^ 53 <= n ->
  match Js.toDouble n with
  | Some d => 2 ^ 53 <= d
  | None => True
  end.
Proof.
  intros H. unfold Js.toDouble.
  destruct (Z.ltb_spec n (2 ^ 53)); [lia|].
  set (e := Z.log2 n - 52).
  assert (Hl : 53 <= Z.log2 n) by (apply Z.log2_le_pow2; lia).
  assert (He : 1 <= e) by (unfold e; lia).
  assert (Hp : 0 < 2 ^ e) by (apply Z.pow_pos_nonneg; lia).
  assert (Hn : 2 ^ 52 * 2 ^ e <= n).
  { rewrite <- Z.pow_add_r by lia. replace (52 + e) with (Z.log2 n) by (unfold e; lia).
    apply Z.log2_spec. lia. }
  assert (Hq : 2 ^ 52 <= n / 2 ^ e) by (apply Z.div_le_lower_bound; lia).
  assert (H2 : 2 <= 2 ^ e).
  { change 2 with (2 ^ 1) at 1. apply Z.pow_le_mono_r; lia. }
  set (q := n / 2 ^ e) in *.
  match goal with
  | |- context [if ?c then q + 1 else q] => set (q' := if c then q + 1 else q)
  end.
  assert (Hq' : q <= q').
  { unfold q'. match goal with |- context [if ?c then _ else _] => destruct c end; lia. }
  destruct (2 ^ 1024 <=? q' * 2 ^ e); [exact I|].
  change (2 ^ 53) with (2 ^ 52 * 2). nia.
Qed.

(** For an array of fewer than 2^32 elements, the bounds test on the index
    as a Number gives what it gives on the integer, and an index that passes
    it is that integer. *)
Lemma rounding_unobserved v length :
  0 <= v -> 0 <= length < 2 ^ 32 ->
  match doubleIndex v with
  | Some index =>
      outOfRange index length = outOfRange (v - 1) length
      /\ (outOfRange (v - 1) length = false -> index = v - 1)
  | None => outOfRange (v - 1) length = true
  end.
Proof.
  intros Hv Hl. unfold doubleIndex.
  assert (Hbig : forall i, 2 ^ 53 - 1 <= i -> outOfRange i length = true).
  { intros i Hi. unfold outOfRange. apply orb_true_iff. right.
    rewrite Z.geb_leb. apply Z.leb_le.
    assert (2 ^ 32 < 2 ^ 53 - 1) by reflexivity. lia. }
  destruct (Z.lt_ge_cases v (2 ^ 53)) as [Hs | Hs].
  - rewrite (toDouble_exact v Hs), (toDouble_exact (v - 1)) by lia. auto.
  - pose proof (toDouble_large v Hs) as H.
    destruct (Js.toDouble v) as [d|]; [|apply Hbig; lia].
    assert (Hi : match Js.toDouble (d - 1) with
                 | Some i => 2 ^ 53 - 1 <= i
                 | None => True
                 end).
    { destruct (Z.lt_ge_cases (d - 1) (2 ^ 53)) as [Hd | Hd].
      - rewrite (toDouble_exact _ Hd). lia.
      - pose proof (toDouble_large _ Hd) as H'.
        destruct (Js.toDouble (d - 1)); [lia | exact I]. }
    destruct (Js.toDouble (d - 1)) as [i|]; [|apply Hbig; lia].
    rewrite (Hbig i Hi), (Hbig (v - 1)) by lia. split; [reflexivity | discriminate].
Qed.

Example toDouble_tie : Js.toDouble 9007199254740993 = Some 9007199254740992.
Proof. vm_compute. reflexivity. Qed.

Example doubleIndex_tie : doubleIndex 9007199254740993 = Some 9007199254740991.
Proof. vm_compute. reflexivity. Qed.

Example toDouble_overflow : Js.toDouble (10 ^ 400) = None.
Proof. vm_compute. reflexivity. Qed.

(** [parseIndex] on a numeral, with or without the leading [#]. *)
Lemma parseIndex_numeral ds :
  numeral ds = true -> parseIndex ds = Some (numeralValue ds - 1).
Proof.
  intros H. unfold parseIndex. rewrite (trim_numeral ds H).
  unfold numeral in H. apply andb_prop in H as [Hne Hd].
  destruct ds as [|c r]; [discriminate|].
  assert (Hc : Js.isDigit c = true) by (simpl in Hd; now apply andb_prop in Hd as [? _]).
  assert (Hc' : c <> "#"%char) by (intros ->; discriminate).
  unfold Js.matchIndex.
  replace (match String c r with String "#"%char r0 => r0 | _ => String c r end)
    with (String c r).
  2:{ each_char c; try reflexivity. now elim Hc'. }
  rewrite (takeDigits_all _ Hd). unfold Js.parseInt.
  rewrite (takeDigits_all _ Hd), (digitsValue_numeral _ Hd). reflexivity.
Qed.

Lemma parseIndex_hash_numeral ds :
  numeral ds = true -> parseIndex (String "#"%char ds) = Some (numeralValue ds - 1).
Proof.
  intros H. unfold parseIndex. rewrite (trim_hash_numeral ds H).
  unfold numeral in H. apply andb_prop in H as [Hne Hd].
  unfold Js.matchIndex. rewrite (takeDigits_all _ Hd).
  destruct ds as [|c r]; [discriminate|].
  unfold Js.parseInt. rewrite (takeDigits_all _ Hd), (digitsValue_numeral _ Hd).
  reflexivity.
Qed.

(** [parseIndex] fails exactly on the non-numeric inputs. *)
Lemma parseIndex_none_iff userInput :
  parseIndex userInput = None <-> nonNumeric userInput = true.
Proof.
  unfold parseIndex, nonNumeric, Js.matchIndex, Js.parseInt.
  destruct (Js.trim userInput) as [|c r]; [simpl; tauto|].
  destruct (Ascii.eqb c "#"%char) eqn:Hh.
  - apply Ascii.eqb_eq in Hh. subst c. simpl.
    destruct r as [|d r']; simpl; [tauto|].
    destruct (Js.isDigit d) eqn:Hd; simpl.
    + rewrite Hd. simpl. split; discriminate.
    + tauto.
  - replace (match String c r with String "#"%char r0 => r0 | _ => String c r end)
      with (String c r).
    2:{ each_char c; try reflexivity. discriminate. }
    simpl. destruct (Js.isDigit c) eqn:Hc; simpl.
    + rewrite Hc. simpl. split; discriminate.
    + tauto.
Qed.

Lemma trimEnd_cons c y :
  Js.isWhiteSpace c = false -> Js.trimEnd (String c y) = String c (Js.trimEnd y).
Proof. intros Hc. simpl. destruct (Js.trimEnd y); [now rewrite Hc | reflexivity]. Qed.

Lemma takeDigits_trimEnd x : Js.takeDigits (Js.trimEnd x) = Js.takeDigits x.
Proof.
  induction x as [|c r IH]; [reflexivity|].
  destruct (Js.isDigit c) eqn:Hd.
  - rewrite trimEnd_cons by now apply digit_not_white.
    simpl. now rewrite Hd, IH.
  - simpl. rewrite Hd. destruct (Js.trimEnd r).
    + destruct (Js.isWhiteSpace c); simpl; [reflexivity | now rewrite Hd].
    + simpl. now rewrite Hd.
Qed.

Lemma takeDigits_front ds rest :
  allDigits ds = true -> noDigitAhead rest = true ->
  Js.takeDigits (ds ++ rest) = ds.
Proof.
  intros Hd Hr. induction ds as [|c r IH]; simpl.
  - destruct rest as [|c r]; [reflexivity|]. simpl in *.
    apply negb_true_iff in Hr. now rewrite Hr.
  - simpl in Hd. apply andb_prop in Hd as [Hc Hd]. now rewrite Hc, IH.
Qed.

Lemma trimStart_app ws x :
  onlyWhiteSpace ws = true -> Js.trimStart (ws ++ x) = Js.trimStart x.
Proof.
  induction ws as [|c r IH]; simpl; [reflexivity|].
  intros H. apply andb_prop in H as [Hc Hr]. now rewrite Hc, IH.
Qed.

Lemma matchIndex_trimEnd x : Js.matchIndex (Js.trimEnd x) = Js.matchIndex x.
Proof.
  destruct x as [|c r]; [reflexivity|].
  destruct (Ascii.eqb c "#"%char) eqn:Hh.
  - apply Ascii.eqb_eq in Hh. subst c.
    rewrite trimEnd_cons by reflexivity.
    unfold Js.matchIndex. now rewrite takeDigits_trimEnd.
  - assert (E : forall y, Js.matchIndex (String c y)
                          = match Js.takeDigits (String c y) with
                            | EmptyString => None
                            | ds => Some ds
                            end).
    { intros y. unfold Js.matchIndex.
      replace (match String c y with String "#"%char r0 => r0 | _ => String c y end)
        with (String c y); [reflexivity|].
      each_char c; try reflexivity. discriminate Hh. }
    assert (T : forall y, Js.takeDigits (String c y)
                          = if Js.isDigit c then String c (Js.takeDigits y) else "")
      by reflexivity.
    destruct (Js.isWhiteSpace c) eqn:Hc.
    + assert (Hd : Js.isDigit c = false).
      { destruct (Js.isDigit c) eqn:Hd; [|reflexivity].
        apply digit_not_white in Hd. congruence. }
      rewrite (E r), T, Hd. simpl Js.trimEnd.
      destruct (Js.trimEnd r); [rewrite Hc; reflexivity|].
      now rewrite E, T, Hd.
    + rewrite trimEnd_cons by exact Hc. rewrite !E, !T.
      now rewrite takeDigits_trimEnd.
Qed.

Lemma matchIndex_hash y :
  Js.matchIndex (String "#"%char y)
  = match Js.takeDigits y with
    | EmptyString => None
    | m => Some m
    end.
Proof. reflexivity. Qed.

Lemma parseInt_numeral ds : numeral ds = true -> Js.parseInt ds = Some (numeralValue ds).
Proof.
  unfold numeral. intros H. apply andb_prop in H as [Hne Hd].
  unfold Js.parseInt. rewrite (takeDigits_all _ Hd), <- (digitsValue_numeral _ Hd).
  destruct ds; [discriminate | reflexivity].
Qed.

Lemma parseIndex_front ws ds rest :
  onlyWhiteSpace ws = true -> numeral ds = true -> noDigitAhead rest = true ->
  parseIndex (ws ++ ds ++ rest) = Some (numeralValue ds - 1)
  /\ parseIndex (ws ++ "#" ++ ds ++ rest) = Some (numeralValue ds - 1).
Proof.
  intros Hws Hds Hrest.
  pose proof Hds as Hn. unfold numeral in Hn. apply andb_prop in Hn as [Hne Hd].
  destruct ds as [|c r]; [discriminate|].
  assert (Hc : Js.isDigit c = true) by (simpl in Hd; now apply andb_prop in Hd as [? _]).
  assert (Hw : Js.isWhiteSpace c = false) by now apply digit_not_white.
  assert (Hs : Js.trimStart (String c r ++ rest) = String c r ++ rest)
    by (simpl; now rewrite Hw).
  assert (Hm : forall y, Js.matchIndex (String c y)
                         = match Js.takeDigits (String c y) with
                           | EmptyString => None
                           | m => Some m
                           end).
  { intros y. unfold Js.matchIndex.
    replace (match String c y with String "#"%char r0 => r0 | _ => String c y end)
      with (String c y); [reflexivity|].
    each_char c; try reflexivity; discriminate Hc. }
  unfold parseIndex, Js.trim. rewrite !matchIndex_trimEnd, !trimStart_app by exact Hws.
  split.
  - rewrite Hs. change (String c r ++ rest) with (String c (r ++ rest)).
    rewrite Hm. change (String c (r ++ rest)) with (String c r ++ rest).
    rewrite (takeDigits_front _ _ Hd Hrest), (parseInt_numeral _ Hds).
    reflexivity.
  - rewrite trimStart_app by exact Hws.
    change (Js.trimStart ("#" ++ String c r ++ rest))
      with (String "#"%char (String c r ++ rest)).
    rewrite matchIndex_hash.
    rewrite (takeDigits_front _ _ Hd Hrest), (parseInt_numeral _ Hds).
    reflexivity.
Qed.

Lemma trim_head text :
  match Js.trimStart text with
  | EmptyString => Js.trim text = ""
  | String c _ => exists r, Js.trim text = String c r
  end.
Proof.
  unfold Js.trim. pose proof (trimStart_head text) as H.
  destruct (Js.trimStart text) as [|c r]; [reflexivity|].
  rewrite trimEnd_cons by exact H. eauto.
Qed.

(** Every input starts with a numeral or is non-numeric. *)
Lemma truthy_app a b : Js.truthy b = true -> Js.truthy (a ++ b) = true.
Proof. destruct a; simpl; auto. Qed.

Lemma trimStart_split s :
  exists ws, onlyWhiteSpace ws = true /\ s = ws ++ Js.trimStart s.
Proof.
  induction s as [|c r (ws & Hws & E)]; [exists ""; split; reflexivity|].
  simpl. destruct (Js.isWhiteSpace c) eqn:Hc.
  - exists (String c ws). simpl. rewrite Hc, Hws. split; [reflexivity | now rewrite <- E].
  - exists "". split; reflexivity.
Qed.

Lemma digits_split s :
  exists ds rest, s = ds ++ rest /\ allDigits ds = true /\ noDigitAhead rest = true
                  /\ ds = Js.takeDigits s.
Proof.
  induction s as [|c r (ds & rest & E & Hd & Hr & Ht)].
  - exists "", "". repeat split.
  - simpl. destruct (Js.isDigit c) eqn:Hc.
    + exists (String c ds), rest. simpl. rewrite Hc, Hd, <- E, <- Ht.
      repeat split; assumption.
    + exists "", (String c r). simpl. rewrite Hc. repeat split.
Qed.

Lemma trimEnd_first s d x : Js.trimEnd s = String d x -> exists y, s = String d y.
Proof.
  destruct s as [|c r]; simpl; [discriminate|].
  destruct (Js.trimEnd r); [destruct (Js.isWhiteSpace c)|]; intros H;
    try discriminate H; injection H as -> _; eauto.
Qed.

Lemma starts_with_number_or_not text :
  nonNumeric text = true \/ exists ds, startsWithNumber text ds.
Proof.
  destruct (nonNumeric text) eqn:Hn; [now left | right].
  unfold nonNumeric in Hn.
  destruct (trimStart_split text) as (ws & Hws & E).
  pose proof (trim_head text) as Hh.
  destruct (Js.trimStart text) as [|c r] eqn:Hs.
  - rewrite Hh in Hn. discriminate Hn.
  - destruct Hh as (r' & Ht). rewrite Ht in Hn.
    destruct (Js.isDigit c) eqn:Hc.
    + destruct (digits_split (String c r)) as (ds & rest & Ed & Hd & Hr & Htk).
      exists ds, ws, "", rest. simpl in Htk. rewrite Hc in Htk.
      repeat split; auto.
      * unfold numeral. rewrite Hd, Htk. reflexivity.
      * simpl. now rewrite <- Ed.
    + simpl in Hn. apply negb_false_iff in Hn. apply andb_prop in Hn as [Hh' Hd'].
      apply Ascii.eqb_eq in Hh'. subst c.
      destruct r' as [|d x]; [discriminate Hd'|].
      assert (Hr : exists y, r = String d y).
      { unfold Js.trim in Ht. rewrite Hs in Ht.
        rewrite trimEnd_cons in Ht by reflexivity. injection Ht as Ht.
        now apply trimEnd_first in Ht. }
      destruct Hr as (y & ->).
      destruct (digits_split (String d y)) as (ds & rest & Ed & Hd & Hr & Htk).
      exists ds, ws, "#", rest. simpl in Htk. rewrite Hd' in Htk.
      repeat split; auto.
      * unfold numeral. rewrite Hd, Htk. reflexivity.
      * rewrite E. simpl. now rewrite <- Ed.
Qed.

(** An input that starts with a numeral is read as that numeral. *)
Lemma startsWithNumber_index text ds :
  startsWithNumber text ds ->
  parseIndex text = Some (numeralValue ds - 1) /\ Js.truthy text = true.
Proof.
  intros (ws & hash & rest & Hws & Hh & Hds & Hr & ->). split.
  - destruct (parseIndex_front ws ds rest Hws Hds Hr) as [H1 H2].
    destruct Hh as [-> | ->]; [exact H1 | exact H2].
  - apply truthy_app, truthy_app. unfold numeral in Hds.
    apply andb_prop in Hds as [Hne _]. destruct ds; [discriminate | reflexivity].
Qed.

(** ** Keyword search: [includes] after [toLowerCase] is a case-insensitive
    search *)

Lemma sameLetter_lower c k :
  (97 <=? Js.code k) && (Js.code k <=? 122) = true ->
  sameLetter c k = Ascii.eqb (Js.lowerChar c) k.
Proof.
  intros Hk. each_char k; try discriminate Hk; clear Hk; each_char c; reflexivity.
Qed.

Lemma sameLetter_white c k :
  (97 <=? Js.code k) && (Js.code k <=? 122) = true ->
  Js.isWhiteSpace c = true -> sameLetter c k = false.
Proof.
  intros Hk Hc. each_char c; try discriminate Hc; clear Hc;
    each_char k; try discriminate Hk; reflexivity.
Qed.

Lemma prefix_cons a s1 b s2 :
  String.prefix (String a s1) (String b s2) = Ascii.eqb b a && String.prefix s1 s2.
Proof.
  simpl. destruct (ascii_dec a b) as [->|Hn].
  - now rewrite Ascii.eqb_refl.
  - destruct (Ascii.eqb b a) eqn:E; [|reflexivity].
    apply Ascii.eqb_eq in E. congruence.
Qed.

Lemma prefix_lower keyword : lowerLetters keyword = true ->
  forall s, String.prefix keyword (Js.toLowerCase s) = spells keyword s.
Proof.
  induction keyword as [|k kw IH]; intros Hk s.
  - destruct s; reflexivity.
  - simpl in Hk. apply andb_prop in Hk as [Hk Hkw].
    destruct s as [|c r]; [reflexivity|].
    simpl Js.toLowerCase. rewrite prefix_cons. simpl spells.
    rewrite (sameLetter_lower c k Hk), (IH Hkw). reflexivity.
Qed.

Lemma includes_lower keyword : lowerLetters keyword = true ->
  forall s, Js.includes (Js.toLowerCase s) keyword = mentions s keyword.
Proof.
  intros Hk. induction s as [|c r IH].
  - simpl Js.toLowerCase. unfold Js.includes, mentions.
    now rewrite <- (prefix_lower keyword Hk "").
  - simpl Js.toLowerCase. simpl Js.includes. simpl mentions.
    rewrite <- IH. f_equal.
    exact (prefix_lower keyword Hk (String c r)).
Qed.

Lemma spells_trimEnd keyword : lowerLetters keyword = true ->
  forall s, spells keyword (Js.trimEnd s) = spells keyword s.
Proof.
  induction keyword as [|k kw IH]; intros Hk s.
  - destruct s, (Js.trimEnd _); reflexivity.
  - simpl in Hk. apply andb_prop in Hk as [Hk Hkw].
    destruct s as [|c r]; [reflexivity|].
    simpl Js.trimEnd. specialize (IH Hkw r).
    destruct (Js.trimEnd r) as [|d r'] eqn:Hr.
    + destruct (Js.isWhiteSpace c) eqn:Hc; simpl.
      * now rewrite (sameLetter_white c k Hk Hc).
      * now rewrite <- IH.
    + simpl. now rewrite <- IH.
Qed.

Lemma mentions_trimEnd keyword : Js.truthy keyword = true -> lowerLetters keyword = true ->
  forall s, mentions (Js.trimEnd s) keyword = mentions s keyword.
Proof.
  intros Hne Hk. induction s as [|c r IH]; [reflexivity|].
  pose proof (spells_trimEnd keyword Hk (String c r)) as Hs.
  simpl Js.trimEnd in *.
  destruct (Js.trimEnd r) as [|d r'] eqn:Hr.
  - destruct (Js.isWhiteSpace c) eqn:Hc.
    + simpl mentions at 2. rewrite <- IH, <- Hs.
      destruct keyword; [discriminate|]. reflexivity.
    + simpl mentions. rewrite <- IH, <- Hs. reflexivity.
  - simpl mentions at 1. simpl mentions at 2. rewrite <- IH, <- Hs. reflexivity.
Qed.

Lemma mentions_trimStart keyword : Js.truthy keyword = true -> lowerLetters keyword = true ->
  forall s, mentions (Js.trimStart s) keyword = mentions s keyword.
Proof.
  intros Hne Hk. induction s as [|c r IH]; [reflexivity|].
  simpl Js.trimStart. destruct (Js.isWhiteSpace c) eqn:Hc; [|reflexivity].
  rewrite IH. simpl mentions at 2.
  destruct keyword as [|k kw]; [discriminate|].
  simpl in Hk. apply andb_prop in Hk as [Hk _].
  simpl spells. now rewrite (sameLetter_white c k Hk Hc).
Qed.

(** What the router computes for a keyword is the case-insensitive search of
    the raw input. *)
Lemma router_keyword keyword userInput :
  Js.truthy keyword = true -> lowerLetters keyword = true ->
  Js.includes (Js.toLowerCase (Js.trim userInput)) keyword = mentions userInput keyword.
Proof.
  intros Hne Hk. rewrite (includes_lower keyword Hk). unfold Js.trim.
  now rewrite (mentions_trimEnd keyword Hne Hk), (mentions_trimStart keyword Hne Hk).
Qed.

(** [mentions] finds exactly the occurrences of the keyword, letter case
    aside. *)
Lemma spells_split keyword : forall s,
  spells keyword s = true <->
  exists w suf, s = w ++ suf /\ String.length w = String.length keyword
                /\ spells keyword w = true.
Proof.
  induction keyword as [|k kw IH]; intros s.
  - split; [intros _; exists "", s; auto|reflexivity].
  - destruct s as [|c r]; simpl.
    + split; [discriminate|]. intros (w & suf & Hs & Hl & Hw).
      destruct w; simpl in *; discriminate.
    + split.
      * intros H. apply andb_prop in H as [Hc Hr].
        apply IH in Hr as (w & suf & -> & Hl & Hw).
        exists (String c w), suf. simpl. rewrite Hc, Hw, Hl. auto.
      * intros (w & suf & Hs & Hl & Hw).
        destruct w as [|c' w']; [discriminate|].
        simpl in Hs, Hl, Hw. injection Hs as -> ->.
        apply andb_prop in Hw as [Hc Hw]. rewrite Hc. simpl.
        apply IH. exists w', suf. auto.
Qed.

Lemma mentions_iff s keyword :
  mentions s keyword = true <->
  exists pre w suf, s = pre ++ w ++ suf /\ String.length w = String.length keyword
                    /\ spells keyword w = true.
Proof.
  induction s as [|c r IH].
  - simpl. rewrite orb_false_r, spells_split. split.
    + intros (w & suf & Hs & Hl & Hw). exists "", w, suf. auto.
    + intros (pre & w & suf & Hs & Hl & Hw).
      destruct pre; [|discriminate]. exists w, suf. auto.
  - simpl mentions. rewrite orb_true_iff, spells_split, IH. split.
    + intros [(w & suf & Hs & Hl & Hw) | (pre & w & suf & Hs & Hl & Hw)].
      * exists "", w, suf. auto.
      * exists (String c pre), w, suf. simpl. rewrite Hs. auto.
    + intros (pre & w & suf & Hs & Hl & Hw).
      destruct pre as [|p pre'].
      * left. exists w, suf. auto.
      * right. simpl in Hs. injection Hs as _ Hs. exists pre', w, suf. auto.
Qed.

(** ** One turn of the engine *)

(** Typing a line and submitting it is submitting its trimmed text: no
    handler reads the input box. *)
Lemma say_value randomUUID now text s :
  Js.truthy (Js.trim text) = true ->
  say randomUUID now text s = handleSend randomUUID now (Some (Js.trim text)) s.
Proof.
  intros Ht. unfold say, handleSend. destruct s; simpl. rewrite Ht. reflexivity.
Qed.

(** A turn that logged the submission and one answer. *)
Lemma appended_two randomUUID now text prompt (k : Update) s s' :
  messages s' = messages ((pushMessage randomUUID now user text ;;
                           setInput "" ;;
                           pushMessage randomUUID now assistant prompt) s) ->
  appended s s' [(user, text); (assistant, prompt)].
Proof.
  intros H. unfold appended. rewrite H. destruct s; cbn.
  rewrite !map_app. cbn. now rewrite <- app_assoc.
Qed.

(** Looking up, merging into and removing an identifier no task carries. *)
Lemma find_absent sid ts :
  existsb (fun task => String.eqb (Task.id task) sid) ts = false ->
  find (fun task => String.eqb (Task.id task) sid) ts = None.
Proof.
  induction ts as [|t ts IH]; simpl; [reflexivity|].
  destruct (String.eqb (Task.id t) sid); simpl; [discriminate | exact IH].
Qed.

Lemma map_absent sid (f : Task.t -> Task.t) ts :
  existsb (fun task => String.eqb (Task.id task) sid) ts = false ->
  map (fun task => if String.eqb (Task.id task) sid then f task else task) ts = ts.
Proof.
  induction ts as [|t ts IH]; simpl; [reflexivity|].
  destruct (String.eqb (Task.id t) sid); simpl; [discriminate|].
  intros H. now rewrite IH.
Qed.

Lemma filter_absent sid ts :
  existsb (fun task => String.eqb (Task.id task) sid) ts = false ->
  filter (fun task => negb (String.eqb (Task.id task) sid)) ts = ts.
Proof.
  induction ts as [|t ts IH]; simpl; [reflexivity|].
  destruct (String.eqb (Task.id t) sid); simpl; [discriminate|].
  intros H. now rewrite IH.
Qed.

Lemma existsb_not_in sid ts :
  ~ In sid (map Task.id ts) ->
  existsb (fun task => String.eqb (Task.id task) sid) ts = false.
Proof.
  induction ts as [|t ts IH]; simpl; [reflexivity|].
  intros H. destruct (String.eqb (Task.id t) sid) eqn:E.
  - apply String.eqb_eq in E. tauto.
  - apply IH. tauto.
Qed.

(** ** The reach of a turn *)

Lemma findPriority_valid text p : findPriority text = Some p -> In p priorityOptions.
Proof. unfold findPriority. intros H. now apply find_some in H as [? _]. Qed.

Lemma handleAddFlow_footprint randomUUID now r text q :
  Footprint randomUUID r q (handleAddFlow randomUUID now r text q).
Proof.
  unfold handleAddFlow. destruct q. flow_cases; footprint_case_by findPriority_valid.
Qed.

Lemma handleUpdateFlow_footprint randomUUID now r text q :
  Footprint randomUUID r q (handleUpdateFlow randomUUID now r text q).
Proof.
  unfold handleUpdateFlow, previewDraft. destruct q. flow_cases; footprint_case_by findPriority_valid.
Qed.

Lemma handleDeleteFlow_footprint randomUUID now r text q :
  Footprint randomUUID r q (handleDeleteFlow randomUUID now r text q).
Proof.
  unfold handleDeleteFlow. destruct q. flow_cases; footprint_case_by findPriority_valid.
Qed.

Lemma handleViewFlow_footprint randomUUID now r q :
  Footprint randomUUID r q (handleViewFlow randomUUID now r q).
Proof.
  unfold handleViewFlow. destruct q. flow_cases; footprint_case_by findPriority_valid.
Qed.

Lemma footprint_after randomUUID r q q1 q' :
  (draws q <= draws q1)%nat -> tasks q1 = tasks q -> pendingTask q1 = pendingTask q ->
  (ButtonsSpeak q -> ButtonsSpeak q1) ->
  Footprint randomUUID r q1 q' -> Footprint randomUUID r q q'.
Proof.
  intros Hd Ht Hp Hb (Fd & Fb & Fp & Fs). rewrite Hp in Fp.
  split; [lia|]. split; [auto|]. split; [exact Fp|].
  destruct Fs as [E | n Hn E | sid E | sid E]; rewrite ?Ht in E.
  - now apply store_kept.
  - apply (store_added _ _ _ _ n); [lia | exact E].
  - now apply (store_merged _ _ _ _ sid).
  - now apply (store_filtered _ _ _ _ sid).
Qed.

Lemma routeInput_footprint randomUUID now r text q :
  Footprint randomUUID r q (routeInput randomUUID now r text q).
Proof.
  unfold routeInput. destruct (action r).
  - flow_cases.
    + apply (footprint_after randomUUID r q ((setAction add ;; setFlowStep 0 ;; setButtons []) q));
        [destruct q; cbn; lia | destruct q; reflexivity | destruct q; reflexivity
        | intros _; destruct q; constructor | apply handleAddFlow_footprint].
    + apply (footprint_after randomUUID r q ((setAction update ;; setFlowStep 0 ;; setButtons []) q));
        [destruct q; cbn; lia | destruct q; reflexivity | destruct q; reflexivity
        | intros _; destruct q; constructor | apply handleUpdateFlow_footprint].
    + apply (footprint_after randomUUID r q ((setAction delete ;; setFlowStep 0 ;; setButtons []) q));
        [destruct q; cbn; lia | destruct q; reflexivity | destruct q; reflexivity
        | intros _; destruct q; constructor | apply handleDeleteFlow_footprint].
    + apply (footprint_after randomUUID r q ((setAction view ;; setFlowStep 0 ;; setButtons []) q));
        [destruct q; cbn; lia | destruct q; reflexivity | destruct q; reflexivity
        | intros _; destruct q; constructor | apply handleViewFlow_footprint].
    + destruct q. footprint_case_by findPriority_valid.
  - apply handleAddFlow_footprint.
  - apply handleUpdateFlow_footprint.
  - apply handleDeleteFlow_footprint.
  - apply handleViewFlow_footprint.
Qed.

(** What one turn can do to the store, the draft, the buttons and the
    draw counter. *)
Lemma handleSend_footprint randomUUID now value s :
  Footprint randomUUID s s (handleSend randomUUID now value s).
Proof.
  unfold handleSend.
  destruct (negb _).
  - split; [lia|]. split; [auto|]. split; [auto|]. now apply store_kept.
  - match goal with |- Footprint _ _ _ (?f s) =>
      match f with _ ;; routeInput _ _ _ ?t =>
        apply (footprint_after randomUUID s s (logUser randomUUID now t s));
          [destruct s; cbn; lia | destruct s; reflexivity | destruct s; reflexivity
          | destruct s; intros H; exact H
          | apply (routeInput_footprint randomUUID now s t)]
      end
    end.
Qed.

Lemma buttons_turn randomUUID now value s :
  ButtonsSpeak s -> ButtonsSpeak (handleSend randomUUID now value s).
Proof. intros H. now apply (handleSend_footprint randomUUID now value s). Qed.

Lemma reachable_buttons randomUUID now s :
  Reachable randomUUID now s -> ButtonsSpeak s.
Proof.
  induction 1 as [| ts | e s Hs IH He].
  - repeat constructor.
  - repeat constructor.
  - destruct e; simpl.
    + destruct s; exact IH.
    + now apply buttons_turn.
    + now apply buttons_turn.
Qed.

Lemma reachable_say randomUUID now text s :
  Reachable randomUUID now s -> Reachable randomUUID now (say randomUUID now text s).
Proof.
  intros H. unfold say.
  apply (reach_event randomUUID now Submit); [|exact I].
  apply (reach_event randomUUID now (Typing text)); [exact H | exact I].
Qed.

Lemma reachable_converse randomUUID now lines : forall s,
  Reachable randomUUID now s -> Reachable randomUUID now (converse randomUUID now lines s).
Proof.
  unfold converse. induction lines as [|text lines IH]; intros s H; simpl; [exact H|].
  apply IH. now apply reachable_say.
Qed.

(** ** Idle is the reset state *)

Lemma handleAddFlow_resets randomUUID now r text q :
  KeepsOrResets q (handleAddFlow randomUUID now r text q).
Proof. unfold handleAddFlow. destruct q. flow_cases; keeps_or_resets. Qed.

Lemma handleUpdateFlow_resets randomUUID now r text q :
  KeepsOrResets q (handleUpdateFlow randomUUID now r text q).
Proof.
  unfold handleUpdateFlow, previewDraft. destruct q. flow_cases; keeps_or_resets.
Qed.

Lemma handleDeleteFlow_resets randomUUID now r text q :
  KeepsOrResets q (handleDeleteFlow randomUUID now r text q).
Proof. unfold handleDeleteFlow. destruct q. flow_cases; keeps_or_resets. Qed.

Lemma handleViewFlow_resets randomUUID now r q :
  FullyReset (handleViewFlow randomUUID now r q).
Proof. unfold handleViewFlow. destruct q. flow_cases; repeat split. Qed.

Lemma idle_turn randomUUID now value s :
  IdleIsReset s -> IdleIsReset (handleSend randomUUID now value s).
Proof.
  unfold IdleIsReset, handleSend. intros Hs.
  destruct (negb _); [exact Hs|].
  match goal with |- action (?f s) = idle -> _ =>
    match f with _ ;; routeInput _ _ _ ?t =>
      change (f s) with (routeInput randomUUID now s t (logUser randomUUID now t s));
      set (q := logUser randomUUID now t s);
      assert (Hq : action q = action s) by (destruct s; reflexivity);
      assert (Hr : FullyReset s -> FullyReset (setButtons idleActions
                     (pushMessage randomUUID now assistant clarification q)))
        by (destruct s; unfold FullyReset; cbn; tauto);
      generalize t
    end
  end.
  clearbody q. intros t. unfold routeInput.
  destruct (action s) eqn:Ha.
  - flow_cases.
    + destruct (handleAddFlow_resets randomUUID now s ""
                  ((setAction add ;; setFlowStep 0 ;; setButtons []) q)) as [E | E];
        [|intros _; exact E].
      unfold andThen at 1 2 3. unfold andThen in E. rewrite E. destruct q; discriminate.
    + destruct (handleUpdateFlow_resets randomUUID now s ""
                  ((setAction update ;; setFlowStep 0 ;; setButtons []) q)) as [E | E];
        [|intros _; exact E].
      unfold andThen at 1 2 3. unfold andThen in E. rewrite E. destruct q; discriminate.
    + destruct (handleDeleteFlow_resets randomUUID now s ""
                  ((setAction delete ;; setFlowStep 0 ;; setButtons []) q)) as [E | E];
        [|intros _; exact E].
      unfold andThen at 1 2 3. unfold andThen in E. rewrite E. destruct q; discriminate.
    + intros _. apply handleViewFlow_resets.
    + intros _. apply Hr. now apply Hs.
  - destruct (handleAddFlow_resets randomUUID now s t q) as [E | E];
      [rewrite E, Hq; discriminate | intros _; exact E].
  - destruct (handleUpdateFlow_resets randomUUID now s t q) as [E | E];
      [rewrite E, Hq; discriminate | intros _; exact E].
  - destruct (handleDeleteFlow_resets randomUUID now s t q) as [E | E];
      [rewrite E, Hq; discriminate | intros _; exact E].
  - intros _. apply handleViewFlow_resets.
Qed.

(** In a session, Idle is always the fully reset state. *)
Lemma reachable_idle randomUUID now s :
  Reachable randomUUID now s -> action s = idle -> FullyReset s.
Proof.
  induction 1 as [| ts | e s Hs IH He].
  - intros _. repeat split.
  - intros _. repeat split.
  - destruct e; simpl.
    + destruct s. exact IH.
    + now apply idle_turn.
    + now apply idle_turn.
Qed.

(** ** Startup *)

(** A stored task array is installed as it is. *)
Lemma mount_tasks randomUUID now JSON_stringify JSON_parse stored ts :
  Js.truthy stored = true -> JSON_parse stored = Tasks ts ->
  mount randomUUID now JSON_stringify JSON_parse (Some stored)
  = Some (setTasks ts (initialState randomUUID now), Some (JSON_stringify ts)).
Proof.
  intros Ht Hp. unfold mount, loadEffect. rewrite Ht, Hp. reflexivity.
Qed.

(** Stored text that cannot be read, or is no array, leaves the list
    empty. *)

Lemma mount_discards randomUUID now JSON_stringify JSON_parse stored :
  JSON_parse stored = Throws \/ JSON_parse stored = NonArray ->
  mount randomUUID now JSON_stringify JSON_parse (Some stored)
  = Some (initialState randomUUID now, Some (JSON_stringify [])).
Proof.
  intros H. unfold mount, loadEffect.
  destruct (Js.truthy stored); [|reflexivity].
  destruct H as [-> | ->]; reflexivity.
Qed.

(** ** C1: choosing a task by its number *)

Lemma reprompt_index randomUUID now s text :
  atIndexSelection s = true -> Js.truthy text = true ->
  match parseIndex text with
  | None => True
  | Some index => (index <? 0) || (index >=? Z.of_nat (List.length (tasks s))) = true
  end ->
  Reprompted text s (handleSend randomUUID now (Some text) s).
Proof.
  intros Hs Ht Hp. unfold handleSend. rewrite Ht.
  unfold atIndexSelection in Hs. open_state s.
  destruct act; try discriminate Hs; apply Z.eqb_eq in Hs; subst stp.
  - unfold routeInput, handleUpdateFlow. cbn [action flowStep Z.eqb negb tasks].
    destruct (parseIndex text) as [index|]; [rewrite Hp|];
      (repeat split; eexists; eapply appended_two; [exact skip | reflexivity]).
  - unfold routeInput, handleDeleteFlow. cbn [action flowStep Z.eqb negb tasks].
    destruct (parseIndex text) as [index|]; [rewrite Hp|];
      (repeat split; eexists; eapply appended_two; [exact skip | reflexivity]).
Qed.

Lemma select_index randomUUID now s text index :
  atIndexSelection s = true -> Js.truthy text = true ->
  parseIndex text = Some index ->
  0 <= index < Z.of_nat (List.length (tasks s)) ->
  Selected (index + 1) s (handleSend randomUUID now (Some text) s).
Proof.
  intros Hs Ht Hp Hr. unfold handleSend. rewrite Ht.
  assert (Hc : (index <? 0) || (index >=? Z.of_nat (List.length (tasks s))) = false).
  { rewrite Z.geb_leb. apply orb_false_iff. split; [apply Z.ltb_ge | apply Z.leb_gt]; lia. }
  unfold Selected. replace (index + 1 - 1) with index by lia.
  destruct (nth_error (tasks s) (Z.to_nat index)) as [task|] eqn:Hn.
  2:{ apply nth_error_None in Hn. lia. }
  exists task. split; [reflexivity|].
  unfold atIndexSelection in Hs. open_state s.
  destruct act; try discriminate Hs; apply Z.eqb_eq in Hs; subst stp.
  - unfold routeInput, handleUpdateFlow. cbn [action flowStep Z.eqb negb tasks].
    rewrite Hp, Hc, Hn. repeat split.
  - unfold routeInput, handleDeleteFlow. cbn [action flowStep Z.eqb negb tasks].
    rewrite Hp, Hc, Hn. repeat split.
Qed.

(** C1.  At the index-selection step of the Update and Delete flows, with N
    tasks in the store, the input is read from its front: white space is
    skipped, a [#] is optional, and the numeral [k] that follows counts,
    whatever comes after its digits.  With 1 <= k <= N the task at position
    k-1 is selected (its identifier becomes the selection and the flow moves
    on); with [k] outside that range, and for every input that is not empty
    and does not start with a numeral, the flow answers with a prompt and
    leaves selection, step counter, intent, store, draft and buttons as they
    were.  Every input is of one of the two kinds. *)
Theorem index_selection randomUUID now s :
  atIndexSelection s = true -> IndexSelection randomUUID now s.
Proof.
  intros Hs. split; [|split].
  - intros text ds Hst k s'. subst k s'.
    destruct (startsWithNumber_index text ds Hst) as [Hp Ht].
    split; intros Hk.
    + replace (numeralValue ds) with (numeralValue ds - 1 + 1) at 1 by lia.
      apply select_index; trivial. lia.
    + apply reprompt_index; trivial. rewrite Hp.
      apply orb_true_iff.
      destruct (Z.ltb_spec (numeralValue ds - 1) 0); [now left | right].
      rewrite Z.geb_leb. apply Z.leb_le. lia.
  - intros text Ht Hn. apply reprompt_index; trivial.
    apply parseIndex_none_iff in Hn. now rewrite Hn.
  - apply starts_with_number_or_not.
Qed.

(** With distinct identifiers the selection names the task at that position
    and no other. *)
Lemma find_selected ts : UniqueIds ts ->
  forall i task, nth_error ts i = Some task ->
  find (fun t => String.eqb (Task.id t) (Task.id task)) ts = Some task.
Proof.
  unfold UniqueIds. induction ts as [|t ts IH]; intros Hu i task Hn.
  - destruct i; discriminate.
  - simpl in Hu. inversion Hu as [|? ? Hnotin Hu']; subst.
    destruct i as [|i]; simpl in Hn.
    + injection Hn as ->. simpl. now rewrite String.eqb_refl.
    + simpl. destruct (String.eqb (Task.id t) (Task.id task)) eqn:E.
      * apply String.eqb_eq in E. exfalso. apply Hnotin. rewrite E.
        apply in_map. eapply nth_error_In; eauto.
      * eauto.
Qed.

Lemma index_selection_witness :
  atIndexSelection sampleChoosing = true
  /\ IndexSelection sampleUUID sampleNow sampleChoosing.
Proof.
  split; [vm_compute; reflexivity
        | apply (index_selection sampleUUID sampleNow sampleChoosing); vm_compute; reflexivity].
Defined.

(** The input "2abc" is neither [k] nor [#k], and selects the second
    task. *)
Lemma index_selection_counterexample :
  ~ RepromptsEveryOtherInput sampleUUID sampleNow sampleChoosing.
Proof.
  intros H.
  assert (G : Reprompted "2abc" sampleChoosing
                (handleSend sampleUUID sampleNow (Some "2abc") sampleChoosing)).
  { apply H; [reflexivity|]. intros ds Hn _. split; intros E.
    - subst ds. discriminate Hn.
    - discriminate E. }
  destruct G as (_ & Hstep & _). vm_compute in Hstep. discriminate Hstep.
Qed.

Example index_selection_second :
  selectedTaskId (handleSend sampleUUID sampleNow (Some "#2") sampleChoosing)
  = option_map Task.id (nth_error (tasks sampleChoosing) 1).
Proof. vm_compute. reflexivity. Qed.

(** A numeral followed by other text is read as that numeral ([parseIndex]
    looks at the front of the input only). *)
Example index_selection_lenient :
  selectedTaskId (handleSend sampleUUID sampleNow (Some "2 please") sampleChoosing)
  = option_map Task.id (nth_error (tasks sampleChoosing) 1).
Proof. vm_compute. reflexivity. Qed.

Example index_selection_beyond :
  let s' := handleSend sampleUUID sampleNow (Some "3") sampleChoosing in
  (selectedTaskId s', flowStep s') = (None, 1).
Proof. vm_compute. reflexivity. Qed.

(** ** C2: scenario A, adding a task *)

(** C2.  From Idle, with any task store, the inputs "add a task",
    "Buy milk", "tomorrow 9am", "High", "no", "yes" extend the store by
    exactly one task -- title "Buy milk", due "tomorrow 9am", priority High,
    no reminder -- and bring the engine back to Idle, fully reset, with the
    four top-level buttons shown. *)
Theorem scenario_add randomUUID now s :
  Idle s ->
  let s' := converse randomUUID now scenarioA s in
  GainedOne s s' "Buy milk" "tomorrow 9am" "High" None
  /\ Idle s' /\ FullyReset s' /\ buttons s' = idleActions.
Proof.
  intros [Ha Hf]. open_state s. subst act stp.
  vm_compute. repeat split. eexists. reflexivity.
Qed.

Lemma scenario_add_witness :
  Idle sampleOneTask
  /\ GainedOne sampleOneTask (converse sampleUUID sampleNow scenarioA sampleOneTask)
       "Buy milk" "tomorrow 9am" "High" None.
Proof.
  assert (H : Idle sampleOneTask) by (split; vm_compute; reflexivity).
  split; [exact H | exact (proj1 (scenario_add sampleUUID sampleNow sampleOneTask H))].
Defined.

(** ** C3: a selection that got lost *)

Lemma abort_on_null randomUUID now s text :
  Js.truthy text = true ->
  checksReference s = true -> noSelection (selectedTaskId s) = true ->
  Aborted text s (handleSend randomUUID now (Some text) s).
Proof.
  intros Ht Hs Hn. unfold handleSend. rewrite Ht.
  unfold checksReference in Hs. open_state s.
  assert (Hsel : sel = None \/ sel = Some "").
  { destruct sel as [[|c sid]|]; auto; discriminate. }
  clear Hn.
  destruct act; try discriminate Hs.
  - apply andb_prop in Hs as [H3 H5]. apply Z.leb_le in H3, H5.
    assert (Hstp : stp = 3 \/ stp = 4 \/ stp = 5) by lia.
    destruct Hstp as [-> | [-> | ->]], Hsel as [-> | ->]; aborted_by appended_two.
  - apply Z.eqb_eq in Hs. subst stp. destruct Hsel as [-> | ->]; aborted_by appended_two.
Qed.

Lemma abort_on_absent randomUUID now s text :
  Js.truthy text = true ->
  checksPresence s = true -> selectionAbsent s = true ->
  Aborted text s (handleSend randomUUID now (Some text) s).
Proof.
  intros Ht Hs Hn.
  destruct (noSelection (selectedTaskId s)) eqn:Hnull.
  { apply abort_on_null; trivial. unfold checksPresence in Hs. unfold checksReference.
    destruct (action s); try discriminate Hs.
    apply orb_prop in Hs as [H|H]; apply Z.eqb_eq in H; rewrite H; reflexivity. }
  unfold handleSend. rewrite Ht.
  unfold checksPresence in Hs. unfold selectionAbsent in Hn. open_state s.
  destruct sel as [sid|]; [|discriminate Hnull].
  apply negb_true_iff in Hn. apply find_absent in Hn.
  destruct sid as [|c sid]; [discriminate Hnull|]. clear Hnull.
  destruct act; try discriminate Hs.
  apply orb_prop in Hs as [H|H]; apply Z.eqb_eq in H; subst stp.
  - unfold routeInput, handleUpdateFlow.
    cbn [action flowStep Z.eqb Pos.eqb negb tasks selectedTaskId Js.truthy].
    rewrite Hn. aborted_by appended_two.
  - unfold routeInput, handleUpdateFlow.
    cbn [action flowStep Z.eqb Pos.eqb negb tasks selectedTaskId Js.truthy].
    rewrite Hn. aborted_by appended_two.
Qed.

Lemma store_kept_when_absent randomUUID now s text :
  Js.truthy text = true ->
  afterSelection s = true -> selectionAbsent s = true ->
  tasks (handleSend randomUUID now (Some text) s) = tasks s.
Proof.
  intros Ht Hs Hn.
  destruct (checksPresence s) eqn:Hp.
  { now destruct (abort_on_absent randomUUID now s text Ht Hp Hn) as (_ & ? & _). }
  destruct (noSelection (selectedTaskId s) && checksReference s) eqn:Hr.
  { apply andb_prop in Hr as [Hnull Hr].
    now destruct (abort_on_null randomUUID now s text Ht Hr Hnull) as (_ & ? & _). }
  unfold handleSend. rewrite Ht.
  unfold afterSelection in Hs. unfold checksPresence in Hp.
  unfold checksReference in Hr. unfold selectionAbsent in Hn. open_state s.
  destruct act; try discriminate Hs.
  - apply andb_prop in Hs as [H2 H5]. apply Z.leb_le in H2, H5.
    assert (Hstp : stp = 2 \/ stp = 3 \/ stp = 4 \/ stp = 5) by lia.
    destruct Hstp as [-> | [-> | [-> | ->]]]; try discriminate Hp.
    + unfold routeInput, handleUpdateFlow. cbn [action flowStep Z.eqb Pos.eqb].
      flow_cases; reflexivity.
    + destruct sel as [[|c sid]|]; try discriminate Hr.
      apply negb_true_iff in Hn.
      unfold routeInput, handleUpdateFlow.
      cbn [action flowStep Z.eqb Pos.eqb selectedTaskId Js.truthy negb].
      destruct (answerStartsWith text "y"); [|reflexivity].
      cbn. now apply map_absent.
  - apply Z.eqb_eq in Hs. subst stp.
    destruct sel as [[|c sid]|]; try discriminate Hr.
    apply negb_true_iff in Hn.
    unfold routeInput, handleDeleteFlow.
    cbn [action flowStep Z.eqb Pos.eqb selectedTaskId Js.truthy negb].
    destruct (answerStartsWith text "y"); [|reflexivity].
    cbn. now apply filter_absent.
Qed.

(** C3 (as the code has it).  In the Update flow at steps 3, 4 and 5 and in
    the Delete flow at step 2, a selection that is [null] or empty aborts the
    flow: one recovery message, the session reset to Idle, the store
    untouched.  At steps 3 and 4 of the Update flow the same happens when no
    task of the store carries the selected identifier.  At every step after
    the choice of a task, a selection that names no task of the store leaves
    the store unchanged. *)
Theorem lost_selection randomUUID now s text :
  Js.truthy text = true -> LostSelectionHandling randomUUID now s text.
Proof.
  intros Ht. unfold LostSelectionHandling. cbv zeta. split; [|split].
  - now apply abort_on_null.
  - now apply abort_on_absent.
  - now apply store_kept_when_absent.
Qed.

Lemma lost_selection_witness :
  Js.truthy "Buy oat milk" = true
  /\ LostSelectionHandling sampleUUID sampleNow sampleLostAtValue "Buy oat milk".
Proof.
  split; [reflexivity
        | apply (lost_selection sampleUUID sampleNow sampleLostAtValue); reflexivity].
Defined.

(** The claim as worded fails: at the field-choice step (step 2) of the
    Update flow nothing tests the selection, and the flow goes on. *)
Lemma lost_selection_counterexample : ~ AbortsWheneverLost sampleUUID sampleNow.
Proof.
  intros H.
  assert (G : Aborted "title" sampleLostAtField
                (handleSend sampleUUID sampleNow (Some "title") sampleLostAtField)).
  { apply H; vm_compute; reflexivity. }
  destruct G as ((Ha & _) & _). vm_compute in Ha. discriminate Ha.
Qed.

Example lost_selection_at_value :
  Aborted "Buy oat milk" sampleLostAtValue
    (handleSend sampleUUID sampleNow (Some "Buy oat milk") sampleLostAtValue).
Proof. apply abort_on_absent; vm_compute; reflexivity. Qed.

(** At the save step only [null] is tested: a selection that names no task
    is answered as a successful update, and the flow ends normally. *)
Example lost_selection_at_save :
  let s' := handleSend sampleUUID sampleNow (Some "yes") sampleLostAtSave in
  selectionAbsent sampleLostAtSave = true
  /\ map Message.content (skipn (List.length (messages sampleLostAtSave)) (messages s'))
     = ["yes"; "Updated! Anything else?";
        "Anything else I can help with? Add, update, delete, or view tasks."]
  /\ tasks s' = tasks sampleLostAtSave.
Proof. vm_compute. repeat split. Qed.

(** ** C4: declining at a final confirmation *)

(** C4.  At a final confirmation step (Add step 6, Update step 5, Delete
    step 2), for every session state and task store, submitting "no" -- typed
    or passed as a value -- leaves the task store unchanged and returns the
    engine to Idle, fully reset. *)
Theorem no_at_confirmation randomUUID now s :
  atConfirmation s = true ->
  Dismissed s (handleSend randomUUID now (Some "no") s)
  /\ Dismissed s (say randomUUID now "no" s).
Proof.
  intros H. rewrite say_value by reflexivity.
  change (Js.trim "no") with "no".
  assert (G : tasks (handleSend randomUUID now (Some "no") s) = tasks s
              /\ FullyReset (handleSend randomUUID now (Some "no") s)).
  { unfold atConfirmation in H. open_state s.
    destruct act; try discriminate H; apply Z.eqb_eq in H; subst stp.
    - split; [reflexivity | repeat split].
    - destruct sel as [[|c sid]|]; (split; [reflexivity | repeat split]).
    - destruct sel as [[|c sid]|]; (split; [reflexivity | repeat split]). }
  destruct G as [Gt Gr].
  assert (Gd : Dismissed s (handleSend randomUUID now (Some "no") s)).
  { split; [exact Gt | split; [|exact Gr]].
    destruct Gr as (? & ? & _). split; assumption. }
  split; exact Gd.
Qed.

Lemma no_at_confirmation_witness :
  atConfirmation sampleAtSave = true
  /\ Dismissed sampleAtSave (handleSend sampleUUID sampleNow (Some "no") sampleAtSave)
  /\ Dismissed sampleAtSave (say sampleUUID sampleNow "no" sampleAtSave).
Proof.
  split; [vm_compute; reflexivity
        | apply (no_at_confirmation sampleUUID sampleNow sampleAtSave); vm_compute; reflexivity].
Defined.

(** ** C5: the intent router *)

Lemma mentions_trim keyword userInput :
  Js.truthy keyword = true -> lowerLetters keyword = true ->
  mentions (Js.trim userInput) keyword = mentions userInput keyword.
Proof.
  intros Hne Hk. unfold Js.trim.
  now rewrite (mentions_trimEnd keyword Hne Hk), (mentions_trimStart keyword Hne Hk).
Qed.

Lemma intentOf_trim text : intentOf (Js.trim text) = intentOf text.
Proof. unfold intentOf. now rewrite !mentions_trim. Qed.

Lemma route_idle randomUUID now s text :
  Idle s -> Js.truthy text = true ->
  RoutedAs randomUUID now s text text (handleSend randomUUID now (Some text) s).
Proof.
  intros [Ha Hf] Ht. unfold RoutedAs, handleSend. rewrite Ht.
  open_state s. subst act stp.
  unfold routeInput. cbn [action negb].
  rewrite !router_keyword by reflexivity. unfold intentOf.
  destruct (mentions text "add"); [vm_compute; reflexivity|].
  destruct (mentions text "update"); [vm_compute; reflexivity|].
  destruct (mentions text "delete" || mentions text "remove"); [vm_compute; reflexivity|].
  destruct (mentions text "view" || mentions text "show" || mentions text "list");
    [vm_compute; reflexivity|].
  repeat split. eapply appended_two; [exact skip | reflexivity].
Qed.

(** C5.  At Idle, every free-text input -- passed as a value, or typed and
    submitted -- is searched, letter case aside, for the keywords "add";
    "update"; "delete" or "remove"; "view", "show" or "list", in that order
    of precedence.  On the first group found the turn ends where that flow,
    started afresh (intent set, step counter reset, buttons cleared, first
    step run on the empty seed), leaves the session; when none is found the
    engine logs a clarification and offers the four top-level buttons,
    intent, step counter and store unchanged. *)
Theorem router_idle randomUUID now s text :
  Idle s ->
  (Js.truthy text = true ->
   RoutedAs randomUUID now s text text (handleSend randomUUID now (Some text) s))
  /\ (Js.truthy (Js.trim text) = true ->
      RoutedAs randomUUID now s text (Js.trim text) (say randomUUID now text s)).
Proof.
  intros Hi. split; intros Ht.
  - now apply route_idle.
  - rewrite say_value by assumption.
    pose proof (route_idle randomUUID now s (Js.trim text) Hi Ht) as H.
    unfold RoutedAs in *. now rewrite intentOf_trim in H.
Qed.

Lemma startFlow_opens randomUUID now a q : FlowOpened a q (startFlow randomUUID now a q).
Proof.
  unfold FlowOpened. open_state q. destruct a.
  - split; reflexivity.
  - split; [reflexivity | repeat split].
  - destruct ts; (split; [reflexivity | repeat split]).
  - destruct ts; (split; [reflexivity | repeat split]).
  - destruct ts; (split; [reflexivity | repeat split]).
Qed.

Lemma router_idle_witness :
  Idle sampleOneTask
  /\ RoutedAs sampleUUID sampleNow sampleOneTask "Please UPDATE it" "Please UPDATE it"
       (handleSend sampleUUID sampleNow (Some "Please UPDATE it") sampleOneTask).
Proof.
  assert (H : Idle sampleOneTask) by (split; vm_compute; reflexivity).
  split; [exact H|].
  apply (proj1 (router_idle sampleUUID sampleNow sampleOneTask "Please UPDATE it" H)).
  reflexivity.
Defined.

Example intent_precedence :
  map intentOf ["Add or delete?"; "update the list"; "REMOVE it"; "Show me"; "hello"; "ad d"]
  = [Some add; Some update; Some delete; Some view; None; None].
Proof. vm_compute. reflexivity. Qed.

(** ** C6: scenario D, changing a priority *)

(** Step 3 of the Update flow on a priority word: the delta becomes the
    draft, the selection and the store stay. *)
Lemma update_priority_value randomUUID now s text sid current p :
  action s = update -> flowStep s = 3 -> pendingField s = Some k_priority ->
  selectedTaskId s = Some sid -> Js.truthy sid = true ->
  find (fun task => String.eqb (Task.id task) sid) (tasks s) = Some current ->
  Js.truthy text = true -> findPriority text = Some p ->
  let s' := handleSend randomUUID now (Some text) s in
  action s' = update /\ flowStep s' = 5 /\ selectedTaskId s' = Some sid
  /\ tasks s' = tasks s
  /\ pendingTask s' = PartialTask.withPriority PartialTask.empty p.
Proof.
  intros Ha Hf Hfld Hsel Hsid Hfind Ht Hp. unfold handleSend. rewrite Ht.
  open_state s. subst act stp fld sel.
  unfold routeInput, handleUpdateFlow.
  cbn [action flowStep Z.eqb Pos.eqb negb selectedTaskId tasks pendingField].
  rewrite Hsid, Hfind, Hp. repeat split.
Qed.

(** Step 5 of the Update flow on a yes: the draft is merged into every task
    that carries the selected identifier, and the session is reset. *)
Lemma update_save randomUUID now s text sid :
  action s = update -> flowStep s = 5 ->
  selectedTaskId s = Some sid -> Js.truthy sid = true ->
  Js.truthy text = true -> answerStartsWith text "y" = true ->
  let s' := handleSend randomUUID now (Some text) s in
  tasks s' = map (fun task => if String.eqb (Task.id task) sid
                              then spread task (pendingTask s) else task) (tasks s)
  /\ FullyReset s'.
Proof.
  intros Ha Hf Hsel Hsid Ht Hy. unfold handleSend. rewrite Ht.
  open_state s. subst act stp sel.
  unfold routeInput, handleUpdateFlow.
  cbn [action flowStep Z.eqb Pos.eqb negb selectedTaskId tasks pendingField].
  rewrite Hsid, Hy. repeat split.
Qed.

Lemma scenario_update_choice randomUUID now s task rest :
  Idle s -> tasks s = task :: rest ->
  let s3 := converse randomUUID now ["update"; "#1"; "priority"] s in
  action s3 = update /\ flowStep s3 = 3 /\ pendingField s3 = Some k_priority
  /\ selectedTaskId s3 = Some (Task.id task) /\ tasks s3 = task :: rest.
Proof.
  intros [Ha Hf] Hts. open_state s. subst act stp ts.
  vm_compute. repeat split.
Qed.

(** C6.  From Idle, with a first task in the store (priority Low in
    scenario D) whose identifier is a non-empty string that no other task
    carries, the inputs "update", "#1", "priority", "Medium", "yes" leave that
    task with priority Medium and with its identifier, title, due date and
    reminder unchanged, and leave every other task of the store unchanged. *)
Theorem scenario_update randomUUID now s task rest :
  Idle s -> tasks s = task :: rest ->
  Js.truthy (Task.id task) = true ->
  ~ In (Task.id task) (map Task.id rest) ->
  let s' := converse randomUUID now scenarioD s in
  tasks s' = withPriority task "Medium" :: rest /\ Idle s' /\ FullyReset s'.
Proof.
  intros Hi Hts Hid Hrest.
  destruct (scenario_update_choice randomUUID now s task rest Hi Hts)
    as (Ha3 & Hf3 & Hfld3 & Hsel3 & Hts3).
  change (converse randomUUID now scenarioD s)
    with (say randomUUID now "yes"
            (say randomUUID now "Medium"
               (converse randomUUID now ["update"; "#1"; "priority"] s))).
  set (s3 := converse randomUUID now ["update"; "#1"; "priority"] s) in *.
  rewrite !say_value by reflexivity.
  change (Js.trim "yes") with "yes". change (Js.trim "Medium") with "Medium".
  assert (Hfind : find (fun t => String.eqb (Task.id t) (Task.id task)) (tasks s3)
                  = Some task).
  { rewrite Hts3. simpl. now rewrite String.eqb_refl. }
  destruct (update_priority_value randomUUID now s3 "Medium" (Task.id task) task "Medium"
              Ha3 Hf3 Hfld3 Hsel3 Hid Hfind eq_refl eq_refl)
    as (Ha4 & Hf4 & Hsel4 & Hts4 & Hdraft4).
  set (s4 := handleSend randomUUID now (Some "Medium") s3) in *.
  destruct (update_save randomUUID now s4 "yes" (Task.id task) Ha4 Hf4 Hsel4 Hid
              eq_refl eq_refl) as (Hts5 & Hreset).
  cbv zeta. split; [|split; [destruct Hreset as (? & ? & _); split; assumption | exact Hreset]].
  rewrite Hts5, Hts4, Hts3, Hdraft4. simpl. rewrite String.eqb_refl.
  f_equal. apply map_absent. now apply existsb_not_in.
Qed.

Lemma scenario_update_witness :
  let task := Task.mk "uuid-13" "Buy milk" "tomorrow 9am" "Low" None in
  Idle sampleLowTask /\ tasks sampleLowTask = [task]
  /\ tasks (converse sampleUUID sampleNow scenarioD sampleLowTask)
     = [withPriority task "Medium"].
Proof.
  intros task.
  assert (Hi : Idle sampleLowTask) by (split; vm_compute; reflexivity).
  assert (Ht : tasks sampleLowTask = [task]) by (vm_compute; reflexivity).
  split; [exact Hi | split; [exact Ht|]].
  apply (scenario_update sampleUUID sampleNow sampleLowTask task [] Hi Ht).
  - reflexivity.
  - simpl. tauto.
Defined.

(** A task whose identifier is the empty string stays as it is: step 3 tests
    the selection for truthiness (285) and starts over. *)
Lemma scenario_update_counterexample : ~ ScenarioDOnAnyStore sampleUUID sampleNow.
Proof.
  intros H.
  specialize (H sampleUnnamedTask (Task.mk "" "Buy milk" "tomorrow 9am" "Low" None) []
                (conj eq_refl eq_refl) eq_refl eq_refl).
  vm_compute in H. discriminate H.
Qed.

(** The draft is merged into every task that carries the selected
    identifier (379-389). *)
Example scenario_update_shared_id :
  let s := setTasks [Task.mk "a" "Buy milk" "tomorrow 9am" "Low" None;
                     Task.mk "a" "Call Ana" "Friday" "High" None] sampleStart in
  map Task.priority (tasks (converse sampleUUID sampleNow scenarioD s))
  = ["Medium"; "Medium"].
Proof. vm_compute. reflexivity. Qed.

(** The selection is tested for truthiness (285): a task whose identifier
    is the empty string cannot be updated, the flow starts over at step 3. *)
Example scenario_update_empty_id :
  let s := setTasks [Task.mk "" "Buy milk" "tomorrow 9am" "Low" None] sampleStart in
  map Task.priority (tasks (converse sampleUUID sampleNow scenarioD s)) = ["Low"].
Proof. vm_compute. reflexivity. Qed.

(** ** C7: the store invariant *)

Lemma NoDup_snoc {A} (l : list A) x : NoDup l -> ~ In x l -> NoDup (l ++ [x]).
Proof.
  induction l as [|a l IH]; simpl; intros Hl Hx.
  - constructor; [tauto | constructor].
  - inversion Hl as [|? ? Ha Hl']; subst. constructor.
    + rewrite in_app_iff. simpl. intros [H | [H | []]]; [tauto | subst; tauto].
    + apply IH; tauto.
Qed.

Lemma ids_merged sid p ts :
  PartialTask.id p = None ->
  map Task.id (map (fun task => if String.eqb (Task.id task) sid
                                then spread task p else task) ts)
  = map Task.id ts.
Proof.
  intros Hp. rewrite map_map. apply map_ext. intros t.
  destruct (String.eqb (Task.id t) sid); [|reflexivity].
  unfold spread. simpl. now rewrite Hp.
Qed.

Lemma ids_filtered (f : Task.t -> bool) ts x :
  In x (map Task.id (filter f ts)) -> In x (map Task.id ts).
Proof.
  rewrite !in_map_iff. intros (t & Ht & Hin). apply filter_In in Hin as [Hin _]. eauto.
Qed.

Lemma unique_filtered (f : Task.t -> bool) ts :
  UniqueIds ts -> UniqueIds (filter f ts).
Proof.
  unfold UniqueIds. induction ts as [|t ts IH]; simpl; intros H; [constructor|].
  inversion H as [|? ? Hn Hu]; subst.
  destruct (f t); simpl; [constructor|]; auto.
  intros Hin. apply Hn. eapply ids_filtered; eauto.
Qed.

Lemma store_invariant_turn randomUUID now value s :
  Injective randomUUID ->
  StoreInvariant randomUUID s ->
  StoreInvariant randomUUID (handleSend randomUUID now value s).
Proof.
  intros Hinj (Hu & Hv & Hf & Hd).
  destruct (handleSend_footprint randomUUID now value s) as (Fd & _ & Fp & Fs).
  set (s' := handleSend randomUUID now value s) in *.
  assert (Hd' : DraftValid (pendingTask s')) by (apply Fp; exact Hd).
  unfold StoreInvariant, Fresh.
  destruct Fs as [E | n Hn E | sid E | sid E]; rewrite E;
    (split; [|split; [|split; [|exact Hd']]]).
  - exact Hu.
  - exact Hv.
  - intros m Hm. apply Hf. lia.
  - unfold UniqueIds. rewrite map_app. simpl. apply NoDup_snoc; [exact Hu|].
    apply Hf. lia.
  - unfold ValidPriorities. apply Forall_app. split; [exact Hv|].
    constructor; [|constructor]. simpl. destruct Hd as [_ Hd].
    destruct (PartialTask.priority (pendingTask s)); [exact Hd | simpl; tauto].
  - intros m Hm. rewrite map_app, in_app_iff. simpl.
    intros [H | [H | []]].
    + apply (Hf m); [lia | exact H].
    + apply Hinj in H. lia.
  - unfold UniqueIds. rewrite ids_merged; [exact Hu | apply Hd].
  - destruct Hd as [Hid Hpr].
    unfold ValidPriorities in *. rewrite Forall_forall in Hv. apply Forall_forall.
    intros t Ht. apply in_map_iff in Ht as (t0 & <- & Ht0).
    destruct (String.eqb (Task.id t0) sid); [|exact (Hv t0 Ht0)].
    unfold spread. simpl.
    destruct (PartialTask.priority (pendingTask s)); [exact Hpr | exact (Hv t0 Ht0)].
  - intros m Hm. rewrite ids_merged by apply Hd. apply Hf. lia.
  - now apply unique_filtered.
  - unfold ValidPriorities in *. rewrite Forall_forall in Hv. apply Forall_forall.
    intros t Ht. apply filter_In in Ht as [Ht _]. exact (Hv t Ht).
  - intros m Hm Hin. apply (Hf m); [lia|]. eapply ids_filtered; eauto.
Qed.

(** C7 (as the code has it).  With a generator that never returns the same
    identifier twice: the store invariant -- distinct identifiers, priorities
    among High, Medium, Low -- holds at the first render and is kept by every
    event, as long as the identifiers still to be generated are not in the
    store.  Rehydration installs the stored task array as it is: after
    startup the store is that array, and the invariant holds when the array
    satisfies it. *)
Theorem store_invariant randomUUID now :
  Injective randomUUID -> StoreInvariantKept randomUUID now.
Proof.
  intros Hinj. split; [|split].
  - split; [constructor | split; [constructor | split]].
    + intros n _ [].
    + split; [reflexivity | simpl; tauto].
  - intros e s Hs. destruct e; simpl.
    + destruct s. exact Hs.
    + now apply store_invariant_turn.
    + now apply store_invariant_turn.
  - intros JSON_stringify JSON_parse stored ts Ht Hp.
    rewrite (mount_tasks _ _ _ _ _ _ Ht Hp). eexists. eexists.
    split; [reflexivity | split; [reflexivity|]].
    intros Hu Hv Hf. split; [exact Hu | split; [exact Hv | split]].
    + exact Hf.
    + split; [reflexivity | simpl; tauto].
Qed.

Lemma to_uint_nonnil n : Nat.to_uint n <> Decimal.Nil.
Proof.
  intros H. assert (E : n = 0%nat).
  { rewrite <- (DecimalNat.Unsigned.of_to n), H. reflexivity. }
  subst n. discriminate H.
Qed.

Lemma numberToString_inj m n : numberToString m = numberToString n -> m = n.
Proof.
  unfold numberToString. intros H.
  apply (f_equal DecimalString.NilZero.uint_of_string) in H.
  rewrite !DecimalString.NilZero.usu in H by apply to_uint_nonnil.
  injection H as H. now apply DecimalNat.Unsigned.to_uint_inj.
Qed.

Lemma sampleUUID_injective : Injective sampleUUID.
Proof.
  intros m n H. unfold sampleUUID in H. simpl in H.
  injection H as H. now apply numberToString_inj.
Qed.

Lemma store_invariant_witness :
  Injective sampleUUID /\ StoreInvariantKept sampleUUID sampleNow.
Proof.
  split; [exact sampleUUID_injective
        | exact (store_invariant sampleUUID sampleNow sampleUUID_injective)].
Defined.

(** The claim as worded fails at startup: a stored array with a repeated
    identifier and an unknown priority is installed unchecked. *)
Lemma store_invariant_counterexample :
  ~ InvariantAfterRehydration sampleUUID sampleNow Json.stringify Json.parse.
Proof.
  intros H.
  destruct (H (Some (Json.stringify sampleClashingTasks))
              (setTasks sampleClashingTasks sampleStart)
              (Some (Json.stringify sampleClashingTasks))) as [Hu _].
  - vm_compute. reflexivity.
  - vm_compute in Hu. inversion Hu as [|? ? Hn _]. apply Hn. left. reflexivity.
Qed.

(** ** C8: defaults at the save step *)

Lemma trimEnd_idem s : Js.trimEnd (Js.trimEnd s) = Js.trimEnd s.
Proof.
  induction s as [|c r IH]; [reflexivity|].
  simpl. destruct (Js.trimEnd r) as [|d r'] eqn:Hr.
  - destruct (Js.isWhiteSpace c) eqn:Hc; simpl; [reflexivity | now rewrite Hc].
  - change (Js.trimEnd (String c (String d r')))
      with (match Js.trimEnd (String d r') with
            | EmptyString => if Js.isWhiteSpace c then EmptyString else String c EmptyString
            | r0 => String c r0
            end).
    rewrite IH. reflexivity.
Qed.

Lemma trimStart_trimEnd s :
  match s with String c _ => Js.isWhiteSpace c = false | EmptyString => True end ->
  Js.trimStart (Js.trimEnd s) = Js.trimEnd s.
Proof.
  destruct s as [|c r]; [reflexivity|]. intros Hc. simpl.
  destruct (Js.trimEnd r); rewrite ?Hc; simpl; now rewrite Hc.
Qed.

(** Trimming twice is trimming once: a draft field stored by steps 1 and 2
    is not changed by the second [trim] of the save step. *)
Lemma trim_idem s : Js.trim (Js.trim s) = Js.trim s.
Proof.
  unfold Js.trim. rewrite trimStart_trimEnd.
  - apply trimEnd_idem.
  - pose proof (trimStart_head s) as H. destruct (Js.trimStart s); [exact I | exact H].
Qed.

(** C8 (as the code has it).  At the save step of the Add flow, answered by
    a text that starts with y, the store gains one task.  Its title is the
    placeholder "Untitled task" exactly when the draft has no title at all,
    and the trimmed draft title otherwise -- the draft title itself when it
    was entered through step 1 -- and the same holds of the due date with
    "No due date".  A draft field that is present but empty is kept empty. *)
Theorem save_defaults randomUUID now s text :
  savingYes s text = true -> MaterializedFields randomUUID now s text.
Proof.
  unfold savingYes, MaterializedFields. intros H.
  destruct (action s) eqn:Ha; try discriminate H.
  apply andb_prop in H as [H Hy]. apply andb_prop in H as [Hf Ht].
  apply Z.eqb_eq in Hf. unfold handleSend. rewrite Ht.
  open_state s. subst act stp.
  unfold routeInput, handleAddFlow.
  cbn [action flowStep Z.eqb Pos.eqb negb]. rewrite Hy.
  eexists. split; [reflexivity|]. cbn.
  repeat split.
  - intros entered ->. apply trim_idem.
  - intros entered ->. apply trim_idem.
Qed.

Lemma save_defaults_witness :
  savingYes sampleAtSave "yes" = true
  /\ MaterializedFields sampleUUID sampleNow sampleAtSave "yes".
Proof.
  split; [vm_compute; reflexivity
        | apply (save_defaults sampleUUID sampleNow sampleAtSave "yes");
          vm_compute; reflexivity].
Defined.

(** The claim as worded fails on a draft whose title is present and empty:
    the saved title is empty, not the placeholder. *)
Lemma save_defaults_counterexample : ~ PlaceholderWheneverBlank sampleUUID sampleNow.
Proof.
  intros H.
  destruct (H sampleBlankDraft "yes") as (task & Hts & Htitle & _);
    [vm_compute; reflexivity|].
  vm_compute in Hts. vm_compute in Htitle.
  injection Hts as Hts. subst task. discriminate Htitle.
Qed.

Example save_defaults_absent :
  map Task.title
    (tasks (handleSend sampleUUID sampleNow (Some "y")
              (setPendingTask PartialTask.empty sampleAtSave)))
  = ["Untitled task"].
Proof. vm_compute. reflexivity. Qed.

(** ** The reference codec reads back what it writes *)

Lemma app_assoc_s (a b c : string) : (a ++ b) ++ c = a ++ (b ++ c).
Proof. induction a as [|x a IH]; simpl; [reflexivity | now rewrite IH]. Qed.

Lemma app_nil_s (a : string) : a ++ "" = a.
Proof. induction a as [|x a IH]; simpl; [reflexivity | now rewrite IH]. Qed.

Lemma expect_app lit r : Json.expect lit (lit ++ r) = Some r.
Proof.
  induction lit as [|a lit IH]; simpl; [reflexivity|].
  now rewrite Ascii.eqb_refl.
Qed.

Lemma readStringBody_char c r :
  Json.readStringBody (Json.escapeChar c ++ r) = Json.consTo c (Json.readStringBody r).
Proof. each_char c; reflexivity. Qed.

Lemma readStringBody_escape s rest :
  Json.readStringBody (Json.escape s ++ String "034"%char rest) = Some (s, rest).
Proof.
  induction s as [|c s IH]; [reflexivity|].
  simpl Json.escape. rewrite app_assoc_s, readStringBody_char, IH. reflexivity.
Qed.

Lemma readString_quote s rest :
  Json.readString (Json.quote s ++ rest) = Some (s, rest).
Proof.
  unfold Json.readString, Json.quote. rewrite !app_assoc_s. simpl.
  apply readStringBody_escape.
Qed.

Lemma readNullable_value v rest :
  Json.readNullable ((match v with Some x => Json.quote x | None => "null" end) ++ rest)
  = Some (v, rest).
Proof.
  unfold Json.readNullable. destruct v as [x|].
  - replace (Json.expect "null" (Json.quote x ++ rest)) with (@None string)
      by reflexivity.
    now rewrite readString_quote.
  - now rewrite expect_app.
Qed.

Lemma readTask_stringify task rest :
  Json.readTask (Json.stringifyTask task ++ rest) = Some (task, rest).
Proof.
  destruct task as [tid ttl tdue tpri trem].
  unfold Json.readTask, Json.stringifyTask, Json.member, DQ.
  cbn [Task.id Task.title Task.due Task.priority Task.reminder].
  rewrite !app_assoc_s.
  cbn -[Json.readString Json.readNullable Json.quote].
  rewrite readString_quote.
  cbn -[Json.readString Json.readNullable Json.quote].
  rewrite readString_quote.
  cbn -[Json.readString Json.readNullable Json.quote].
  rewrite readString_quote.
  cbn -[Json.readString Json.readNullable Json.quote].
  rewrite readString_quote.
  cbn -[Json.readString Json.readNullable Json.quote].
  rewrite readNullable_value.
  reflexivity.
Qed.

Lemma join_tasks task ts :
  Js.join "," (map Json.stringifyTask (task :: ts)) = Json.stringifyTask task ++ writeMore ts.
Proof.
  revert task. induction ts as [|t ts IH]; intros task.
  - simpl. now rewrite app_nil_s.
  - change (Js.join "," (map Json.stringifyTask (task :: t :: ts)))
      with (Json.stringifyTask task ++ "," ++ Js.join "," (map Json.stringifyTask (t :: ts))).
    now rewrite IH.
Qed.

Lemma readMore_comma fuel rest :
  Json.readMore (S fuel) (String ","%char rest)
  = match Json.readTask rest with
    | Some (task, r') =>
        match Json.readMore fuel r' with
        | Some ts => Some (task :: ts)
        | None => None
        end
    | None => None
    end.
Proof. reflexivity. Qed.

Lemma readMore_write ts : forall fuel,
  (List.length ts < fuel)%nat ->
  Json.readMore fuel (writeMore ts ++ "]") = Some ts.
Proof.
  induction ts as [|t ts IH]; intros fuel Hf.
  - destruct fuel; [lia | reflexivity].
  - destruct fuel as [|fuel]; [simpl in Hf; lia|].
    assert (E : writeMore (t :: ts) ++ "]"
                = String ","%char (Json.stringifyTask t ++ (writeMore ts ++ "]"))).
    { transitivity (String ","%char ((Json.stringifyTask t ++ writeMore ts) ++ "]"));
        [reflexivity | now rewrite app_assoc_s]. }
    rewrite E, readMore_comma, readTask_stringify, IH; [reflexivity | simpl in Hf; lia].
Qed.

Lemma length_app_s (a b : string) :
  String.length (a ++ b) = (String.length a + String.length b)%nat.
Proof. induction a; simpl; auto. Qed.

Lemma writeMore_length ts : (List.length ts <= String.length (writeMore ts))%nat.
Proof.
  induction ts as [|t ts IH]; simpl; [lia|].
  rewrite length_app_s. lia.
Qed.

Lemma stringifyTask_head task :
  exists r, Json.stringifyTask task = String "{"%char (String "034"%char r).
Proof. unfold Json.stringifyTask, Json.member. simpl. eauto. Qed.

Lemma readTasks_first a b r :
  Json.readTasks (String "["%char (String a (String b r)))
  = match Json.readTask (String a (String b r)) with
    | Some (task, r') =>
        match Json.readMore (S (String.length r')) r' with
        | Some ts => Some (task :: ts)
        | None => None
        end
    | None => None
    end.
Proof. reflexivity. Qed.

Lemma readTasks_stringify ts : Json.readTasks (Json.stringify ts) = Some ts.
Proof.
  unfold Json.stringify. destruct ts as [|t ts]; [reflexivity|].
  rewrite join_tasks, app_assoc_s.
  destruct (stringifyTask_head t) as (r & Hr).
  assert (E : "[" ++ Json.stringifyTask t ++ writeMore ts ++ "]"
              = String "["%char (String "{"%char (String "034"%char
                                                   (r ++ writeMore ts ++ "]")))).
  { rewrite Hr. reflexivity. }
  rewrite E, readTasks_first.
  replace (String "{"%char (String "034"%char (r ++ writeMore ts ++ "]")))
    with (Json.stringifyTask t ++ (writeMore ts ++ "]")) by (rewrite Hr; reflexivity).
  rewrite readTask_stringify, readMore_write; [reflexivity|].
  rewrite length_app_s. pose proof (writeMore_length ts). simpl. lia.
Qed.

(** The reference codec satisfies the law asked of the platform. *)
Lemma reference_codec : CodecLaw Json.stringify Json.parse.
Proof.
  intros ts. split.
  - unfold Json.parse. now rewrite readTasks_stringify.
  - unfold Json.stringify. discriminate.
Qed.

(** ** C9: restart *)

(** C9.  For every task store, with a platform codec that reads back what it
    writes (well-formed stored data): the text the persist effect stores,
    given to the load effect of a new process, yields a task list equal to
    the original -- same length, same order, every field of every task --
    and the slot holds that same text once the startup effects have
    settled. *)
Theorem restart_roundtrip randomUUID now JSON_stringify JSON_parse s :
  CodecLaw JSON_stringify JSON_parse ->
  RestartKeepsStore randomUUID now JSON_stringify JSON_parse s.
Proof.
  intros Hc. destruct (Hc (tasks s)) as [Hp Hne].
  unfold RestartKeepsStore, persistEffect. cbv zeta.
  exists (setTasks (tasks s) (initialState randomUUID now)). split; [|reflexivity].
  apply mount_tasks; [|exact Hp].
  destruct (JSON_stringify (tasks s)); [congruence | reflexivity].
Qed.

Lemma restart_roundtrip_witness :
  CodecLaw Json.stringify Json.parse
  /\ RestartKeepsStore sampleUUID sampleNow Json.stringify Json.parse sampleTwoTasks.
Proof.
  split; [exact reference_codec
        | exact (restart_roundtrip sampleUUID sampleNow Json.stringify Json.parse
                   sampleTwoTasks reference_codec)].
Defined.

Example restart_two_tasks :
  option_map (fun m => tasks (fst m))
    (mount sampleUUID sampleNow Json.stringify Json.parse
       (persistEffect Json.stringify sampleTwoTasks))
  = Some (tasks sampleTwoTasks).
Proof. vm_compute. reflexivity. Qed.

(** ** Reading a task number *)

(** X1.  [parseIndex] reads the front of the input only.  After any leading
    white space, a numeral [ds] below 2^53, with or without [#] before it,
    followed by any text that does not go on with a digit, is read as the
    number [ds] denotes, less one: leading zeros count for nothing, and what
    follows the digits is ignored.  Below 2^53 the Numbers that
    [Number.parseInt] and the subtraction return are these integers
    themselves, with no rounding. *)
Theorem parseIndex_reads_front ws ds rest :
  onlyWhiteSpace ws = true -> numeral ds = true -> noDigitAhead rest = true ->
  numeralValue ds < 2 ^ 53 ->
  parseIndex (ws ++ ds ++ rest) = Some (numeralValue ds - 1)
  /\ parseIndex (ws ++ "#" ++ ds ++ rest) = Some (numeralValue ds - 1)
  /\ doubleIndex (numeralValue ds) = Some (numeralValue ds - 1).
Proof.
  intros Hws Hds Hrest Hsmall.
  destruct (parseIndex_front ws ds rest Hws Hds Hrest) as [Hplain Hhash].
  split; [exact Hplain | split; [exact Hhash|]].
  unfold doubleIndex. rewrite (toDouble_exact _ Hsmall). apply toDouble_exact. lia.
Qed.

Lemma parseIndex_reads_front_witness :
  onlyWhiteSpace "  " = true /\ numeral "012" = true /\ noDigitAhead "th, please" = true
  /\ numeralValue "012" = 12
  /\ parseIndex ("  " ++ "012" ++ "th, please") = Some 11
  /\ parseIndex ("  " ++ "#" ++ "012" ++ "th, please") = Some 11
  /\ doubleIndex (numeralValue "012") = Some 11.
Proof.
  split; [reflexivity | split; [reflexivity | split; [reflexivity | split; [reflexivity|]]]].
  apply (parseIndex_reads_front "  " "012" "th, please"); reflexivity.
Defined.

Lemma numberToString_numeral n :
  numeral (numberToString n) = true /\ numeralValue (numberToString n) = Z.of_nat n.
Proof.
  unfold numberToString, numeral, numeralValue.
  pose proof (to_uint_nonnil n) as Hn.
  replace (NilZero.string_of_uint (Nat.to_uint n))
    with (NilEmpty.string_of_uint (Nat.to_uint n))
    by (destruct (Nat.to_uint n); [congruence | reflexivity..]).
  rewrite NilEmpty.usu, Unsigned.of_to, allDigits_uint, andb_true_r. split; [|reflexivity].
  destruct (Nat.to_uint n); [congruence | reflexivity..].
Qed.

Lemma numberedList_lines ts : numberedList ts = Js.join NL (mapi listingLine ts).
Proof. reflexivity. Qed.

(** X2.  The numbered listing of the Update and Delete flows labels its
    tasks so that each label selects its own task: the number of the line at
    position [index], typed alone, typed after [#], or sent as the whole line
    as listed, is read by [parseIndex] as [index]. *)
Theorem listing_label_selects task index :
  parseIndex (numberToString (index + 1)) = Some (Z.of_nat index)
  /\ parseIndex ("#" ++ numberToString (index + 1)) = Some (Z.of_nat index)
  /\ parseIndex (listingLine task index) = Some (Z.of_nat index).
Proof.
  destruct (numberToString_numeral (index + 1)) as [Hn Hv].
  assert (Hi : numeralValue (numberToString (index + 1)) - 1 = Z.of_nat index) by lia.
  rewrite <- Hi. split; [|split].
  - now apply parseIndex_numeral.
  - now apply parseIndex_hash_numeral.
  - exact (proj2 (parseIndex_front "" (numberToString (index + 1))
                    (" " ++ Task.title task ++ " — Due: " ++ Task.due task
                     ++ " — Priority: " ++ Task.priority task) eq_refl Hn eq_refl)).
Qed.

Lemma label_spoken k : Js.trim (labelOf k) = labelOf k /\ spoken (labelOf k) = true.
Proof.
  destruct (numberToString_numeral (k + 1)) as [Hn _].
  unfold spoken, labelOf. change ("#" ++ numberToString (k + 1))
    with (String "#"%char (numberToString (k + 1))).
  rewrite (trim_hash_numeral _ Hn). split; reflexivity.
Qed.

Lemma label_index k : parseIndex (labelOf k) = Some (Z.of_nat k).
Proof.
  destruct (numberToString_numeral (k + 1)) as [Hn Hv].
  unfold labelOf. change ("#" ++ numberToString (k + 1))
    with (String "#"%char (numberToString (k + 1))).
  rewrite (parseIndex_hash_numeral _ Hn). f_equal. lia.
Qed.

(** ** Reading a yes or a no *)

(** X3.  A yes/no answer is read off its first letter.  For a small letter
    [k], the test [userInput.trim().toLowerCase().startsWith(k)] of the
    confirmation steps holds exactly when the first character of the input
    that is no white space is [k], small or capital. *)
Theorem answer_reads_first_letter k text :
  lowerLetter k = true ->
  answerStartsWith text (String k "") = firstLetterIs k text.
Proof.
  intros Hk. unfold answerStartsWith, firstLetterIs, Js.startsWith.
  pose proof (trim_head text) as H.
  destruct (Js.trimStart text) as [|c r].
  - rewrite H. reflexivity.
  - destruct H as (r' & ->). simpl Js.toLowerCase. rewrite prefix_cons.
    rewrite (sameLetter_lower c k Hk).
    destruct (Js.toLowerCase r'); simpl; now rewrite andb_true_r.
Qed.

Lemma answer_reads_first_letter_witness :
  lowerLetter "y" = true
  /\ answerStartsWith "  Yeah, go on" "y" = firstLetterIs "y" "  Yeah, go on".
Proof.
  split; [reflexivity | apply (answer_reads_first_letter "y"); reflexivity].
Defined.

(** ** The store in a turn *)

Lemma handleAddFlow_store randomUUID now r text q :
  tasks (handleAddFlow randomUUID now r text q) = tasks q
  \/ (flowStep r = 6 /\ answerStartsWith text "y" = true
      /\ exists task, tasks (handleAddFlow randomUUID now r text q)
                      = (tasks r ++ [task])%list).
Proof.
  unfold handleAddFlow. destruct q. flow_cases;
    first [left; reflexivity
          | right; split; [now apply Z.eqb_eq
                          | split; [reflexivity | eexists; reflexivity]]].
Qed.

Lemma handleUpdateFlow_store randomUUID now r text q :
  tasks (handleUpdateFlow randomUUID now r text q) = tasks q
  \/ (flowStep r = 5 /\ answerStartsWith text "y" = true
      /\ exists sid, selectedTaskId r = Some sid
           /\ tasks (handleUpdateFlow randomUUID now r text q)
              = map (fun task => if String.eqb (Task.id task) sid
                                 then spread task (pendingTask r) else task) (tasks q)).
Proof.
  unfold handleUpdateFlow, previewDraft. destruct q. flow_cases;
    first [left; reflexivity
          | right; split; [now apply Z.eqb_eq
                          | split; [reflexivity | eexists; split; reflexivity]]].
Qed.

Lemma handleDeleteFlow_store randomUUID now r text q :
  tasks (handleDeleteFlow randomUUID now r text q) = tasks q
  \/ (flowStep r = 2 /\ answerStartsWith text "y" = true
      /\ exists sid, selectedTaskId r = Some sid
           /\ tasks (handleDeleteFlow randomUUID now r text q)
              = filter (fun task => negb (String.eqb (Task.id task) sid)) (tasks q)).
Proof.
  unfold handleDeleteFlow. destruct q. flow_cases;
    first [left; reflexivity
          | right; split; [now apply Z.eqb_eq
                          | split; [reflexivity | eexists; split; reflexivity]]].
Qed.

Lemma handleViewFlow_store randomUUID now r q :
  tasks (handleViewFlow randomUUID now r q) = tasks q.
Proof. unfold handleViewFlow. destruct q. flow_cases; reflexivity. Qed.

Lemma routeInput_store randomUUID now r text q :
  tasks q = tasks r ->
  tasks (routeInput randomUUID now r text q) = tasks r
  \/ (atConfirmation r = true /\ answerStartsWith text "y" = true
      /\ StoreChange r (routeInput randomUUID now r text q)).
Proof.
  intros Hq. unfold routeInput, atConfirmation, StoreChange.
  destruct (action r) eqn:Ha.
  - left. flow_cases.
    + destruct (handleAddFlow_store randomUUID now r ""
                  ((setAction add ;; setFlowStep 0 ;; setButtons []) q))
        as [E | (_ & Hy & _)]; [|discriminate Hy].
      unfold andThen in *. rewrite E. destruct q; exact Hq.
    + destruct (handleUpdateFlow_store randomUUID now r ""
                  ((setAction update ;; setFlowStep 0 ;; setButtons []) q))
        as [E | (_ & Hy & _)]; [|discriminate Hy].
      unfold andThen in *. rewrite E. destruct q; exact Hq.
    + destruct (handleDeleteFlow_store randomUUID now r ""
                  ((setAction delete ;; setFlowStep 0 ;; setButtons []) q))
        as [E | (_ & Hy & _)]; [|discriminate Hy].
      unfold andThen in *. rewrite E. destruct q; exact Hq.
    + unfold andThen. rewrite handleViewFlow_store. destruct q; exact Hq.
    + destruct q; exact Hq.
  - destruct (handleAddFlow_store randomUUID now r text q) as [E | (Hf & Hy & Ht)].
    + left. congruence.
    + right. rewrite Hf. auto.
  - destruct (handleUpdateFlow_store randomUUID now r text q)
      as [E | (Hf & Hy & sid & Hs & Ht)].
    + left. congruence.
    + right. rewrite Hf. split; [reflexivity | split; [exact Hy|]].
      exists sid. rewrite <- Hq. auto.
  - destruct (handleDeleteFlow_store randomUUID now r text q)
      as [E | (Hf & Hy & sid & Hs & Ht)].
    + left. congruence.
    + right. rewrite Hf. split; [reflexivity | split; [exact Hy|]].
      exists sid. rewrite <- Hq. auto.
  - left. rewrite handleViewFlow_store. exact Hq.
Qed.

Lemma store_turn randomUUID now value s :
  let s' := handleSend randomUUID now value s in
  tasks s' = tasks s
  \/ (atConfirmation s = true
      /\ answerStartsWith (messageTextOf value s) "y" = true
      /\ StoreChange s s').
Proof.
  cbv zeta. unfold handleSend. fold (messageTextOf value s).
  destruct (negb (Js.truthy (messageTextOf value s))); [now left|].
  apply (routeInput_store randomUUID now s (messageTextOf value s)
           (logUser randomUUID now (messageTextOf value s) s)).
  destruct s; reflexivity.
Qed.

Lemma handleSend_text randomUUID now value s :
  handleSend randomUUID now value s
  = handleSend randomUUID now (Some (messageTextOf value s)) s.
Proof. destruct value; reflexivity. Qed.

Lemma store_after_yes randomUUID now s text :
  Js.truthy text = true -> atConfirmation s = true -> answerStartsWith text "y" = true ->
  StoreAfterYes s (handleSend randomUUID now (Some text) s).
Proof.
  intros Ht Hc Hy. unfold handleSend. rewrite Ht. cbn [negb].
  unfold atConfirmation in Hc. unfold StoreAfterYes.
  destruct s as [ms inp ts act stp draft sel fld btns dr].
  cbn [action flowStep selectedTaskId tasks pendingTask] in *.
  destruct act; try discriminate Hc; apply Z.eqb_eq in Hc; subst stp;
    unfold routeInput, handleAddFlow, handleUpdateFlow, handleDeleteFlow;
    cbn [action flowStep Z.eqb Pos.eqb negb selectedTaskId tasks pendingTask].
  - rewrite Hy. eexists. reflexivity.
  - destruct sel as [sid|]; [|reflexivity].
    destruct (Js.truthy sid); cbn [negb]; [rewrite Hy|]; reflexivity.
  - destruct sel as [sid|]; [|reflexivity].
    destruct (Js.truthy sid); cbn [negb]; [rewrite Hy|]; reflexivity.
Qed.

(** X4.  What a turn does to the task store.  At a final confirmation step
    (Add step 6, Update step 5, Delete step 2), a submission that is not
    empty and starts with y changes the store in the way of the flow: the
    Add flow appends the task made of the draft; the Update flow merges the
    draft into the tasks that carry the selected identifier and the Delete
    flow removes those tasks, unless the selection is [null] or the empty
    string, which leaves the store alone.  Every other turn leaves the store
    as it was. *)
Theorem store_lifecycle randomUUID now value s :
  let text := messageTextOf value s in
  let s' := handleSend randomUUID now value s in
  if Js.truthy text && atConfirmation s && answerStartsWith text "y"
  then StoreAfterYes s s'
  else tasks s' = tasks s.
Proof.
  cbv zeta. rewrite (handleSend_text randomUUID now value s).
  set (text := messageTextOf value s).
  destruct (Js.truthy text) eqn:Ht; cbn [andb].
  2:{ unfold handleSend. now rewrite Ht. }
  destruct (atConfirmation s) eqn:Hc, (answerStartsWith text "y") eqn:Hy; cbn [andb];
    try (destruct (store_turn randomUUID now (Some text) s) as [E | (Hc' & Hy' & _)];
         [exact E | simpl in Hy'; congruence]).
  now apply store_after_yes.
Qed.

(** X5.  Every non-empty answer at a final confirmation step (Add step 6,
    Update step 5, Delete step 2) ends the flow: the session is fully reset
    whatever the answer is, and unless the answer starts with y the store is
    unchanged. *)
Theorem confirmation_ends_flow randomUUID now s text :
  atConfirmation s = true -> Js.truthy text = true ->
  let s' := handleSend randomUUID now (Some text) s in
  FullyReset s'
  /\ (answerStartsWith text "y" = false -> tasks s' = tasks s).
Proof.
  intros Hc Ht. cbv zeta. split.
  - unfold handleSend. rewrite Ht. unfold atConfirmation in Hc. open_state s.
    destruct act; try discriminate Hc; apply Z.eqb_eq in Hc; subst stp;
      unfold routeInput, handleAddFlow, handleUpdateFlow, handleDeleteFlow;
      cbn [action flowStep Z.eqb Pos.eqb negb selectedTaskId].
    + destruct (answerStartsWith text "y"); repeat split.
    + destruct sel as [[|c sid]|]; cbn [Js.truthy negb];
        try destruct (answerStartsWith text "y"); repeat split.
    + destruct sel as [[|c sid]|]; cbn [Js.truthy negb];
        try destruct (answerStartsWith text "y"); repeat split.
  - intros Hy.
    destruct (store_turn randomUUID now (Some text) s) as [E | (_ & Hy' & _)];
      [exact E|].
    simpl in Hy'. congruence.
Qed.

Lemma confirmation_ends_flow_witness :
  atConfirmation sampleAtSave = true /\ Js.truthy "maybe later" = true
  /\ FullyReset (handleSend sampleUUID sampleNow (Some "maybe later") sampleAtSave)
  /\ tasks (handleSend sampleUUID sampleNow (Some "maybe later") sampleAtSave)
     = tasks sampleAtSave.
Proof.
  assert (Hc : atConfirmation sampleAtSave = true) by (vm_compute; reflexivity).
  destruct (confirmation_ends_flow sampleUUID sampleNow sampleAtSave "maybe later"
              Hc eq_refl) as [Hr Hk].
  split; [exact Hc | split; [reflexivity | split; [exact Hr | apply Hk; reflexivity]]].
Defined.

(** ** Opening a flow *)

Lemma flow_opens randomUUID now s text a :
  Idle s -> Js.truthy text = true -> intentOf text = Some a ->
  FlowOpened a s (handleSend randomUUID now (Some text) s).
Proof.
  intros Hi Ht Ha.
  pose proof (route_idle randomUUID now s text Hi Ht) as H.
  unfold RoutedAs in H. rewrite Ha in H. rewrite H.
  pose proof (startFlow_opens randomUUID now a (logUser randomUUID now text s)) as Ho.
  unfold FlowOpened in *.
  replace (tasks (logUser randomUUID now text s)) with (tasks s) in Ho
    by (destruct s; reflexivity).
  exact Ho.
Qed.

(** X6.  At Idle, an input in which a keyword is found opens the flow of
    that keyword in the same turn and leaves the store alone.  Add is then at
    step 1 with no buttons; Update and Delete are at step 1 with no buttons
    when the store holds a task, and are over at once, the session reset,
    when it is empty; View is over at once. *)
Theorem flow_opening randomUUID now s text a :
  Idle s -> Js.truthy text = true -> intentOf text = Some a ->
  FlowOpened a s (handleSend randomUUID now (Some text) s).
Proof. apply flow_opens. Qed.

Lemma flow_opening_witness :
  Idle sampleStart /\ Js.truthy "Delete Task" = true
  /\ intentOf "Delete Task" = Some delete
  /\ FlowOpened delete sampleStart
       (handleSend sampleUUID sampleNow (Some "Delete Task") sampleStart).
Proof.
  assert (Hi : Idle sampleStart) by (split; reflexivity).
  split; [exact Hi | split; [reflexivity | split; [reflexivity|]]].
  apply (flow_opening sampleUUID sampleNow sampleStart "Delete Task" delete Hi);
    reflexivity.
Defined.

(** X7.  The View flow.  At Idle, an input routed to View leaves the store
    unchanged and the session fully reset, and appends to the log the
    submission followed by the notice that there are no tasks, or by the
    listing of every task of the store, in order, and the closing question. *)
Theorem view_flow randomUUID now s text :
  Idle s -> Js.truthy text = true -> intentOf text = Some view ->
  let s' := handleSend randomUUID now (Some text) s in
  tasks s' = tasks s /\ FullyReset s'
  /\ appended s s' ((user, text) :: viewAnswer (tasks s)).
Proof.
  intros Hi Ht Ha. cbv zeta.
  pose proof (route_idle randomUUID now s text Hi Ht) as H.
  unfold RoutedAs in H. rewrite Ha in H. rewrite H. clear H.
  destruct Hi as [Hact Hstp].
  unfold appended. destruct s as [ms inp ts act stp draft sel fld btns dr].
  simpl in Hact, Hstp. subst act stp. cbn [tasks]. destruct ts as [|t ts].
  - split; [reflexivity | split; [repeat split|]].
    cbn. rewrite !map_app. cbn. now rewrite <- !app_assoc.
  - split; [reflexivity | split; [repeat split|]].
    set (listing := "Here is what is on your list:" ++ NL
                    ++ Js.join (NL ++ NL) (map viewBlock (t :: ts))).
    set (closing := "Anything else I can help with? Add, update, delete, or view tasks.").
    replace (messages (startFlow randomUUID now view
               (logUser randomUUID now text
                  (mkState ms inp (t :: ts) idle 0 draft sel fld btns dr))))
      with (((ms ++ [Message.mk (randomUUID dr) user text (now dr)])
             ++ [Message.mk (randomUUID (S dr)) assistant listing (now (S dr))])
            ++ [Message.mk (randomUUID (S (S dr))) assistant closing (now (S (S dr)))])%list
      by reflexivity.
    rewrite !map_app. cbn [map Message.role Message.content viewAnswer].
    rewrite <- !app_assoc. reflexivity.
Qed.

Lemma view_flow_witness :
  let s' := handleSend sampleUUID sampleNow (Some "View Tasks") sampleTwoTasks in
  Idle sampleTwoTasks /\ intentOf "View Tasks" = Some view
  /\ tasks s' = tasks sampleTwoTasks /\ FullyReset s'
  /\ appended sampleTwoTasks s' ((user, "View Tasks") :: viewAnswer (tasks sampleTwoTasks)).
Proof.
  intros s'.
  assert (Hi : Idle sampleTwoTasks) by (split; vm_compute; reflexivity).
  split; [exact Hi | split; [reflexivity|]].
  exact (view_flow sampleUUID sampleNow sampleTwoTasks "View Tasks" Hi eq_refl eq_refl).
Defined.

(** ** The log *)

(** The queued writes, one at a time. *)
Lemma andThen_step (P : State -> Prop) (f g : Update) q :
  P (g (f q)) -> P ((f ;; g) q).
Proof. exact (fun H => H). Qed.

Lemma skip_step (P : State -> Prop) q : P q -> P (skip q).
Proof. exact (fun H => H). Qed.

Lemma withUUID_step randomUUID (P : State -> Prop) k q :
  P (k (randomUUID (draws q)) (tick q)) -> P (withUUID randomUUID k q).
Proof. exact (fun H => H). Qed.

Lemma showIdleOptions_step randomUUID now (P : State -> Prop) q :
  P (resetConversation
       (pushMessage randomUUID now assistant
          "Anything else I can help with? Add, update, delete, or view tasks." q)) ->
  P (showIdleOptions randomUUID now q).
Proof. exact (fun H => H). Qed.

Lemma previewDraft_step randomUUID now (P : State -> Prop) intro current draft q :
  P (setFlowStep 5
       (setButtons saveButtons
          (pushMessage randomUUID now assistant
             (intro ++ NL ++ Js.join NL (summaryParts (spread current draft)) ++ NL
              ++ "Save it? (yes/no)")
             (setPendingTask draft q)))) ->
  P (previewDraft randomUUID now intro current draft q).
Proof. exact (fun H => H). Qed.

(** One step of a proof that follows the queued writes of a handler: an
    assistant message pushed, or a write that leaves the log alone. *)
Ltac log_step push keep :=
  match goal with
  | |- _ ((_ ;; _) _) => apply andThen_step
  | |- _ (skip _) => apply skip_step
  | |- _ (withUUID _ _ _) => apply withUUID_step; cbv beta zeta
  | |- _ (showIdleOptions _ _ _) => apply showIdleOptions_step
  | |- _ (previewDraft _ _ _ _ _ _) => apply previewDraft_step
  | |- _ (pushMessage _ _ assistant _ _) => apply push
  | |- _ (?f ?x) =>
      apply (keep x);
      [generalize x; intros; reflexivity | generalize x; intros; simpl; lia |]
  end.

Ltac log_steps push keep := repeat log_step push keep.

(** A property [P] of the queued state that depends on the log and the draw
    counter only, and that an assistant message preserves, is preserved by
    the handlers. *)
Lemma handleAddFlow_log randomUUID now (P : State -> Prop) r text q :
  (forall content x, P x -> P (pushMessage randomUUID now assistant content x)) ->
  (forall x y, messages y = messages x -> (draws x <= draws y)%nat -> P x -> P y) ->
  P q -> P (handleAddFlow randomUUID now r text q).
Proof.
  intros P_push P_keep H. unfold handleAddFlow.
  flow_cases; log_steps P_push P_keep; exact H.
Qed.

Lemma handleUpdateFlow_log randomUUID now (P : State -> Prop) r text q :
  (forall content x, P x -> P (pushMessage randomUUID now assistant content x)) ->
  (forall x y, messages y = messages x -> (draws x <= draws y)%nat -> P x -> P y) ->
  P q -> P (handleUpdateFlow randomUUID now r text q).
Proof.
  intros P_push P_keep H. unfold handleUpdateFlow.
  flow_cases; log_steps P_push P_keep; exact H.
Qed.

Lemma handleDeleteFlow_log randomUUID now (P : State -> Prop) r text q :
  (forall content x, P x -> P (pushMessage randomUUID now assistant content x)) ->
  (forall x y, messages y = messages x -> (draws x <= draws y)%nat -> P x -> P y) ->
  P q -> P (handleDeleteFlow randomUUID now r text q).
Proof.
  intros P_push P_keep H. unfold handleDeleteFlow.
  flow_cases; log_steps P_push P_keep; exact H.
Qed.

Lemma handleViewFlow_log randomUUID now (P : State -> Prop) r q :
  (forall content x, P x -> P (pushMessage randomUUID now assistant content x)) ->
  (forall x y, messages y = messages x -> (draws x <= draws y)%nat -> P x -> P y) ->
  P q -> P (handleViewFlow randomUUID now r q).
Proof.
  intros P_push P_keep H. unfold handleViewFlow.
  flow_cases; log_steps P_push P_keep; exact H.
Qed.

Lemma routeInput_log randomUUID now (P : State -> Prop) r text q :
  (forall content x, P x -> P (pushMessage randomUUID now assistant content x)) ->
  (forall x y, messages y = messages x -> (draws x <= draws y)%nat -> P x -> P y) ->
  P q -> P (routeInput randomUUID now r text q).
Proof.
  intros P_push P_keep H. unfold routeInput. destruct (action r).
  - flow_cases.
    + apply andThen_step. apply handleAddFlow_log; [exact P_push | exact P_keep |].
      log_steps P_push P_keep. exact H.
    + apply andThen_step. apply handleUpdateFlow_log; [exact P_push | exact P_keep |].
      log_steps P_push P_keep. exact H.
    + apply andThen_step. apply handleDeleteFlow_log; [exact P_push | exact P_keep |].
      log_steps P_push P_keep. exact H.
    + apply andThen_step. apply handleViewFlow_log; [exact P_push | exact P_keep |].
      log_steps P_push P_keep. exact H.
    + log_steps P_push P_keep. exact H.
  - apply handleAddFlow_log; assumption.
  - apply handleUpdateFlow_log; assumption.
  - apply handleDeleteFlow_log; assumption.
  - apply handleViewFlow_log; assumption.
Qed.

Lemma answers_push randomUUID now base content x :
  Answers base x -> Answers base (pushMessage randomUUID now assistant content x).
Proof.
  intros (added & E & Hr). destruct x as [ms inp ts act stp draft sel fld btns dr].
  simpl in E. subst ms.
  exists (added ++ [Message.mk (randomUUID dr) assistant content (now dr)])%list.
  split; [cbn; now rewrite app_assoc|].
  apply Forall_app. split; [exact Hr | repeat constructor].
Qed.

Lemma answers_keep base x y :
  messages y = messages x -> (draws x <= draws y)%nat -> Answers base x -> Answers base y.
Proof. unfold Answers. intros -> _ H. exact H. Qed.

Lemma log_turn randomUUID now value s :
  Js.truthy (messageTextOf value s) = true ->
  exists m answers,
    messages (handleSend randomUUID now value s) = (messages s ++ m :: answers)%list
    /\ Message.role m = user /\ Message.content m = messageTextOf value s
    /\ Forall (fun a => Message.role a = assistant) answers.
Proof.
  intros Ht. unfold handleSend. fold (messageTextOf value s).
  set (text := messageTextOf value s) in *. rewrite Ht. cbn [negb].
  set (m := Message.mk (randomUUID (draws s)) user text (now (draws s))).
  assert (H : Answers (messages s ++ [m])
                (routeInput randomUUID now s text (logUser randomUUID now text s))).
  { apply routeInput_log.
    - intros content x. apply answers_push.
    - intros x y. apply answers_keep.
    - exists []. split; [|constructor]. destruct s. cbn. now rewrite app_nil_r. }
  destruct H as (added & E & Hr). exists m, added.
  split; [|split; [reflexivity | split; [reflexivity | exact Hr]]].
  rewrite <- app_assoc in E. exact E.
Qed.

(** X8.  A turn only appends to the log.  It leaves the state as it is (a
    blank submission), or the log after the turn is the log before it, then
    the submitted text as a user message, then messages of the assistant; no
    earlier message is changed or removed. *)
Theorem log_append_only randomUUID now value s :
  LogExtended (messageTextOf value s) s (handleSend randomUUID now value s).
Proof.
  destruct (Js.truthy (messageTextOf value s)) eqn:Ht.
  - right. now apply log_turn.
  - left. unfold handleSend. fold (messageTextOf value s). now rewrite Ht.
Qed.

Lemma logIds_push randomUUID now role content x :
  Injective randomUUID ->
  LogIds randomUUID x -> LogIds randomUUID (pushMessage randomUUID now role content x).
Proof.
  intros Hinj [Hnd Hids]. destruct x as [ms inp ts act stp draft sel fld btns dr].
  unfold LogIds in *. simpl in *. split.
  - rewrite map_app. simpl. apply NoDup_snoc; [exact Hnd|].
    intros Hin. apply in_map_iff in Hin as (m & Hm & Hin).
    destruct (Hids m Hin) as (n & Hn & E). rewrite E in Hm.
    apply Hinj in Hm. lia.
  - intros m Hin. apply in_app_iff in Hin as [Hin | [<- | []]].
    + destruct (Hids m Hin) as (n & Hn & E). exists n. split; [lia | exact E].
    + exists dr. split; [lia | reflexivity].
Qed.

Lemma logIds_keep randomUUID x y :
  messages y = messages x -> (draws x <= draws y)%nat ->
  LogIds randomUUID x -> LogIds randomUUID y.
Proof.
  unfold LogIds. intros -> Hd [Hnd Hids]. split; [exact Hnd|].
  intros m Hin. destruct (Hids m Hin) as (n & Hn & E). exists n. split; [lia | exact E].
Qed.

Lemma logIds_turn randomUUID now value s :
  Injective randomUUID ->
  LogIds randomUUID s -> LogIds randomUUID (handleSend randomUUID now value s).
Proof.
  intros Hinj H. unfold handleSend. fold (messageTextOf value s).
  set (text := messageTextOf value s).
  destruct (negb _); [exact H|].
  unfold andThen. apply (routeInput_log randomUUID now (LogIds randomUUID)).
  - intros content x. now apply logIds_push.
  - intros x y. apply logIds_keep.
  - apply (logIds_keep randomUUID (pushMessage randomUUID now user text s));
      [reflexivity | cbn; lia | now apply logIds_push].
Qed.

(** X9.  In a session whose identifier generator never returns the same
    value twice, no two messages of the log share an identifier (the key the
    message list is rendered by). *)
Theorem message_ids_distinct randomUUID now s :
  Injective randomUUID -> Reachable randomUUID now s ->
  NoDup (map Message.id (messages s)).
Proof.
  intros Hinj Hr. enough (H : LogIds randomUUID s) by apply H.
  assert (H0 : forall ts, LogIds randomUUID (setTasks ts (initialState randomUUID now))).
  { intros ts. split.
    - simpl. constructor; [|constructor; [tauto | constructor]].
      intros [H | []]. apply Hinj in H. discriminate.
    - simpl. intros m [<- | [<- | []]]; [exists 0%nat | exists 1%nat]; split; auto. }
  induction Hr as [| ts | e s Hs IH He].
  - exact (H0 []).
  - exact (H0 ts).
  - destruct e; simpl.
    + apply (logIds_keep randomUUID s); [destruct s; reflexivity | destruct s; simpl; lia | exact IH].
    + now apply logIds_turn.
    + now apply logIds_turn.
Qed.

Lemma message_ids_distinct_witness :
  Injective sampleUUID /\ Reachable sampleUUID sampleNow sampleTwoTasks
  /\ NoDup (map Message.id (messages sampleTwoTasks)).
Proof.
  assert (Hr : Reachable sampleUUID sampleNow sampleTwoTasks).
  { unfold sampleTwoTasks, sampleOneTask, sampleStart.
    do 2 apply reachable_converse. apply reach_init. }
  split; [exact sampleUUID_injective | split; [exact Hr|]].
  exact (message_ids_distinct sampleUUID sampleNow sampleTwoTasks sampleUUID_injective Hr).
Defined.

(** ** C10: blank submissions *)

(** C10.  In every state of a session: an event of the page that submits a
    text which is empty or white space only -- the input box submitted, a
    button on screen tapped -- changes nothing, and so does the empty string
    passed to [handleSend] as its value: no message is logged, and store,
    intent, step counter, draft, selection, buttons and input box are as they
    were.  No button on screen carries a blank value.  A value that is white
    space only but not empty is not trimmed: [handleSend] logs it as the
    user's message and routes it. *)
Theorem blank_submission randomUUID now s :
  Reachable randomUUID now s -> BlankSubmission randomUUID now s.
Proof.
  intros Hs.
  assert (Hb : forall b, In b (buttons s) -> onlyWhiteSpace (QuickAction.value b) = false).
  { apply reachable_buttons in Hs. unfold ButtonsSpeak in Hs.
    rewrite Forall_forall in Hs. exact Hs. }
  split; [|split; [reflexivity | split; [exact Hb|]]].
  - intros e text He Hsub Hblank. destruct e as [typed | | b]; simpl in *.
    + discriminate Hsub.
    + injection Hsub as <-. unfold handleSend. now rewrite (trim_white _ Hblank).
    + injection Hsub as <-. specialize (Hb b He). congruence.
  - intros v _ Hv.
    assert (Ht : Js.truthy (messageTextOf (Some v) s) = true)
      by (destruct v; [congruence | reflexivity]).
    destruct (log_turn randomUUID now (Some v) s Ht) as (m & answers & E & Hr & Hc & _).
    exists m, answers. auto.
Qed.

Lemma blank_submission_witness :
  let s := react sampleUUID sampleNow (Typing "   ") sampleOneTask in
  Reachable sampleUUID sampleNow s /\ BlankSubmission sampleUUID sampleNow s.
Proof.
  intros s.
  assert (Hr : Reachable sampleUUID sampleNow s).
  { apply (reach_event sampleUUID sampleNow (Typing "   ")); [|exact I].
    apply reachable_converse, reach_init. }
  split; [exact Hr|].
  exact (blank_submission sampleUUID sampleNow s Hr).
Defined.

(** A single space passed as the value while the Add flow waits for the
    title is logged and taken as the title, which it leaves empty. *)
Lemma blank_submission_counterexample : ~ BlankValueIsNoOp sampleUUID sampleNow.
Proof.
  intros H.
  assert (E : handleSend sampleUUID sampleNow (Some " ") sampleAtTitle = sampleAtTitle).
  { apply H; [|reflexivity]. apply reachable_converse, reach_init. }
  apply (f_equal pendingTask) in E. vm_compute in E. discriminate E.
Qed.

Example blank_value_as_title :
  PartialTask.title (pendingTask (handleSend sampleUUID sampleNow (Some " ") sampleAtTitle))
  = Some "".
Proof. vm_compute. reflexivity. Qed.

(** ** The shape of a session *)

Lemma trim_truthy text : plainText text = true -> Js.truthy (Js.trim text) = true.
Proof.
  unfold plainText. intros H. apply andb_prop in H as [Ht He].
  apply String.eqb_eq in He. now rewrite He.
Qed.

Lemma existsb_nth ts i (task : Task.t) :
  nth_error ts i = Some task ->
  existsb (fun t => String.eqb (Task.id t) (Task.id task)) ts = true.
Proof.
  intros H. apply existsb_exists. exists task. split.
  - eapply nth_error_In; eauto.
  - apply String.eqb_refl.
Qed.

Lemma shape_turn randomUUID now text s :
  plainText text = true -> SessionShape s ->
  SessionShape (handleSend randomUUID now (Some text) s).
Proof.
  intros Hp (Hb & Hd & Hs).
  pose proof (trim_truthy text Hp) as Htt.
  assert (Hpt : plainText (Js.trim text) = true).
  { unfold plainText in *. apply andb_prop in Hp as [_ He]. apply String.eqb_eq in He.
    rewrite Htt, He, He. apply String.eqb_refl. }
  unfold plainText in Hp. apply andb_prop in Hp as [Ht He]. apply String.eqb_eq in He.
  unfold handleSend. rewrite Ht. cbn [negb].
  unfold SessionShape, expectedButtons, draftReady, selectionHeld, afterSelection,
    selectionAbsent in Hb, Hd, Hs.
  destruct s as [ms inp ts act stp draft sel fld btns dr].
  cbn [action flowStep buttons pendingTask pendingField selectedTaskId tasks] in Hb, Hd, Hs.
  destruct act.
  - (* idle *)
    step_values Hb; try discriminate Hb.
    unfold routeInput, handleAddFlow, handleUpdateFlow, handleDeleteFlow, handleViewFlow.
    cbn [action flowStep tasks Z.eqb].
    flow_cases; unfold SessionShape; simpl; auto.
  - (* add *)
    step_values Hb; try discriminate Hb;
      unfold routeInput, handleAddFlow;
      cbn [action flowStep Z.eqb Pos.eqb andb orb] in Hd |- *;
      flow_cases; shape_out; simpl in *;
      rewrite ?andb_true_r in *; rewrite ?Hpt; try rewrite Hd;
      repeat split; auto.
  - (* update *)
    step_values Hb; try discriminate Hb;
      unfold routeInput, handleUpdateFlow, previewDraft;
      cbn [action flowStep Z.eqb Pos.eqb andb orb selectedTaskId tasks pendingField] in Hs |- *;
      flow_cases; try discriminate Hb; shape_out; simpl in *;
      rewrite ?negb_involutive in *;
      repeat split; auto;
      try (eapply existsb_nth; eassumption);
      try (destruct fld as [[| | | |]|]; try discriminate Hb; reflexivity);
      try (match goal with
           | H : String.eqb ?a ?b = true |- context [keyOfField ?a] =>
               apply String.eqb_eq in H; rewrite H; reflexivity
           end).
      all: try (unfold keyOfField;
           repeat match goal with
                  | H : String.eqb ?a ?b = false, H' : context [String.eqb ?a ?b] |- _ =>
                      lazymatch H' with H => fail | _ => rewrite H in H' end
                  | H : String.eqb ?a ?b = false |- context [String.eqb ?a ?b] =>
                      rewrite H
                  end;
           eqb_cases; simpl in *; congruence).
  - (* delete *)
    step_values Hb; try discriminate Hb;
      unfold routeInput, handleDeleteFlow;
      cbn [action flowStep Z.eqb Pos.eqb andb orb selectedTaskId tasks pendingField] in Hs |- *;
      flow_cases; try discriminate Hb; shape_out; simpl in *;
      rewrite ?negb_involutive in *;
      repeat split; auto;
      try (eapply existsb_nth; eassumption).
  - discriminate Hb.
Qed.

Lemma expected_plain s bs :
  expectedButtons s = Some bs ->
  Forall (fun b => plainText (QuickAction.value b) = true) bs.
Proof.
  unfold expectedButtons. intros H.
  destruct s as [ms inp ts act stp draft sel fld btns dr].
  cbn [action flowStep pendingField] in H.
  destruct act; step_values H; try discriminate H;
    try (destruct fld as [[| | | |]|]; try discriminate H);
    injection H as <-; repeat constructor.
Qed.

Lemma shape_initial randomUUID now ts :
  SessionShape (setTasks ts (initialState randomUUID now)).
Proof. repeat split. Qed.

Lemma shape_event randomUUID now e s :
  SessionShape s -> enabled e s -> SessionShape (react randomUUID now e s).
Proof.
  intros Hs He. destruct e as [text | | b]; simpl in *.
  - destruct s; exact Hs.
  - unfold handleSend. destruct (Js.truthy (Js.trim (input s))) eqn:Ht; [|exact Hs].
    pose proof (shape_turn randomUUID now (Js.trim (input s)) s) as H.
    unfold handleSend in H. rewrite Ht in H. apply H; [|exact Hs].
    unfold plainText. rewrite Ht, trim_idem. apply String.eqb_refl.
  - apply shape_turn; [|exact Hs].
    destruct Hs as (Hb & _). apply expected_plain in Hb.
    rewrite Forall_forall in Hb. exact (Hb b He).
Qed.

Lemma reachable_shape randomUUID now s :
  Reachable randomUUID now s -> SessionShape s.
Proof.
  induction 1 as [| ts | e s Hr IH He].
  - exact (shape_initial randomUUID now []).
  - apply shape_initial.
  - now apply shape_event.
Qed.

Lemma reachable_samples :
  Reachable sampleUUID sampleNow sampleAtSave
  /\ Reachable sampleUUID sampleNow sampleChoosing
  /\ Reachable sampleUUID sampleNow
       (converse sampleUUID sampleNow ["delete"; "2"] sampleTwoTasks).
Proof.
  unfold sampleAtSave, sampleChoosing, sampleTwoTasks, sampleOneTask, sampleStart.
  repeat split; repeat apply reachable_converse; apply reach_init.
Qed.

(** X10.  In every state of a session the buttons on screen are those of the
    current step of the current flow: the four top-level actions at Idle;
    the three priorities, the yes/no pairs and the field names at the steps
    that offer them; none at the steps that expect free text. *)
Theorem buttons_of_step randomUUID now s :
  Reachable randomUUID now s -> expectedButtons s = Some (buttons s).
Proof. intros H. apply (reachable_shape randomUUID now s H). Qed.

Lemma buttons_of_step_witness :
  Reachable sampleUUID sampleNow sampleAtSave
  /\ expectedButtons sampleAtSave = Some (buttons sampleAtSave).
Proof.
  pose proof (proj1 reachable_samples) as Hr.
  split; [exact Hr|].
  exact (buttons_of_step sampleUUID sampleNow sampleAtSave Hr).
Defined.

Lemma expected_labels s bs :
  expectedButtons s = Some bs -> NoDup (map QuickAction.label bs).
Proof.
  unfold expectedButtons. intros H.
  destruct s as [ms inp ts act stp draft sel fld btns dr].
  cbn [action flowStep pendingField] in H.
  destruct act; step_values H; try discriminate H;
    try (destruct fld as [[| | | |]|]; try discriminate H);
    injection H as <-; simpl;
    repeat (constructor; [simpl; intuition discriminate|]); constructor.
Qed.

(** X11.  In every state of a session the buttons on screen carry pairwise
    distinct labels (the key the button bar is rendered by). *)
Theorem button_keys_distinct randomUUID now s :
  Reachable randomUUID now s -> NoDup (map QuickAction.label (buttons s)).
Proof.
  intros Hr. destruct (reachable_shape randomUUID now s Hr) as (Hb & _).
  exact (expected_labels s _ Hb).
Qed.

Lemma button_keys_distinct_witness :
  Reachable sampleUUID sampleNow sampleAtSave
  /\ NoDup (map QuickAction.label (buttons sampleAtSave)).
Proof.
  pose proof (proj1 reachable_samples) as Hr.
  split; [exact Hr|].
  exact (button_keys_distinct sampleUUID sampleNow sampleAtSave Hr).
Defined.

(** X12.  The header never reads "Viewing tasks".  The View flow resets the
    session in the turn that starts it, so no state of a session is rendered
    with the intent [view]. *)
Theorem never_viewing randomUUID now s :
  Reachable randomUUID now s -> assistantStatus s <> "Viewing tasks".
Proof.
  intros H. destruct (reachable_shape randomUUID now s H) as (Hb & _).
  unfold expectedButtons in Hb. unfold assistantStatus.
  destruct (action s); try discriminate.
Qed.

Lemma never_viewing_witness :
  let b := QuickAction.mk "View Tasks" "View Tasks" in
  Reachable sampleUUID sampleNow (react sampleUUID sampleNow (Tap b) sampleTwoTasks)
  /\ assistantStatus (react sampleUUID sampleNow (Tap b) sampleTwoTasks)
     <> "Viewing tasks".
Proof.
  intros b.
  assert (Hr : Reachable sampleUUID sampleNow
                 (react sampleUUID sampleNow (Tap b) sampleTwoTasks)).
  { apply reach_event.
    - unfold sampleTwoTasks, sampleOneTask, sampleStart.
      do 2 apply reachable_converse. apply reach_init.
    - vm_compute. tauto. }
  split; [exact Hr|].
  exact (never_viewing sampleUUID sampleNow _ Hr).
Defined.

(** X13.  In a session, at every step that follows the choice of a task
    (Update steps 2 to 5, Delete step 2), the selected identifier is the
    identifier of a task of the store. *)
Theorem selection_never_lost randomUUID now s :
  Reachable randomUUID now s -> afterSelection s = true ->
  exists task, In task (tasks s) /\ selectedTaskId s = Some (Task.id task).
Proof.
  intros H Ha. destruct (reachable_shape randomUUID now s H) as (_ & _ & Hs).
  unfold selectionHeld in Hs. rewrite Ha in Hs. unfold selectionAbsent in Hs.
  destruct (selectedTaskId s) as [sid|]; [|discriminate Hs].
  rewrite negb_involutive in Hs. apply existsb_exists in Hs as (task & Hin & He).
  apply String.eqb_eq in He. exists task. split; [exact Hin | now rewrite He].
Qed.

Lemma selection_never_lost_witness :
  let s := converse sampleUUID sampleNow ["delete"; "2"] sampleTwoTasks in
  Reachable sampleUUID sampleNow s /\ afterSelection s = true
  /\ exists task, In task (tasks s) /\ selectedTaskId s = Some (Task.id task).
Proof.
  intros s.
  pose proof (proj2 (proj2 reachable_samples)) as Hr.
  assert (Ha : afterSelection s = true) by (vm_compute; reflexivity).
  split; [exact Hr | split; [exact Ha|]].
  exact (selection_never_lost sampleUUID sampleNow s Hr Ha).
Defined.

(** X14.  What was typed is what is saved.  In a session, at the save step of
    the Add flow answered by a yes, the draft holds a title and a due date
    that are not empty, and the task appended to the store carries exactly
    these: no placeholder is used. *)
Theorem typed_fields_saved randomUUID now s text :
  Reachable randomUUID now s -> savingYes s text = true ->
  exists title due task,
    PartialTask.title (pendingTask s) = Some title /\ Js.truthy title = true
    /\ PartialTask.due (pendingTask s) = Some due /\ Js.truthy due = true
    /\ tasks (handleSend randomUUID now (Some text) s) = (tasks s ++ [task])%list
    /\ Task.title task = title /\ Task.due task = due.
Proof.
  intros Hr Hy. destruct (reachable_shape randomUUID now s Hr) as (_ & Hd & _).
  unfold savingYes in Hy. unfold draftReady in Hd. unfold handleSend.
  destruct s as [ms inp ts act stp draft sel fld btns dr].
  cbn [action flowStep pendingTask tasks] in *.
  destruct act; try discriminate Hy.
  apply andb_prop in Hy as [Hy Hyes]. apply andb_prop in Hy as [Hstp Ht].
  apply Z.eqb_eq in Hstp. subst stp. cbn [Z.leb Z.compare Pos.compare Pos.compare_cont] in Hd.
  apply andb_prop in Hd as [Htitle Hdue].
  destruct draft as [did [title|] [due|] dprio drem]; try discriminate.
  cbn [PartialTask.title PartialTask.due entered] in *.
  unfold plainText in Htitle, Hdue.
  apply andb_prop in Htitle as [Htt Hte]. apply andb_prop in Hdue as [Hdt Hde].
  apply String.eqb_eq in Hte, Hde.
  rewrite Ht. cbn [negb]. unfold routeInput, handleAddFlow.
  cbn [action flowStep Z.eqb Pos.eqb tasks pendingTask]. rewrite Hyes.
  exists title, due. eexists.
  split; [reflexivity | split; [exact Htt | split; [reflexivity | split; [exact Hdt|]]]].
  split; [reflexivity|]. split; [exact Hte | exact Hde].
Qed.

Lemma typed_fields_saved_witness :
  Reachable sampleUUID sampleNow sampleAtSave /\ savingYes sampleAtSave "yes" = true
  /\ exists title due task,
       PartialTask.title (pendingTask sampleAtSave) = Some title /\ Js.truthy title = true
       /\ PartialTask.due (pendingTask sampleAtSave) = Some due /\ Js.truthy due = true
       /\ tasks (handleSend sampleUUID sampleNow (Some "yes") sampleAtSave)
          = (tasks sampleAtSave ++ [task])%list
       /\ Task.title task = title /\ Task.due task = due.
Proof.
  pose proof (proj1 reachable_samples) as Hr.
  assert (Hy : savingYes sampleAtSave "yes" = true) by (vm_compute; reflexivity).
  split; [exact Hr | split; [exact Hy|]].
  exact (typed_fields_saved sampleUUID sampleNow sampleAtSave "yes" Hr Hy).
Defined.

Lemma routeInput_input randomUUID now v s text :
  routeInput randomUUID now (setInput v s) text = routeInput randomUUID now s text.
Proof. destruct s. reflexivity. Qed.

Lemma value_is_typed randomUUID now v s :
  plainText v = true ->
  handleSend randomUUID now (Some v) s
  = handleSend randomUUID now None (setInput v s).
Proof.
  intros Hp. unfold plainText in Hp. apply andb_prop in Hp as [Ht He].
  apply String.eqb_eq in He. unfold handleSend.
  replace (input (setInput v s)) with v by (destruct s; reflexivity).
  rewrite He, Ht, routeInput_input. cbn [negb].
  destruct s. reflexivity.
Qed.

(** X15.  Tapping a button on screen does what typing its value in the input
    box and sending it does. *)
Theorem tap_is_typing randomUUID now s b :
  Reachable randomUUID now s -> In b (buttons s) ->
  react randomUUID now (Tap b) s
  = react randomUUID now Submit (react randomUUID now (Typing (QuickAction.value b)) s).
Proof.
  intros Hr Hin. simpl. apply value_is_typed.
  destruct (reachable_shape randomUUID now s Hr) as (Hb & _).
  apply expected_plain in Hb. rewrite Forall_forall in Hb. exact (Hb b Hin).
Qed.

Lemma tap_is_typing_witness :
  let b := QuickAction.mk "No reminder" "no" in
  let s := converse sampleUUID sampleNow ["add"; "Buy milk"; "tomorrow 9am"; "high"] sampleStart in
  Reachable sampleUUID sampleNow s /\ In b (buttons s)
  /\ react sampleUUID sampleNow (Tap b) s
     = react sampleUUID sampleNow Submit (react sampleUUID sampleNow (Typing "no") s).
Proof.
  intros b s.
  assert (Hr : Reachable sampleUUID sampleNow s)
    by (apply reachable_converse; apply reach_init).
  assert (Hin : In b (buttons s)) by (vm_compute; tauto).
  split; [exact Hr | split; [exact Hin|]].
  exact (tap_is_typing sampleUUID sampleNow s b Hr Hin).
Defined.

(** X16.  The Send button is disabled exactly when sending would do nothing:
    [handleSend()] leaves the state unchanged if and only if the input box,
    trimmed, is empty. *)
Theorem send_disabled_iff randomUUID now s :
  sendDisabled s = true <-> react randomUUID now Submit s = s.
Proof.
  unfold sendDisabled. simpl. split.
  - intros H. unfold handleSend. now rewrite H.
  - intros H. destruct (Js.truthy (Js.trim (input s))) eqn:Ht; [|reflexivity].
    exfalso.
    destruct (log_turn randomUUID now None s Ht) as (m & answers & E & _).
    rewrite H in E. apply (f_equal (@List.length _)) in E.
    rewrite length_app in E. simpl in E. lia.
Qed.

Lemma answered_turn randomUUID now text s :
  Js.truthy text = true -> SessionShape s ->
  (List.length (messages s) + 2
   <= List.length (messages (handleSend randomUUID now (Some text) s)))%nat.
Proof.
  intros Ht (Hb & _ & _).
  unfold handleSend. rewrite Ht. cbn [negb].
  unfold expectedButtons in Hb.
  destruct s as [ms inp ts act stp draft sel fld btns dr].
  cbn [action flowStep buttons pendingTask pendingField selectedTaskId tasks] in Hb.
  destruct act.
  - step_values Hb; try discriminate Hb.
    unfold routeInput, handleAddFlow, handleUpdateFlow, handleDeleteFlow, handleViewFlow.
    cbn [action flowStep tasks Z.eqb].
    flow_cases; count_log.
  - step_values Hb; try discriminate Hb;
      unfold routeInput, handleAddFlow;
      cbn [action flowStep Z.eqb Pos.eqb andb orb];
      flow_cases; count_log.
  - step_values Hb; try discriminate Hb;
      unfold routeInput, handleUpdateFlow, previewDraft;
      cbn [action flowStep Z.eqb Pos.eqb andb orb selectedTaskId tasks pendingField];
      flow_cases; try discriminate Hb; try count_log.
    all: within_bounds.
  - step_values Hb; try discriminate Hb;
      unfold routeInput, handleDeleteFlow;
      cbn [action flowStep Z.eqb Pos.eqb andb orb selectedTaskId tasks pendingField];
      flow_cases; try discriminate Hb; try count_log.
    all: within_bounds.
  - discriminate Hb.
Qed.

(** X17.  In a session every accepted submission is answered: the turn adds
    to the log the submitted text as a user message, followed by at least
    one message of the assistant. *)
Theorem always_answered randomUUID now s value :
  Reachable randomUUID now s -> Js.truthy (messageTextOf value s) = true ->
  exists m a answers,
    messages (handleSend randomUUID now value s) = (messages s ++ m :: a :: answers)%list
    /\ Message.role m = user /\ Message.content m = messageTextOf value s
    /\ Message.role a = assistant
    /\ Forall (fun x => Message.role x = assistant) answers.
Proof.
  intros Hr Ht.
  destruct (log_turn randomUUID now value s Ht) as (m & answers & E & Hm & Hc & Ha).
  pose proof (answered_turn randomUUID now _ s Ht (reachable_shape randomUUID now s Hr))
    as Hlen.
  rewrite <- handleSend_text, E, length_app in Hlen. simpl in Hlen.
  destruct answers as [|a answers]; [simpl in Hlen; lia|].
  exists m, a, answers. inversion Ha; subst. repeat split; assumption.
Qed.

Lemma always_answered_witness :
  Reachable sampleUUID sampleNow sampleChoosing
  /\ Js.truthy (messageTextOf (Some "7") sampleChoosing) = true
  /\ exists m a answers,
       messages (handleSend sampleUUID sampleNow (Some "7") sampleChoosing)
       = (messages sampleChoosing ++ m :: a :: answers)%list
       /\ Message.role m = user /\ Message.content m = "7"
       /\ Message.role a = assistant
       /\ Forall (fun x => Message.role x = assistant) answers.
Proof.
  assert (Hr : Reachable sampleUUID sampleNow sampleChoosing).
  { unfold sampleChoosing, sampleTwoTasks, sampleOneTask, sampleStart.
    do 3 apply reachable_converse. apply reach_init. }
  split; [exact Hr | split; [reflexivity|]].
  exact (always_answered sampleUUID sampleNow sampleChoosing (Some "7") Hr eq_refl).
Defined.

(** X18.  In a session, whenever no flow is active the session is fully
    reset: the step counter is 0, the draft is the default draft, there is
    no selection and no pending field, and the four top-level buttons are on
    screen. *)
Theorem idle_is_reset randomUUID now s :
  Reachable randomUUID now s -> action s = idle -> FullyReset s.
Proof. apply reachable_idle. Qed.

Lemma idle_is_reset_witness :
  Reachable sampleUUID sampleNow sampleTwoTasks /\ action sampleTwoTasks = idle
  /\ FullyReset sampleTwoTasks.
Proof.
  assert (Hr : Reachable sampleUUID sampleNow sampleTwoTasks).
  { unfold sampleTwoTasks, sampleOneTask, sampleStart.
    do 2 apply reachable_converse. apply reach_init. }
  assert (Ha : action sampleTwoTasks = idle) by (vm_compute; reflexivity).
  split; [exact Hr | split; [exact Ha|]].
  exact (idle_is_reset sampleUUID sampleNow sampleTwoTasks Hr Ha).
Defined.

(** X19.  While a flow is active no input switches to another flow: keywords
    are only looked for at Idle.  After the turn the intent is the one
    before it, or the session is fully reset. *)
Theorem flow_not_interrupted randomUUID now value s :
  action s <> idle ->
  KeepsOrResets s (handleSend randomUUID now value s).
Proof.
  intros Ha. unfold handleSend.
  destruct (negb _); [now left|].
  set (text := match value with Some v => v | None => Js.trim (input s) end).
  change ((pushMessage randomUUID now user text;; setInput "";;
           routeInput randomUUID now s text) s)
    with (routeInput randomUUID now s text (logUser randomUUID now text s)).
  assert (Hq : action (logUser randomUUID now text s) = action s)
    by (destruct s; reflexivity).
  unfold KeepsOrResets. rewrite <- Hq. unfold routeInput.
  destruct (action s); [congruence | | | |].
  - apply handleAddFlow_resets.
  - apply handleUpdateFlow_resets.
  - apply handleDeleteFlow_resets.
  - right. apply handleViewFlow_resets.
Qed.

Lemma flow_not_interrupted_witness :
  action sampleChoosing <> idle
  /\ KeepsOrResets sampleChoosing
       (handleSend sampleUUID sampleNow (Some "delete") sampleChoosing).
Proof.
  assert (Ha : action sampleChoosing <> idle) by (vm_compute; discriminate).
  split; [exact Ha|].
  exact (flow_not_interrupted sampleUUID sampleNow (Some "delete") sampleChoosing Ha).
Defined.

(** ** Whole flows *)

Lemma findPriority_trim text : findPriority (Js.trim text) = findPriority text.
Proof. unfold findPriority. now rewrite trim_idem. Qed.

Lemma findPriority_spoken text p : findPriority text = Some p -> spoken text = true.
Proof.
  unfold findPriority, spoken. intros H. apply find_some in H as [Hin He].
  apply String.eqb_eq in He. destruct (Js.trim text); [|reflexivity].
  simpl in Hin. destruct Hin as [<- | [<- | [<- | []]]]; discriminate He.
Qed.

Lemma add_opens randomUUID now s text :
  Idle s -> Js.truthy text = true -> intentOf text = Some add ->
  action (handleSend randomUUID now (Some text) s) = add /\ flowStep (handleSend randomUUID now (Some text) s) = 1
  /\ tasks (handleSend randomUUID now (Some text) s) = tasks s /\ pendingTask (handleSend randomUUID now (Some text) s) = defaultDraft.
Proof.
  intros Hi Ht Ha. pose proof (route_idle randomUUID now s text Hi Ht) as H.
  unfold RoutedAs in H. rewrite Ha in H. rewrite H.
  destruct Hi as [Hact Hstp]. destruct s as [ms inp ts act stp draft sel fld btns dr].
  simpl in Hact, Hstp. subst act stp. repeat split.
Qed.

Lemma add_title randomUUID now s text :
  action s = add -> flowStep s = 1 -> Js.truthy text = true ->
  action (handleSend randomUUID now (Some text) s) = add /\ flowStep (handleSend randomUUID now (Some text) s) = 2
  /\ tasks (handleSend randomUUID now (Some text) s) = tasks s
  /\ pendingTask (handleSend randomUUID now (Some text) s) = PartialTask.withTitle (pendingTask s) (Js.trim text).
Proof.
  intros Ha Hf Ht. unfold handleSend. rewrite Ht.
  destruct s as [ms inp ts act stp draft sel fld btns dr].
  simpl in Ha, Hf. subst act stp. repeat split.
Qed.

Lemma add_due randomUUID now s text :
  action s = add -> flowStep s = 2 -> Js.truthy text = true ->
  action (handleSend randomUUID now (Some text) s) = add /\ flowStep (handleSend randomUUID now (Some text) s) = 3
  /\ tasks (handleSend randomUUID now (Some text) s) = tasks s
  /\ pendingTask (handleSend randomUUID now (Some text) s) = PartialTask.withDue (pendingTask s) (Js.trim text).
Proof.
  intros Ha Hf Ht. unfold handleSend. rewrite Ht.
  destruct s as [ms inp ts act stp draft sel fld btns dr].
  simpl in Ha, Hf. subst act stp. repeat split.
Qed.

Lemma add_priority randomUUID now s text p :
  action s = add -> flowStep s = 3 -> Js.truthy text = true ->
  findPriority text = Some p ->
  action (handleSend randomUUID now (Some text) s) = add /\ flowStep (handleSend randomUUID now (Some text) s) = 4
  /\ tasks (handleSend randomUUID now (Some text) s) = tasks s
  /\ pendingTask (handleSend randomUUID now (Some text) s) = PartialTask.withPriority (pendingTask s) p.
Proof.
  intros Ha Hf Ht Hp. unfold handleSend. rewrite Ht.
  destruct s as [ms inp ts act stp draft sel fld btns dr].
  simpl in Ha, Hf. subst act stp.
  unfold routeInput, handleAddFlow. cbn [action flowStep Z.eqb Pos.eqb negb].
  rewrite Hp. repeat split.
Qed.

Lemma add_reminder_answer randomUUID now s text :
  action s = add -> flowStep s = 4 -> Js.truthy text = true ->
  let s' := handleSend randomUUID now (Some text) s in
  action s' = add /\ tasks s' = tasks s
  /\ (answerStartsWith text "y" = true ->
      flowStep s' = 5 /\ pendingTask s' = pendingTask s)
  /\ (answerStartsWith text "y" = false -> answerStartsWith text "n" = true ->
      flowStep s' = 6
      /\ pendingTask s' = PartialTask.withReminder (pendingTask s) None).
Proof.
  intros Ha Hf Ht. unfold handleSend. rewrite Ht.
  destruct s as [ms inp ts act stp draft sel fld btns dr].
  simpl in Ha, Hf. subst act stp.
  unfold routeInput, handleAddFlow. cbn [action flowStep Z.eqb Pos.eqb negb].
  destruct (answerStartsWith text "y"), (answerStartsWith text "n");
    repeat split; intros; try discriminate; reflexivity.
Qed.

Lemma add_reminder_time randomUUID now s text :
  action s = add -> flowStep s = 5 -> Js.truthy text = true ->
  action (handleSend randomUUID now (Some text) s) = add /\ flowStep (handleSend randomUUID now (Some text) s) = 6
  /\ tasks (handleSend randomUUID now (Some text) s) = tasks s
  /\ pendingTask (handleSend randomUUID now (Some text) s)
     = PartialTask.withReminder (pendingTask s) (Some (Js.trim text)).
Proof.
  intros Ha Hf Ht. unfold handleSend. rewrite Ht.
  destruct s as [ms inp ts act stp draft sel fld btns dr].
  simpl in Ha, Hf. subst act stp. repeat split.
Qed.

Lemma add_save randomUUID now s text :
  action s = add -> flowStep s = 6 -> Js.truthy text = true ->
  answerStartsWith text "y" = true ->
  tasks (handleSend randomUUID now (Some text) s)
  = (tasks s ++ [materialize (randomUUID (S (draws s))) (pendingTask s)])%list
  /\ FullyReset (handleSend randomUUID now (Some text) s).
Proof.
  intros Ha Hf Ht Hy. unfold handleSend. rewrite Ht.
  destruct s as [ms inp ts act stp draft sel fld btns dr].
  simpl in Ha, Hf. subst act stp.
  unfold routeInput, handleAddFlow. cbn [action flowStep Z.eqb Pos.eqb negb].
  rewrite Hy. repeat split.
Qed.

(** X20.  The Add flow, end to end.  From Idle, an opening line with the
    keyword add, a title, a due date, a priority word (High, Medium or Low in
    any letter case), the reminder answer ("no", or "yes" and a reminder
    time) and a final "yes" append exactly one task to the store: its title,
    due date and reminder are the trimmed lines, its priority the priority in
    its canonical spelling; the session ends fully reset. *)
Theorem add_flow randomUUID now s opening title due priorityWord p reminder :
  Idle s ->
  spoken opening = true -> intentOf opening = Some add ->
  spoken title = true -> spoken due = true ->
  findPriority priorityWord = Some p ->
  match reminder with Some time => spoken time = true | None => True end ->
  let s' := converse randomUUID now
              (addLines opening title due priorityWord reminder) s in
  GainedOne s s' (Js.trim title) (Js.trim due) p (option_map Js.trim reminder)
  /\ FullyReset s'.
Proof.
  intros Hi Hso Ho Hst Hsd Hp Hr. cbv zeta.
  pose proof (findPriority_spoken _ _ Hp) as Hsp.
  unfold spoken in *. unfold addLines, converse.
  rewrite !fold_left_app. cbn [fold_left app].
  rewrite (say_value randomUUID now opening) by exact Hso.
  rewrite <- intentOf_trim in Ho.
  destruct (add_opens randomUUID now s _ Hi Hso Ho) as (A1 & F1 & T1 & D1).
  set (s1 := handleSend randomUUID now (Some (Js.trim opening)) s) in *.
  rewrite (say_value randomUUID now title) by exact Hst.
  destruct (add_title randomUUID now s1 _ A1 F1 Hst) as (A2 & F2 & T2 & D2).
  set (s2 := handleSend randomUUID now (Some (Js.trim title)) s1) in *.
  rewrite (say_value randomUUID now due) by exact Hsd.
  destruct (add_due randomUUID now s2 _ A2 F2 Hsd) as (A3 & F3 & T3 & D3).
  set (s3 := handleSend randomUUID now (Some (Js.trim due)) s2) in *.
  rewrite (say_value randomUUID now priorityWord) by exact Hsp.
  rewrite <- findPriority_trim in Hp.
  destruct (add_priority randomUUID now s3 _ p A3 F3 Hsp Hp) as (A4 & F4 & T4 & D4).
  set (s4 := handleSend randomUUID now (Some (Js.trim priorityWord)) s3) in *.
  destruct reminder as [time|]; cbn [reminderLines fold_left option_map].
  - rewrite (say_value randomUUID now time) by exact Hr.
    rewrite !(say_value randomUUID now "yes") by reflexivity.
    change (Js.trim "yes") with "yes".
    destruct (add_reminder_answer randomUUID now s4 "yes" A4 F4 eq_refl)
      as (A5 & T5 & Hyes & _).
    destruct (Hyes eq_refl) as (F5 & D5).
    set (s5 := handleSend randomUUID now (Some "yes") s4) in *.
    destruct (add_reminder_time randomUUID now s5 _ A5 F5 Hr) as (A6 & F6 & T6 & D6).
    set (s6 := handleSend randomUUID now (Some (Js.trim time)) s5) in *.
    destruct (add_save randomUUID now s6 "yes" A6 F6 eq_refl eq_refl) as (T7 & R7).
    split; [|exact R7]. unfold GainedOne. exists (randomUUID (S (draws s6))).
    rewrite T7, T6, T5, T4, T3, T2, T1, D6, D5, D4, D3, D2, D1.
    unfold materialize, defaultDraft. simpl. now rewrite !trim_idem.
  - rewrite (say_value randomUUID now "no") by reflexivity.
    rewrite (say_value randomUUID now "yes") by reflexivity.
    change (Js.trim "no") with "no". change (Js.trim "yes") with "yes".
    destruct (add_reminder_answer randomUUID now s4 "no" A4 F4 eq_refl)
      as (A5 & T5 & _ & Hno).
    destruct (Hno eq_refl eq_refl) as (F5 & D5).
    set (s5 := handleSend randomUUID now (Some "no") s4) in *.
    destruct (add_save randomUUID now s5 "yes" A5 F5 eq_refl eq_refl) as (T7 & R7).
    split; [|exact R7]. unfold GainedOne. exists (randomUUID (S (draws s5))).
    rewrite T7, T5, T4, T3, T2, T1, D5, D4, D3, D2, D1.
    unfold materialize, defaultDraft. simpl. now rewrite !trim_idem.
Qed.

Lemma add_flow_witness :
  let s' := converse sampleUUID sampleNow
              (addLines "Please ADD one" "  Call Ana " "Friday" "hIgH" (Some "Thursday 6pm "))
              sampleOneTask in
  Idle sampleOneTask
  /\ GainedOne sampleOneTask s' "Call Ana" "Friday" "High" (Some "Thursday 6pm")
  /\ FullyReset s'.
Proof.
  assert (Hi : Idle sampleOneTask) by (split; vm_compute; reflexivity).
  split; [exact Hi|].
  apply (add_flow sampleUUID sampleNow sampleOneTask
           "Please ADD one" "  Call Ana " "Friday" "hIgH" "High" (Some "Thursday 6pm "));
    first [exact Hi | vm_compute; reflexivity].
Defined.

Lemma find_present ts : forall k (task : Task.t),
  nth_error ts k = Some task ->
  exists current, find (fun t => String.eqb (Task.id t) (Task.id task)) ts = Some current
                  /\ Task.id current = Task.id task.
Proof.
  intros k task Hn.
  destruct (find (fun t => String.eqb (Task.id t) (Task.id task)) ts) as [c|] eqn:Hf.
  - exists c. split; [reflexivity|]. apply find_some in Hf as [_ He].
    now apply String.eqb_eq in He.
  - exfalso. apply nth_error_In in Hn.
    pose proof (find_none _ _ Hf task Hn) as H. simpl in H.
    now rewrite String.eqb_refl in H.
Qed.

Lemma filter_unique ts : UniqueIds ts ->
  forall k task, nth_error ts k = Some task ->
  filter (fun t => negb (String.eqb (Task.id t) (Task.id task))) ts = removeAt k ts.
Proof.
  unfold UniqueIds, removeAt. induction ts as [|t ts IH]; intros Hu k task Hn.
  - destruct k; discriminate.
  - simpl in Hu. inversion Hu as [|? ? Hnotin Hu']; subst.
    destruct k as [|k]; simpl in Hn.
    + injection Hn as ->. simpl. rewrite String.eqb_refl. simpl.
      apply filter_absent. now apply existsb_not_in.
    + simpl. destruct (String.eqb (Task.id t) (Task.id task)) eqn:E.
      * apply String.eqb_eq in E. exfalso. apply Hnotin. rewrite E.
        apply in_map. eapply nth_error_In; eauto.
      * simpl. f_equal. now apply IH.
Qed.

Lemma map_unique (f : Task.t -> Task.t) ts : UniqueIds ts ->
  forall k task, nth_error ts k = Some task ->
  map (fun t => if String.eqb (Task.id t) (Task.id task) then f t else t) ts
  = changeAt k f ts.
Proof.
  unfold UniqueIds, changeAt. induction ts as [|t ts IH]; intros Hu k task Hn.
  - destruct k; discriminate.
  - simpl in Hu. inversion Hu as [|? ? Hnotin Hu']; subst.
    destruct k as [|k]; simpl in Hn.
    + injection Hn as ->. simpl. rewrite String.eqb_refl. f_equal.
      apply map_absent. now apply existsb_not_in.
    + simpl. rewrite Hn. destruct (String.eqb (Task.id t) (Task.id task)) eqn:E.
      * apply String.eqb_eq in E. exfalso. apply Hnotin. rewrite E.
        apply in_map. eapply nth_error_In; eauto.
      * simpl. f_equal. specialize (IH Hu' k task Hn). now rewrite Hn in IH.
Qed.

(** The first two turns of the Update and Delete flows: the flow opens on a
    store that is not empty, the label selects its task. *)
Lemma choose_task randomUUID now s opening a k task :
  Idle s -> spoken opening = true -> intentOf opening = Some a ->
  a = update \/ a = delete ->
  nth_error (tasks s) k = Some task ->
  let s2 := converse randomUUID now [opening; labelOf k] s in
  action s2 = a /\ flowStep s2 = 2 /\ tasks s2 = tasks s
  /\ selectedTaskId s2 = Some (Task.id task).
Proof.
  intros Hi Hso Ho Ha Hn. cbv zeta. unfold converse. cbn [fold_left].
  unfold spoken in Hso. rewrite (say_value randomUUID now opening) by exact Hso.
  rewrite <- intentOf_trim in Ho.
  pose proof (flow_opens randomUUID now s _ a Hi Hso Ho) as (T1 & H1).
  set (s1 := handleSend randomUUID now (Some (Js.trim opening)) s) in *.
  assert (H1' : action s1 = a /\ flowStep s1 = 1).
  { destruct (tasks s) as [|t ts] eqn:Hts; [destruct k; discriminate Hn|].
    destruct Ha as [-> | ->]; destruct H1 as (? & ? & _); now split. }
  clear H1. destruct H1' as (A1 & F1).
  destruct (label_spoken k) as [Hl Hls]. unfold spoken in Hls.
  rewrite (say_value randomUUID now (labelOf k)) by exact Hls. rewrite Hl.
  assert (Hat : atIndexSelection s1 = true).
  { unfold atIndexSelection. rewrite A1, F1. now destruct Ha as [-> | ->]. }
  assert (Hb : 0 <= Z.of_nat k < Z.of_nat (List.length (tasks s1))).
  { rewrite T1. assert (nth_error (tasks s) k <> None) as Hk by congruence.
    apply nth_error_Some in Hk. lia. }
  rewrite Hl in Hls.
  destruct (select_index randomUUID now s1 (labelOf k) (Z.of_nat k) Hat Hls
              (label_index k) Hb) as (task' & Hn' & S2 & F2 & A2 & T2).
  replace (Z.to_nat (Z.of_nat k + 1 - 1)) with k in Hn' by lia.
  rewrite T1, Hn in Hn'. injection Hn' as <-.
  rewrite A2, T2, T1. repeat split; assumption.
Qed.

Lemma delete_save randomUUID now s text sid :
  action s = delete -> flowStep s = 2 ->
  selectedTaskId s = Some sid -> Js.truthy sid = true ->
  Js.truthy text = true -> answerStartsWith text "y" = true ->
  let s' := handleSend randomUUID now (Some text) s in
  tasks s' = filter (fun task => negb (String.eqb (Task.id task) sid)) (tasks s)
  /\ FullyReset s'.
Proof.
  intros Ha Hf Hsel Hsid Ht Hy. unfold handleSend. rewrite Ht.
  destruct s as [ms inp ts act stp draft sel fld btns dr].
  simpl in Ha, Hf, Hsel. subst act stp sel.
  unfold routeInput, handleDeleteFlow.
  cbn [action flowStep Z.eqb Pos.eqb negb selectedTaskId tasks pendingField].
  rewrite Hsid, Hy. repeat split.
Qed.

(** X21.  The Delete flow, end to end.  From Idle, an opening line routed to
    Delete, the label of the task at position [k] of the listing and "yes"
    end with the session fully reset.  When the identifier of that task is
    not the empty string, the tasks that carry it are removed from the
    store: with distinct identifiers, the task at position [k] and no other.
    When it is the empty string the selection counts as missing (434):
    nothing is removed. *)
Theorem delete_flow randomUUID now s opening k task :
  Idle s -> spoken opening = true -> intentOf opening = Some delete ->
  nth_error (tasks s) k = Some task ->
  let s' := converse randomUUID now [opening; labelOf k; "yes"] s in
  tasks s' = (if Js.truthy (Task.id task)
              then filter (fun t => negb (String.eqb (Task.id t) (Task.id task))) (tasks s)
              else tasks s)
  /\ (UniqueIds (tasks s) -> Js.truthy (Task.id task) = true ->
      tasks s' = removeAt k (tasks s))
  /\ FullyReset s'.
Proof.
  intros Hi Hso Ho Hn. cbv zeta.
  destruct (choose_task randomUUID now s opening delete k task Hi Hso Ho
              (or_intror eq_refl) Hn) as (A2 & F2 & T2 & S2).
  change (converse randomUUID now [opening; labelOf k; "yes"] s)
    with (say randomUUID now "yes" (converse randomUUID now [opening; labelOf k] s)).
  set (s2 := converse randomUUID now [opening; labelOf k] s) in *.
  rewrite (say_value randomUUID now "yes") by reflexivity.
  change (Js.trim "yes") with "yes".
  destruct (Js.truthy (Task.id task)) eqn:Hid.
  - destruct (delete_save randomUUID now s2 "yes" _ A2 F2 S2 Hid eq_refl eq_refl)
      as (T3 & R3).
    rewrite T3, T2. split; [reflexivity | split; [|exact R3]].
    intros Hu _. now apply filter_unique.
  - destruct (abort_on_null randomUUID now s2 "yes" eq_refl) as (R3 & T3 & _).
    + unfold checksReference. now rewrite A2, F2.
    + rewrite S2. simpl. now rewrite Hid.
    + rewrite T3, T2. split; [reflexivity | split; [|exact R3]].
      intros _ H. discriminate H.
Qed.

Lemma delete_flow_witness :
  let task := Task.mk "uuid-29" "Call Ana" "Friday" "High" (Some "Thursday 6pm") in
  let s' := converse sampleUUID sampleNow ["remove one"; labelOf 1; "yes"] sampleTwoTasks in
  Idle sampleTwoTasks /\ nth_error (tasks sampleTwoTasks) 1 = Some task
  /\ tasks s' = removeAt 1 (tasks sampleTwoTasks).
Proof.
  intros task s'.
  assert (Hi : Idle sampleTwoTasks) by (split; vm_compute; reflexivity).
  assert (Hn : nth_error (tasks sampleTwoTasks) 1 = Some task) by (vm_compute; reflexivity).
  split; [exact Hi | split; [exact Hn|]].
  apply (delete_flow sampleUUID sampleNow sampleTwoTasks "remove one" 1 task Hi
           eq_refl eq_refl Hn); [|reflexivity].
  vm_compute. repeat constructor; simpl; intuition discriminate.
Defined.

Lemma spread_draft e task : spread task (draftOf e) = applyEdit e task.
Proof. destruct e; reflexivity. Qed.

Lemma update_field randomUUID now s text key :
  action s = update -> flowStep s = 2 -> Js.truthy text = true ->
  keyOfField (Js.toLowerCase (Js.trim text)) = Some key ->
  let s' := handleSend randomUUID now (Some text) s in
  action s' = update /\ flowStep s' = 3 /\ pendingField s' = Some key
  /\ selectedTaskId s' = selectedTaskId s /\ tasks s' = tasks s.
Proof.
  intros Ha Hf Ht Hk. unfold handleSend. rewrite Ht.
  destruct s as [ms inp ts act stp draft sel fld btns dr].
  simpl in Ha, Hf. subst act stp.
  unfold routeInput, handleUpdateFlow.
  cbn [action flowStep Z.eqb Pos.eqb negb existsb].
  revert Hk. unfold keyOfField.
  generalize (Js.toLowerCase (Js.trim text)). intros field.
  destruct (String.eqb field "title"), (String.eqb field "due"),
    (String.eqb field "priority"), (String.eqb field "reminder");
    intros Hk; try discriminate Hk; injection Hk as <-; repeat split.
Qed.

(** Step 3 of the Update flow on a value that completes the edit. *)
Lemma update_value randomUUID now s text sid current e :
  action s = update -> flowStep s = 3 ->
  selectedTaskId s = Some sid -> Js.truthy sid = true ->
  find (fun task => String.eqb (Task.id task) sid) (tasks s) = Some current ->
  Js.truthy text = true ->
  match e with
  | EditTitle v => pendingField s = Some k_title /\ text = Js.trim v
  | EditDue v => pendingField s = Some k_due /\ text = Js.trim v
  | EditPriority p => pendingField s = Some k_priority /\ findPriority text = Some p
  | EditReminder None => pendingField s = Some k_reminder /\ text = "remove"
  | EditReminder (Some _) => False
  end ->
  let s' := handleSend randomUUID now (Some text) s in
  action s' = update /\ flowStep s' = 5 /\ selectedTaskId s' = Some sid
  /\ tasks s' = tasks s /\ pendingTask s' = draftOf e.
Proof.
  intros Ha Hf Hsel Hsid Hfind Ht He. unfold handleSend. rewrite Ht.
  destruct s as [ms inp ts act stp draft sel fld btns dr].
  simpl in Ha, Hf, Hsel, Hfind, He. subst act stp sel.
  unfold routeInput, handleUpdateFlow.
  cbn [action flowStep Z.eqb Pos.eqb negb selectedTaskId tasks pendingField].
  rewrite Hsid, Hfind. cbn [negb].
  destruct e as [v | v | p | [time|]]; try contradiction; destruct He as [-> He].
  - subst text. rewrite trim_idem. repeat split.
  - subst text. rewrite trim_idem. repeat split.
  - rewrite He. repeat split.
  - subst text. repeat split.
Qed.

(** Step 3 on the answer "update", step 4 on the new reminder time. *)
Lemma update_reminder_ask randomUUID now s sid current :
  action s = update -> flowStep s = 3 -> pendingField s = Some k_reminder ->
  selectedTaskId s = Some sid -> Js.truthy sid = true ->
  find (fun task => String.eqb (Task.id task) sid) (tasks s) = Some current ->
  let s' := handleSend randomUUID now (Some "update") s in
  action s' = update /\ flowStep s' = 4 /\ selectedTaskId s' = Some sid
  /\ tasks s' = tasks s.
Proof.
  intros Ha Hf Hfld Hsel Hsid Hfind.
  destruct s as [ms inp ts act stp draft sel fld btns dr].
  simpl in Ha, Hf, Hfld, Hsel, Hfind. subst act stp sel fld.
  unfold handleSend. cbn [Js.truthy negb].
  unfold routeInput, handleUpdateFlow.
  cbn [action flowStep Z.eqb Pos.eqb negb selectedTaskId tasks pendingField].
  rewrite Hsid, Hfind. repeat split.
Qed.

Lemma update_reminder_time randomUUID now s text sid current :
  action s = update -> flowStep s = 4 ->
  selectedTaskId s = Some sid -> Js.truthy sid = true ->
  find (fun task => String.eqb (Task.id task) sid) (tasks s) = Some current ->
  Js.truthy text = true ->
  let s' := handleSend randomUUID now (Some text) s in
  action s' = update /\ flowStep s' = 5 /\ selectedTaskId s' = Some sid
  /\ tasks s' = tasks s
  /\ pendingTask s' = PartialTask.withReminder PartialTask.empty (Some (Js.trim text)).
Proof.
  intros Ha Hf Hsel Hsid Hfind Ht. unfold handleSend. rewrite Ht.
  destruct s as [ms inp ts act stp draft sel fld btns dr].
  simpl in Ha, Hf, Hsel, Hfind. subst act stp sel.
  unfold routeInput, handleUpdateFlow.
  cbn [action flowStep Z.eqb Pos.eqb negb selectedTaskId tasks pendingField].
  rewrite Hsid, Hfind. repeat split.
Qed.

Lemma priority_word p :
  existsb (String.eqb p) priorityOptions = true ->
  Js.trim p = p /\ Js.truthy p = true /\ findPriority p = Some p.
Proof.
  simpl. intros H.
  repeat (apply orb_prop in H as [H | H];
          [apply String.eqb_eq in H; subst p; repeat split|]).
  discriminate H.
Qed.

(** The turns of an edit: from the field choice to the save step. *)
Lemma edit_turns randomUUID now s e sid current :
  action s = update -> flowStep s = 2 ->
  selectedTaskId s = Some sid -> Js.truthy sid = true ->
  find (fun task => String.eqb (Task.id task) sid) (tasks s) = Some current ->
  editValid e = true ->
  let s' := converse randomUUID now (editLines e) s in
  action s' = update /\ flowStep s' = 5 /\ selectedTaskId s' = Some sid
  /\ tasks s' = tasks s /\ pendingTask s' = draftOf e.
Proof.
  intros Ha Hf Hsel Hsid Hfind Hv. cbv zeta. unfold converse.
  assert (Hfield : forall word key,
            Js.trim word = word -> Js.truthy word = true ->
            keyOfField (Js.toLowerCase (Js.trim word)) = Some key ->
            let s3 := say randomUUID now word s in
            action s3 = update /\ flowStep s3 = 3 /\ pendingField s3 = Some key
            /\ selectedTaskId s3 = Some sid
            /\ find (fun task => String.eqb (Task.id task) sid) (tasks s3) = Some current
            /\ tasks s3 = tasks s).
  { intros word key Hw Ht Hk. cbv zeta.
    rewrite say_value by now rewrite Hw. rewrite Hw.
    destruct (update_field randomUUID now s word key Ha Hf Ht Hk)
      as (A & F & P & S & T).
    rewrite S, T. repeat split; assumption. }
  destruct e as [v | v | p | [time|]]; cbn [editLines fold_left]; simpl in Hv.
  - destruct (Hfield "title" k_title eq_refl eq_refl eq_refl) as (A & F & P & S & Fi & T).
    set (s3 := say randomUUID now "title" s) in *.
    rewrite say_value by exact Hv. rewrite <- T.
    apply (update_value randomUUID now s3 (Js.trim v) sid current (EditTitle v));
      try assumption. now split.
  - destruct (Hfield "due" k_due eq_refl eq_refl eq_refl) as (A & F & P & S & Fi & T).
    set (s3 := say randomUUID now "due" s) in *.
    rewrite say_value by exact Hv. rewrite <- T.
    apply (update_value randomUUID now s3 (Js.trim v) sid current (EditDue v));
      try assumption. now split.
  - destruct (Hfield "priority" k_priority eq_refl eq_refl eq_refl)
      as (A & F & P & S & Fi & T).
    set (s3 := say randomUUID now "priority" s) in *.
    destruct (priority_word p Hv) as (Hp & Hpt & Hpf).
    rewrite say_value by now rewrite Hp. rewrite Hp, <- T.
    apply (update_value randomUUID now s3 p sid current (EditPriority p));
      try assumption. now split.
  - destruct (Hfield "reminder" k_reminder eq_refl eq_refl eq_refl)
      as (A & F & P & S & Fi & T).
    set (s3 := say randomUUID now "reminder" s) in *.
    rewrite (say_value randomUUID now time) by exact Hv.
    rewrite (say_value randomUUID now "update") by reflexivity.
    change (Js.trim "update") with "update".
    destruct (update_reminder_ask randomUUID now s3 sid current A F P S Hsid Fi)
      as (A4 & F4 & S4 & T4).
    set (s4 := handleSend randomUUID now (Some "update") s3) in *.
    rewrite <- T4 in Fi.
    destruct (update_reminder_time randomUUID now s4 (Js.trim time) sid current
                A4 F4 S4 Hsid Fi Hv) as (A5 & F5 & S5 & T5 & D5).
    rewrite T5, T4, T, D5, trim_idem. repeat split; assumption.
  - destruct (Hfield "reminder" k_reminder eq_refl eq_refl eq_refl)
      as (A & F & P & S & Fi & T).
    set (s3 := say randomUUID now "reminder" s) in *.
    rewrite say_value by reflexivity. change (Js.trim "remove") with "remove".
    rewrite <- T.
    apply (update_value randomUUID now s3 "remove" sid current (EditReminder None));
      try assumption; try reflexivity; now split.
Qed.

(** The Update flow after the choice of a task whose identifier is the
    empty string: the field is accepted, the answer to the first question
    about it starts over. *)
Lemma edit_abandoned randomUUID now s e sid :
  action s = update -> flowStep s = 2 ->
  selectedTaskId s = Some sid -> Js.truthy sid = false ->
  editValid e = true ->
  let s' := converse randomUUID now (editOpening e) s in
  tasks s' = tasks s /\ FullyReset s'.
Proof.
  intros Ha Hf Hsel Hsid Hv. cbv zeta. unfold converse.
  assert (Hfield : forall word key,
            Js.trim word = word -> Js.truthy word = true ->
            keyOfField (Js.toLowerCase (Js.trim word)) = Some key ->
            forall answer, Js.truthy (Js.trim answer) = true ->
            let s4 := say randomUUID now answer (say randomUUID now word s) in
            tasks s4 = tasks s /\ FullyReset s4).
  { intros word key Hw Ht Hk answer Han. cbv zeta.
    rewrite (say_value randomUUID now word) by now rewrite Hw. rewrite Hw.
    destruct (update_field randomUUID now s word key Ha Hf Ht Hk)
      as (A & F & P & S & T).
    set (s3 := handleSend randomUUID now (Some word) s) in *.
    rewrite say_value by exact Han.
    destruct (abort_on_null randomUUID now s3 (Js.trim answer) Han) as (R & T4 & _).
    - unfold checksReference. now rewrite A, F.
    - rewrite S, Hsel. simpl. now rewrite Hsid.
    - rewrite T4, T. now split. }
  destruct e as [v | v | p | [time|]]; cbn [editOpening editLines firstn fold_left];
    simpl in Hv.
  - now apply (Hfield "title" k_title).
  - now apply (Hfield "due" k_due).
  - destruct (priority_word p Hv) as (Hp & Hpt & _).
    apply (Hfield "priority" k_priority); try reflexivity. now rewrite Hp.
  - now apply (Hfield "reminder" k_reminder).
  - now apply (Hfield "reminder" k_reminder).
Qed.

(** X22.  The Update flow, end to end.  From Idle, an opening line routed to
    Update and the label of the task at position [k] select that task.  When
    its identifier is not the empty string, the lines of an edit (a new
    title, due date, priority or reminder, or the removal of the reminder)
    and "yes" apply that edit to the tasks that carry the identifier: with
    distinct identifiers, to the task at position [k] alone, whose other
    fields, like every other task, are unchanged; the session ends fully
    reset.  When the identifier is the empty string the selection counts as
    missing (285): the field is asked for, and the answer to the first
    question about it ends the flow, the store unchanged and the session
    fully reset. *)
Theorem update_flow randomUUID now s opening k task e :
  Idle s -> spoken opening = true -> intentOf opening = Some update ->
  nth_error (tasks s) k = Some task -> editValid e = true ->
  (Js.truthy (Task.id task) = true ->
   let s' := converse randomUUID now
               ([opening; labelOf k] ++ editLines e ++ ["yes"]) s in
   tasks s' = map (fun t => if String.eqb (Task.id t) (Task.id task)
                            then applyEdit e t else t) (tasks s)
   /\ (UniqueIds (tasks s) -> tasks s' = changeAt k (applyEdit e) (tasks s))
   /\ FullyReset s')
  /\ (Js.truthy (Task.id task) = false ->
      let s' := converse randomUUID now ([opening; labelOf k] ++ editOpening e) s in
      tasks s' = tasks s /\ FullyReset s').
Proof.
  intros Hi Hso Ho Hn Hv.
  destruct (choose_task randomUUID now s opening update k task Hi Hso Ho
              (or_introl eq_refl) Hn) as (A2 & F2 & T2 & S2).
  split; intros Hid; cbv zeta.
  - unfold converse in *. rewrite !fold_left_app.
    set (s2 := fold_left (fun s text => say randomUUID now text s) [opening; labelOf k] s) in *.
    destruct (find_present (tasks s) k task Hn) as (current & Hfind & _).
    rewrite <- T2 in Hfind.
    destruct (edit_turns randomUUID now s2 e _ current A2 F2 S2 Hid Hfind Hv)
      as (A5 & F5 & S5 & T5 & D5).
    unfold converse in *.
    set (s5 := fold_left (fun s text => say randomUUID now text s) (editLines e) s2) in *.
    cbn [fold_left]. rewrite say_value by reflexivity. change (Js.trim "yes") with "yes".
    destruct (update_save randomUUID now s5 "yes" _ A5 F5 S5 Hid eq_refl eq_refl)
      as (T6 & R6).
    rewrite T6, T5, T2, D5.
    assert (E : map (fun t => if String.eqb (Task.id t) (Task.id task)
                              then spread t (draftOf e) else t) (tasks s)
                = map (fun t => if String.eqb (Task.id t) (Task.id task)
                                then applyEdit e t else t) (tasks s)).
    { apply map_ext. intros t. now rewrite spread_draft. }
    rewrite E. split; [reflexivity | split; [|exact R6]].
    intros Hu. now apply map_unique.
  - unfold converse in *. rewrite fold_left_app.
    set (s2 := fold_left (fun s text => say randomUUID now text s) [opening; labelOf k] s) in *.
    destruct (edit_abandoned randomUUID now s2 e _ A2 F2 S2 Hid Hv) as (T4 & R4).
    unfold converse in T4, R4. rewrite T4, T2. now split.
Qed.

Lemma update_flow_witness :
  let task := Task.mk "uuid-29" "Call Ana" "Friday" "High" (Some "Thursday 6pm") in
  let e := EditReminder (Some " Thursday 8pm") in
  let s' := converse sampleUUID sampleNow
              (["Update Task"; labelOf 1] ++ editLines e ++ ["yes"]) sampleTwoTasks in
  Idle sampleTwoTasks /\ nth_error (tasks sampleTwoTasks) 1 = Some task
  /\ tasks s' = changeAt 1 (applyEdit e) (tasks sampleTwoTasks).
Proof.
  intros task e s'.
  assert (Hi : Idle sampleTwoTasks) by (split; vm_compute; reflexivity).
  assert (Hn : nth_error (tasks sampleTwoTasks) 1 = Some task) by (vm_compute; reflexivity).
  split; [exact Hi | split; [exact Hn|]].
  apply (proj1 (update_flow sampleUUID sampleNow sampleTwoTasks "Update Task" 1 task e Hi
                  eq_refl eq_refl Hn eq_refl) eq_refl).
  vm_compute. repeat constructor; simpl; intuition discriminate.
Defined.

(** ** Answers that are turned down *)

Lemma find_held sid ts :
  existsb (fun task : Task.t => String.eqb (Task.id task) sid) ts = true ->
  exists current, find (fun task => String.eqb (Task.id task) sid) ts = Some current.
Proof.
  induction ts as [|t ts IH]; simpl; [discriminate|].
  destruct (String.eqb (Task.id t) sid); simpl; eauto.
Qed.

(** X23.  An answer that a step turns down changes nothing but the log.  A
    priority that is none of the three (Add step 3, Update step 3), a
    reminder answer that starts neither with y nor with n (Add step 4) and a
    field name that is none of the four (Update step 2) append the submission
    and the prompt of the step; intent, step counter, store, draft,
    selection, pending field and buttons stay as they were. *)
Theorem turned_down_reprompts randomUUID now s text prompt :
  Js.truthy text = true -> turnedDown s text = Some prompt ->
  let s' := handleSend randomUUID now (Some text) s in
  Reprompted text s s' /\ appended s s' [(user, text); (assistant, prompt)].
Proof.
  intros Ht Hd. cbv zeta. unfold handleSend. rewrite Ht. cbn [negb].
  unfold turnedDown, selectionAbsent in Hd.
  destruct s as [ms inp ts act stp draft sel fld btns dr].
  cbn [action flowStep pendingField selectedTaskId tasks] in Hd.
  assert (Hlog : forall s', messages s'
            = messages ((pushMessage randomUUID now user text ;; setInput "" ;;
                         pushMessage randomUUID now assistant prompt)
                          (mkState ms inp ts act stp draft sel fld btns dr)) ->
            appended (mkState ms inp ts act stp draft sel fld btns dr) s'
              [(user, text); (assistant, prompt)]).
  { intros s'. apply appended_two. exact skip. }
  destruct act; try discriminate Hd; step_values Hd; try discriminate Hd.
  - destruct (findPriority text) eqn:Hp; [discriminate Hd|]. injection Hd as <-.
    unfold routeInput, handleAddFlow. cbn [action flowStep Z.eqb Pos.eqb].
    rewrite Hp. split; [repeat split; eexists|]; apply Hlog; reflexivity.
  - destruct (answerStartsWith text "y") eqn:Hy; [discriminate Hd|].
    destruct (answerStartsWith text "n") eqn:Hn; [discriminate Hd|].
    injection Hd as <-.
    unfold routeInput, handleAddFlow. cbn [action flowStep Z.eqb Pos.eqb].
    rewrite Hy, Hn. split; [repeat split; eexists|]; apply Hlog; reflexivity.
  - destruct (existsb _ _) eqn:Hf in Hd; [discriminate Hd|]. injection Hd as <-.
    unfold routeInput, handleUpdateFlow. cbn [action flowStep Z.eqb Pos.eqb].
    rewrite Hf. split; [repeat split; eexists|]; apply Hlog; reflexivity.
  - destruct fld as [[| | | |]|]; try discriminate Hd.
    destruct (findPriority text) eqn:Hp; [discriminate Hd|].
    destruct sel as [sid|]; [|discriminate Hd]. cbn [noSelection] in Hd.
    destruct (Js.truthy sid) eqn:Hsid; [|discriminate Hd]. cbn [negb orb] in Hd.
    destruct (existsb _ ts) eqn:Hex in Hd; [|discriminate Hd].
    injection Hd as <-. destruct (find_held sid ts Hex) as (current & Hfind).
    unfold routeInput, handleUpdateFlow.
    cbn [action flowStep Z.eqb Pos.eqb selectedTaskId tasks pendingField].
    rewrite Hsid, Hfind, Hp.
    split; [repeat split; eexists|]; apply Hlog; reflexivity.
Qed.

Lemma turned_down_reprompts_witness :
  let s := converse sampleUUID sampleNow ["add"; "Buy milk"; "tomorrow 9am"] sampleStart in
  turnedDown s "high priority" = Some "Please choose between High, Medium, or Low."
  /\ Reprompted "high priority" s (handleSend sampleUUID sampleNow (Some "high priority") s).
Proof.
  intros s. split; [vm_compute; reflexivity|].
  apply (turned_down_reprompts sampleUUID sampleNow s "high priority"
           "Please choose between High, Medium, or Low."); vm_compute; reflexivity.
Defined.

(** ** Startup on a slot that holds no task array *)

(** X24.  When the storage slot is absent, empty, unparsable or holds
    something that is no array, the session starts on the empty store, and
    the persist effect overwrites the slot with the serialization of the
    empty list. *)
Theorem startup_fallback randomUUID now JSON_stringify JSON_parse stored :
  unreadable JSON_parse stored ->
  mount randomUUID now JSON_stringify JSON_parse stored
  = Some (initialState randomUUID now, Some (JSON_stringify [])).
Proof.
  unfold unreadable, mount, loadEffect. destruct stored as [text|]; [|reflexivity].
  intros [H | [H | H]]; rewrite H; [reflexivity | |];
    destruct (Js.truthy text); reflexivity.
Qed.

Lemma startup_fallback_witness :
  let rejecting := fun _ : string => Throws in
  unreadable rejecting (Some "{oops")
  /\ mount sampleUUID sampleNow Json.stringify rejecting (Some "{oops")
     = Some (sampleStart, Some "[]").
Proof.
  intros rejecting.
  assert (H : unreadable rejecting (Some "{oops")) by (right; left; reflexivity).
  split; [exact H|].
  exact (startup_fallback sampleUUID sampleNow Json.stringify rejecting (Some "{oops") H).
Defined.

(** ** A message bubble *)

Lemma splitLines_cons s : exists line more, splitLines s = line :: more.
Proof.
  induction s as [|c r (line & more & E)]; simpl; [eauto|].
  destruct (Ascii.eqb c "010"%char); [eauto|]. rewrite E. eauto.
Qed.

Lemma join_splitLines s : Js.join NL (splitLines s) = s.
Proof.
  induction s as [|c r IH]; [reflexivity|]. simpl.
  destruct (Ascii.eqb c "010"%char) eqn:E.
  - apply Ascii.eqb_eq in E. subst c.
    destruct (splitLines_cons r) as (line & more & Er). rewrite Er in *.
    simpl in *. now rewrite IH.
  - destruct (splitLines_cons r) as (line & more & Er). rewrite Er in *.
    simpl in *. destruct more; simpl in *; now rewrite IH.
Qed.

Lemma shown_pieces lines : forall index total,
  (index + List.length lines = total)%nat ->
  shown (piecesFrom index total lines) = Js.join NL lines.
Proof.
  induction lines as [|line more IH]; intros index total H; [reflexivity|].
  simpl in H. cbn [piecesFrom]. destruct more as [|next more'].
  - replace (index <? total - 1)%nat with false
      by (symmetry; apply Nat.ltb_ge; simpl in H; lia).
    simpl. apply app_nil_s.
  - replace (index <? total - 1)%nat with true
      by (symmetry; apply Nat.ltb_lt; simpl in H; lia).
    cbn [app shown]. rewrite (IH (S index) total) by (simpl in *; lia).
    reflexivity.
Qed.

(** X25.  A message bubble shows the whole message: the lines of the content
    in order, with a break between two lines and none after the last, so
    that the pieces read in a row give back the content. *)
Theorem bubble_shows_content content : shown (bubble content) = content.
Proof.
  unfold bubble. rewrite shown_pieces by reflexivity. apply join_splitLines.
Qed.
